(** * XpathGet: the content-localization engine of [zGetContentByXpath.py]

    A shallow embedding of the HTML main-content extractor: the document
    tree, the structural cleaner, the candidate scorer and selector, the
    list-container variant, the locator generator and the extraction entry
    point, followed by the properties of the specification that were checked
    against them. *)

From Stdlib Require Import List ZArith NArith Lia String Bool Arith Permutation.
From Stdlib.Strings Require Import Byte.
From Stdlib Require Import Floats Uint63.
Import ListNotations.

Set Implicit Arguments.
Local Open Scope Z_scope.

(* ===================================================================== *)
(** ** Python strings *)
(* ===================================================================== *)

(** A Python [str] is a sequence of Unicode code points. *)
Definition char := N.
Definition str := list char.

(** Source literals are written in UTF-8 in this file and decoded to code
    points, so that [len] and slicing count what Python counts. *)
Fixpoint utf8_decode (bs : list N) : str :=
  match bs with
  | [] => []
  | b :: r =>
      if (b <? 128)%N then b :: utf8_decode r
      else if (b <? 224)%N then
        match r with
        | c1 :: r1 => ((b - 192) * 64 + (c1 - 128))%N :: utf8_decode r1
        | [] => [b]
        end
      else if (b <? 240)%N then
        match r with
        | c1 :: c2 :: r2 =>
            ((b - 224) * 4096 + (c1 - 128) * 64 + (c2 - 128))%N :: utf8_decode r2
        | _ => [b]
        end
      else
        match r with
        | c1 :: c2 :: c3 :: r3 =>
            ((b - 240) * 262144 + (c1 - 128) * 4096 + (c2 - 128) * 64 + (c3 - 128))%N
              :: utf8_decode r3
        | _ => [b]
        end
  end.

Definition U (s : string) : str :=
  utf8_decode (map Byte.to_N (list_byte_of_string s)).
Arguments U s%_string.

Definition len (s : str) : Z := Z.of_nat (List.length s).

Fixpoint str_eqb (a b : str) : bool :=
  match a, b with
  | [], [] => true
  | x :: a', y :: b' => (x =? y)%N && str_eqb a' b'
  | _, _ => false
  end.

(** [s.startswith(p)] *)
Fixpoint startswith (p s : str) : bool :=
  match p, s with
  | [], _ => true
  | x :: p', y :: s' => (x =? y)%N && startswith p' s'
  | _ :: _, [] => false
  end.

(** [needle in hay] on strings: substring containment. *)
Fixpoint str_in (needle hay : str) : bool :=
  startswith needle hay
  || match hay with
     | [] => false
     | _ :: hay' => str_in needle hay'
     end.

(** [x in [a, b, ...]] on a list of strings. *)
Definition str_mem (x : str) (l : list str) : bool := existsb (str_eqb x) l.

(** The code points Python's [str.isspace] (hence [strip()] and the regular
    expression class [\s]) accepts. *)
Definition isspace (c : char) : bool :=
  ((9 <=? c) && (c <=? 13) || (28 <=? c) && (c <=? 32)
   || (c =? 133) || (c =? 160) || (c =? 5760)
   || (8192 <=? c) && (c <=? 8202)
   || (c =? 8232) || (c =? 8233) || (c =? 8239) || (c =? 8287) || (c =? 12288))%N.

Fixpoint lstrip (s : str) : str :=
  match s with
  | c :: s' => if isspace c then lstrip s' else s
  | [] => []
  end.

(** [s.strip()] *)
Definition strip (s : str) : str := rev (lstrip (rev (lstrip s))).

(** [sep.join(parts)] *)
Fixpoint join (sep : str) (parts : list str) : str :=
  match parts with
  | [] => []
  | [p] => p
  | p :: rest => p ++ sep ++ join sep rest
  end.

(** [str(n)] for a non-negative integer, as an f-string prints it. *)
Fixpoint digits_fuel (fuel : nat) (n : N) (acc : str) : str :=
  match fuel with
  | O => acc
  | S f =>
      let acc' := (48 + n mod 10)%N :: acc in
      if (n <? 10)%N then acc' else digits_fuel f (n / 10)%N acc'
  end.

Definition str_of_nat (n : nat) : str :=
  digits_fuel (S n) (N.of_nat n) [].

(** *** Unicode tables

    Case mapping and the character classes of [re] are defined by the Unicode
    database, which is not part of the program.  On ASCII they are written
    out below; beyond ASCII they are taken from an instance of this class.
    [uni_lower] gives the lower-case expansion of one code point (the
    context-dependent final-sigma rule of [str.lower] is not represented). *)
Class UnicodeData := {
  uni_lower : char -> list char;
  uni_isword : char -> bool;
  uni_isdecimal : char -> bool;
  uni_caseless_eqb : char -> char -> bool
}.

(** Tables for texts in ASCII and CJK unified ideographs (U+4E00 to
    U+9FFF), which are word characters without case: used to run the model
    on examples, where they agree with Python. *)
Definition ascii_tables : UnicodeData := {|
  uni_lower := fun c => [c];
  uni_isword := fun c => (19968 <=? c)%N && (c <=? 40959)%N;
  uni_isdecimal := fun _ => false;
  uni_caseless_eqb := N.eqb
|}.

Definition is_ascii (c : char) : bool := (c <? 128)%N.

Definition ascii_lower (c : char) : char :=
  if ((65 <=? c) && (c <=? 90))%N then (c + 32)%N else c.

Section WithUnicode.
Context {UD : UnicodeData}.

Definition lower_char (c : char) : list char :=
  if is_ascii c then [ascii_lower c] else uni_lower c.

(** [s.lower()] *)
Definition lower (s : str) : str := flat_map lower_char s.

(** [\d] *)
Definition isdecimal (c : char) : bool :=
  if is_ascii c then ((48 <=? c) && (c <=? 57))%N else uni_isdecimal c.

(** [\w] *)
Definition isword (c : char) : bool :=
  if is_ascii c then
    ((48 <=? c) && (c <=? 57) || (65 <=? c) && (c <=? 90)
     || (97 <=? c) && (c <=? 122) || (c =? 95))%N
  else uni_isword c.

(** Equality of two code points under [re.IGNORECASE]. *)
Definition caseless_eqb (a b : char) : bool :=
  if is_ascii a && is_ascii b then (ascii_lower a =? ascii_lower b)%N
  else uni_caseless_eqb a b.

End WithUnicode.

(* ===================================================================== *)
(** ** The fragment of [re] the program uses *)
(* ===================================================================== *)

Module Re.

(** Patterns are kept as syntax trees; each pattern of the source is written
    next to its text.  Only the constructs that occur in the program are
    present: literals, classes, [^], [$], sequence, alternation, bounded
    greedy repetition and greedy [*] over a class. *)
Inductive regex : Type :=
| Lit (s : str)
| Class (p : char -> bool)
| Bol
| Eol
| Seq (a b : regex)
| Alt (a b : regex)
| Rep (lo hi : nat) (a : regex)
| Star (p : char -> bool).

(** [p+] over a class. *)
Definition Plus (p : char -> bool) : regex := Seq (Class p) (Star p).

Fixpoint Alts (l : list regex) : regex :=
  match l with
  | [] => Lit []
  | [r] => r
  | r :: l' => Alt r (Alts l')
  end.

Fixpoint Seqs (l : list regex) : regex :=
  match l with
  | [] => Lit []
  | [r] => r
  | r :: l' => Seq r (Seqs l')
  end.

Section Matcher.
Context {UD : UnicodeData}.
Variable ignorecase : bool.

Definition char_eqb (a b : char) : bool :=
  if ignorecase then caseless_eqb a b else (a =? b)%N.

Fixpoint strip_prefix (p s : str) : option str :=
  match p, s with
  | [], _ => Some s
  | x :: p', y :: s' => if char_eqb x y then strip_prefix p' s' else None
  | _ :: _, [] => None
  end.

(** [$] holds at the end of the text and before a final newline. *)
Definition at_eol (s : str) : bool :=
  match s with
  | [] => true
  | [c] => (c =? 10)%N
  | _ => false
  end.

(** Backtracking matcher in continuation style.  [bol] tells whether the
    position is the start of the text; the continuation receives the
    position after the part matched so far and yields the text left after
    the whole match.  Alternatives are tried in the order of the engine
    (left branch first, longest repetition first), so the first answer is
    the match Python reports. *)
Fixpoint rmatch (r : regex) (bol : bool) (s : str)
         (k : bool -> str -> option str) {struct r} : option str :=
  match r with
  | Lit l =>
      match strip_prefix l s with
      | Some s' => k (bol && match l with [] => true | _ => false end) s'
      | None => None
      end
  | Class p =>
      match s with
      | c :: s' => if p c then k false s' else None
      | [] => None
      end
  | Bol => if bol then k bol s else None
  | Eol => if at_eol s then k bol s else None
  | Seq a b => rmatch a bol s (fun bol' s' => rmatch b bol' s' k)
  | Alt a b =>
      match rmatch a bol s k with
      | Some rest => Some rest
      | None => rmatch b bol s k
      end
  | Rep lo hi a =>
      let optional :=
        fix optional (n : nat) (bol : bool) (s : str) : option str :=
          match n with
          | O => k bol s
          | S n' =>
              match rmatch a bol s (fun bol' s' => optional n' bol' s') with
              | Some rest => Some rest
              | None => k bol s
              end
          end in
      (fix mandatory (n : nat) (bol : bool) (s : str) : option str :=
         match n with
         | O => optional (hi - lo)%nat bol s
         | S n' => rmatch a bol s (fun bol' s' => mandatory n' bol' s')
         end) lo bol s
  | Star p =>
      (fix star (bol : bool) (s : str) : option str :=
         match s with
         | c :: s' =>
             if p c then
               match star false s' with
               | Some rest => Some rest
               | None => k bol s
               end
             else k bol s
         | [] => k bol s
         end) bol s
  end.

(** The leftmost match at or after the current position: the text that
    follows it. *)
Fixpoint search_from (r : regex) (bol : bool) (s : str) : option str :=
  match rmatch r bol s (fun _ s' => Some s') with
  | Some rest => Some rest
  | None =>
      match s with
      | [] => None
      | _ :: s' => search_from r false s'
      end
  end.

(** [pattern.search(text)] as a truth value. *)
Definition search (r : regex) (s : str) : bool :=
  match search_from r true s with Some _ => true | None => false end.

(** [len(re.findall(pattern, text))] for a pattern without groups that
    cannot match the empty string: the non-overlapping matches, left to
    right.  Each match consumes a character, so [S (length s)] rounds are
    enough. *)
Fixpoint findall_count (fuel : nat) (r : regex) (bol : bool) (s : str) : nat :=
  match fuel with
  | O => O
  | S f =>
      match search_from r bol s with
      | None => O
      | Some rest => S (findall_count f r false rest)
      end
  end.

Definition findall_len (r : regex) (s : str) : nat :=
  findall_count (S (List.length s)) r true s.

(** [pattern.sub(repl, text)] for a pattern that cannot match the empty
    string: every leftmost non-overlapping match is replaced. *)
Fixpoint sub_fuel (fuel : nat) (r : regex) (repl : str) (bol : bool) (s : str) : str :=
  match fuel with
  | O => s
  | S f =>
      match rmatch r bol s (fun _ s' => Some s') with
      | Some rest => repl ++ sub_fuel f r repl false rest
      | None =>
          match s with
          | [] => []
          | c :: s' => c :: sub_fuel f r repl false s'
          end
      end
  end.

Definition sub (r : regex) (repl : str) (s : str) : str :=
  sub_fuel (S (List.length s)) r repl true s.

End Matcher.

End Re.

(* ===================================================================== *)
(** ** The document tree *)
(* ===================================================================== *)

(** The value of [node.tag]: the name of an element, or, for the comments
    and processing instructions that [lxml] also hands out as [_Element]
    objects, the factory [etree.Comment] or [etree.ProcessingInstruction],
    which is not a string and equals no name. *)
Inductive tag_value : Type :=
| Name (name : str)
| CommentTag
| ProcessingInstructionTag.

(** A node as [lxml] presents it: tag, attributes, the text before the
    first child, the text that follows the node inside its parent
    ([tail]), and the child nodes in document order: elements, and the
    comments and processing instructions between them, which [len()], the
    truth value, iteration and [getprevious()] count as children while the
    XPath steps [*] and [name] pass them over.  [eid] stands for the
    identity of the Python object ([is], and [==] on elements); the nodes
    of one document have pairwise distinct identities.  A comment or a
    processing instruction keeps its content in [text] and has neither
    attributes nor children. *)
Unset Elimination Schemes.
Inductive Element : Type :=
  mkNode {
    eid : nat;
    node_tag : tag_value;
    attrib : list (str * str);
    text : str;
    tail : str;
    children : list Element
  }.
Set Elimination Schemes.

(** An element, by its name. *)
Abbreviation mkElement i name := (mkNode i (Name name)) (only parsing).

(** A comment with its content and the text that follows it. *)
Definition Comment (i : nat) (content tail_text : str) : Element :=
  mkNode i CommentTag [] content tail_text [].

(** [element.tag] read as a string, which the program does on elements
    only. *)
Definition tag (e : Element) : str :=
  match node_tag e with
  | Name name => name
  | _ => []
  end.

(** The node test [*] of XPath: elements, not comments or processing
    instructions. *)
Definition is_element (e : Element) : bool :=
  match node_tag e with
  | Name _ => true
  | _ => false
  end.

Section Element_ind.
Variable P : Element -> Prop.
Hypothesis step :
  forall i t a x tl cs, Forall P cs -> P (mkNode i t a x tl cs).

Fixpoint Element_ind (e : Element) : P e :=
  match e with
  | mkNode i t a x tl cs =>
      step i t a x tl
        ((fix all (l : list Element) : Forall P l :=
            match l with
            | [] => Forall_nil P
            | c :: l' => Forall_cons c (Element_ind c) (all l')
            end) cs)
  end.
End Element_ind.

(** [element.get(name)]: [None] when the attribute is absent, and on a
    comment or processing instruction, which has no attributes. *)
Definition get_opt (e : Element) (name : str) : option str :=
  if is_element e then
    match find (fun kv => str_eqb (fst kv) name) (attrib e) with
    | Some kv => Some (snd kv)
    | None => None
    end
  else None.

(** [element.get(name, default)] *)
Definition get (e : Element) (name default : str) : str :=
  match get_opt e name with
  | Some v => v
  | None => default
  end.

(** [element.text_content()]: the XPath string value, that is the text of
    the element and of every element below it, in document order.  The
    content of a comment or processing instruction is not part of it; the
    text that follows one is. *)
Fixpoint text_content (e : Element) : str :=
  text e
  ++ flat_map (fun c => (if is_element c then text_content c else []) ++ tail c)
              (children e).

(** The nodes strictly below [e], in document order. *)
Fixpoint descendants (e : Element) : list Element :=
  flat_map (fun c => c :: descendants c) (children e).

(** The nodes of a document whose root element is [e], in document
    order. *)
Definition descendant_or_self (e : Element) : list Element :=
  e :: descendants e.

(** Truth value of an element ([if element:], [if not element:]): lxml
    answers [len(element) != 0], whether the element has child nodes,
    comments and processing instructions included. *)
Definition truthy (e : Element) : bool :=
  match children e with
  | [] => false
  | _ :: _ => true
  end.

(** [a.tag == b.tag] *)
Definition tag_eqb (a b : tag_value) : bool :=
  match a, b with
  | Name x, Name y => str_eqb x y
  | CommentTag, CommentTag => true
  | ProcessingInstructionTag, ProcessingInstructionTag => true
  | _, _ => false
  end.

(** The name tests [e.tag == t] and [e.tag in ts], which only an element
    can pass. *)
Definition tag_is (t : str) (e : Element) : bool := tag_eqb (node_tag e) (Name t).
Definition tag_in (ts : list str) (e : Element) : bool := existsb (fun t => tag_is t e) ts.

(** The XPath test [[@name='value']]. *)
Definition attr_is (name value : str) (e : Element) : bool :=
  match get_opt e name with
  | Some v => str_eqb v value
  | None => false
  end.

(** The XPath test [[contains(@name, 'part')]]. *)
Definition attr_contains (name part : str) (e : Element) : bool :=
  str_in part (get e name []).

(** [e.xpath(".//a | .//b ...")] with a test on the node: the matching
    nodes below [e], each once, in document order.  The tests of the program
    start from a name test or from [*], which is [is_element]. *)
Definition xpath_desc (test : Element -> bool) (e : Element) : list Element :=
  filter test (descendants e).

(** [e.xpath("./a | ./b ...")] *)
Definition xpath_child (test : Element -> bool) (e : Element) : list Element :=
  filter test (children e).

(** [e.xpath("//a ...")]: an absolute path is evaluated from the root of the
    document, whatever element it is called on. *)
Definition xpath_abs (test : Element -> bool) (doc : Element) : list Element :=
  filter test (descendant_or_self doc).

(** The chain [x.getparent()], [x.getparent().getparent()], ... up to [e],
    for the element of identity [x] strictly below [e]. *)
Fixpoint parent_chain (x : nat) (e : Element) : option (list Element) :=
  (fix scan (cs : list Element) : option (list Element) :=
     match cs with
     | [] => None
     | c :: cs' =>
         if Nat.eqb (eid c) x then Some [e]
         else match parent_chain x c with
              | Some chain => Some (chain ++ [e])
              | None => scan cs'
              end
     end) (children e).

(** The ancestors of an element of the document, nearest first; empty for
    the root. *)
Definition ancestors (doc : Element) (x : Element) : list Element :=
  match parent_chain (eid x) doc with
  | Some chain => chain
  | None => []
  end.

(** [x.getparent()] *)
Definition getparent (doc : Element) (x : Element) : option Element :=
  hd_error (ancestors doc x).

Fixpoint take_until (x : nat) (cs : list Element) : list Element :=
  match cs with
  | [] => []
  | c :: cs' => if Nat.eqb (eid c) x then [] else c :: take_until x cs'
  end.

(** The chain [x.getprevious()], [x.getprevious().getprevious()], ...:
    the siblings before [x], nearest first. *)
Definition previous_siblings (doc : Element) (x : Element) : list Element :=
  match getparent doc x with
  | Some p => rev (take_until (eid x) (children p))
  | None => []
  end.

(** [parent.remove(x)] seen from an enclosing element [e]: the element of
    identity [x] leaves the tree with its subtree and its tail.  The root of
    [e] has no parent inside [e] and stays. *)
Fixpoint remove_elem (x : nat) (e : Element) : Element :=
  mkNode (eid e) (node_tag e) (attrib e) (text e) (tail e)
    ((fix prune (cs : list Element) : list Element :=
        match cs with
        | [] => []
        | c :: cs' =>
            if Nat.eqb (eid c) x then prune cs'
            else remove_elem x c :: prune cs'
        end) (children e)).

(** What the parser hands over: the document and the element
    [html.fromstring] returned, which lies in that document. *)
Record Parsed := {
  parsed_document : Element;
  page_tree : Element
}.

(** The state the cleaning passes work on.  [body] is an element of
    [document]; Python reaches the same nodes through both references, so
    every removal is applied to both views. *)
Record Page := {
  document : Element;
  body : Element
}.

Definition detach (x : Element) (p : Page) : Page :=
  {| document := remove_elem (eid x) (document p);
     body := remove_elem (eid x) (body p) |}.

(** The removal loop shared by the cleaning passes:
<<
    for element in elements:
        parent = element.getparent()
        if parent is not None:
            parent.remove(element)
            removed_count += 1
>>
    [has_parent] answers [element.getparent() is not None] for the elements
    of the list.  An element keeps its parent link until its own turn, also
    when an element that encloses it has been removed before it, so the
    answer is the one at the time the list was selected. *)
Definition remove_each (has_parent : Element -> bool) (elements : list Element)
           (st : Page * Z) : Page * Z :=
  fold_left
    (fun st el =>
       if has_parent el then (detach el (fst st), snd st + 1) else st)
    elements st.

(** [x.getparent() is not None] *)
Definition has_parent_in (doc : Element) (x : Element) : bool :=
  match getparent doc x with
  | Some _ => true
  | None => false
  end.

(** One round of [for xpath in ...: elements = body.xpath(xpath); ...]. *)
Definition remove_matching (st : Page * Z) (test : Element -> bool) : Page * Z :=
  let doc0 := document (fst st) in
  remove_each (has_parent_in doc0) (xpath_abs test doc0) st.

(** [len(list)] *)
Definition count_of {A : Type} (l : list A) : Z := Z.of_nat (List.length l).

(** A list of string literals of the source. *)
Definition words (l : list string) : list str := map U l.

(** [sum(1 for word in keywords if word in text)] *)
Definition keyword_hits (keywords : list str) (text : str) : Z :=
  count_of (filter (fun word => str_in word text) keywords).

(** The bilingual vocabularies of page headers and footers, as they appear
    in [remove_page_level_header_footer] and in the scorer. *)
Definition header_content_keywords : list str :=
  words ["登录"; "注册"; "首页"; "主页"; "无障碍"; "政务"; "办事"; "互动";
         "走进"; "移动版"; "手机版"; "导航"; "菜单"; "搜索"; "市政府";
         "login"; "register"; "home"; "menu"; "search"; "nav"]%string.

Definition footer_content_keywords : list str :=
  words ["网站说明"; "网站标识码"; "版权所有"; "主办单位"; "承办单位";
         "技术支持"; "联系我们"; "网站地图"; "隐私政策"; "免责声明";
         "备案号"; "icp"; "公安备案"; "政府网站"; "网站管理";
         "copyright"; "all rights reserved"; "powered by"; "designed by"]%string.

(* ===================================================================== *)
(** ** Structural cleaner *)
(* ===================================================================== *)

Section Cleaner.
Context {UD : UnicodeData}.

Definition strong_header_indicators : list str :=
  words ["header"; "top"; "navbar"; "navigation"; "menu-main";
         "site-header"; "page-header"; "banner"; "topbar"]%string.

Definition strong_footer_indicators : list str :=
  words ["footer"; "bottom"; "site-footer"; "page-footer";
         "footerpc"; "wapfooter"; "g-bottom"]%string.

(** The body of the second loop of [remove_page_level_header_footer]: is
    this top-level [div] marked for removal? *)
Definition is_header_footer (div : Element) : bool :=
  let classes := lower (get div (U "class") []) in
  let elem_id := lower (get div (U "id") []) in
  let text_content := lower (text_content div) in
  if existsb (fun indicator => str_in indicator classes || str_in indicator elem_id)
       (strong_header_indicators ++ strong_footer_indicators)
  then true
  else
    let header_count := keyword_hits header_content_keywords text_content in
    let footer_count := keyword_hits footer_content_keywords text_content in
    let text_length := len (strip text_content) in
    if (4 <=? header_count) && (text_length <? 1000) then true
    else if (3 <=? footer_count) && (text_length <? 800) then true
    else false.

(** [remove_page_level_header_footer(body)]: the page after the two rounds
    and [removed_count]. *)
Definition remove_page_level_header_footer (p : Page) : Page * Z :=
  let semantic_tags := [tag_is (U "header"); tag_is (U "footer"); tag_is (U "nav")] in
  let st := fold_left remove_matching semantic_tags (p, 0) in
  let top_divs := xpath_child (tag_is (U "div")) (body (fst st)) in
  let containers_to_remove := filter is_header_footer top_divs in
  (* the containers are children of [body]: each has a parent *)
  remove_each (fun _ => true) containers_to_remove st.

(** [page_tree.xpath("//body")[0] if page_tree.xpath("//body") else page_tree] *)
Definition find_body (parsed : Parsed) : Element :=
  match xpath_abs (tag_is (U "body")) (parsed_document parsed) with
  | b :: _ => b
  | [] => page_tree parsed
  end.

(** [preprocess_html_remove_interference(page_tree)]: the cleaned page, whose
    [body] is the value the function returns.  The serialisation of the
    body that follows the cleaning only feeds the log. *)
Definition preprocess_html_remove_interference (parsed : Parsed) : Page :=
  let p := {| document := parsed_document parsed; body := find_body parsed |} in
  fst (remove_page_level_header_footer p).

(** The selectors of [remove_semantic_interference_tags], in order. *)
Definition semantic_tags_to_remove : list (Element -> bool) :=
  [ tag_is (U "header"); tag_is (U "footer"); tag_is (U "nav"); tag_is (U "aside");
    (fun e => tag_is (U "div") e && attr_is (U "role") (U "navigation") e);
    (fun e => tag_is (U "div") e && attr_is (U "role") (U "banner") e);
    (fun e => tag_is (U "div") e && attr_is (U "role") (U "contentinfo") e);
    (fun e => tag_is (U "section") e && attr_is (U "role") (U "navigation") e) ].

(** [remove_semantic_interference_tags(body)] *)
Definition remove_semantic_interference_tags (p : Page) : Page :=
  fst (fold_left remove_matching semantic_tags_to_remove (p, 0)).

End Cleaner.

(* ===================================================================== *)
(** ** Candidate scorer *)
(* ===================================================================== *)

Section Scorer.
Context {UD : UnicodeData}.

Definition chrome_tags : list str := words ["header"; "footer"; "nav"; "aside"]%string.

Definition strong_interference_keywords : list str :=
  words ["header"; "footer"; "nav"; "navigation"; "menu"; "menubar";
         "topbar"; "bottom"; "sidebar"; "aside"; "banner"; "ad"; "advertisement"]%string.

(** [[^\w-]] *)
Definition not_word_or_hyphen (c : char) : bool :=
  negb (isword c || (c =? 45)%N).

(** [create_pattern(keyword)]:
    [re.compile(r'(^|[^\w-])' + re.escape(keyword) + r'([^\w-]|$)', re.IGNORECASE)] *)
Definition create_pattern (keyword : str) : Re.regex :=
  Re.Seqs [ Re.Alt Re.Bol (Re.Class not_word_or_hyphen);
            Re.Lit keyword;
            Re.Alt (Re.Class not_word_or_hyphen) Re.Eol ].

Definition found_interference_keywords (classes elem_id : str) : list str :=
  let combined_text := lower (strip (classes ++ U " " ++ elem_id)) in
  filter (fun keyword => Re.search true (create_pattern keyword) combined_text)
         strong_interference_keywords.

(** The breadcrumb phrases that switch the header vocabulary off. *)
Definition has_breadcrumb (lowered : str) : bool :=
  str_in (U "当前位置") lowered || str_in (U "当前的位置") lowered.

Definition found_header_keywords (text_content : str) : list str :=
  filter (fun keyword =>
            str_in keyword (lower text_content)
            && negb (has_breadcrumb (lower text_content)))
         header_content_keywords.

Definition found_footer_keywords (text_content : str) : list str :=
  filter (fun keyword => str_in keyword (lower text_content))
         footer_content_keywords.

(** [if count >= 3: score -= 300 elif count >= 2: score -= 150] *)
Definition keyword_penalty (count : Z) : Z :=
  if 3 <=? count then 300 else if 2 <=? count then 150 else 0.

(** Step 3 of the scorer: the header and footer vocabulary penalties. *)
Definition apply_content_penalties (container : Element) (score : Z) : Z :=
  let header_content_count := count_of (found_header_keywords (text_content container)) in
  let footer_content_count := count_of (found_footer_keywords (text_content container)) in
  let score := score - keyword_penalty header_content_count in
  score - keyword_penalty footer_content_count.

Definition digit : Re.regex := Re.Class isdecimal.
Definition lits (l : list string) : Re.regex := Re.Alts (map (fun s => Re.Lit (U s)) l).

(** [[一二三四五六七八九十\d]+] *)
Definition clause_number : Re.regex :=
  Re.Plus (fun c => existsb (N.eqb c) (U "一二三四五六七八九十") || isdecimal c).

(** The table [content_indicators]: pattern and weight. *)
Definition content_indicators : list (Re.regex * Z) :=
  [ (* \d{4}-\d{2}-\d{2}|\d{4}年\d{1,2}月\d{1,2}日|\d{4}/\d{1,2}/\d{1,2}
       |发布时间|更新日期|发布日期|成文日期 *)
    (Re.Alts
       [ Re.Seqs [Re.Rep 4 4 digit; Re.Lit (U "-"); Re.Rep 2 2 digit;
                  Re.Lit (U "-"); Re.Rep 2 2 digit];
         Re.Seqs [Re.Rep 4 4 digit; Re.Lit (U "年"); Re.Rep 1 2 digit;
                  Re.Lit (U "月"); Re.Rep 1 2 digit; Re.Lit (U "日")];
         Re.Seqs [Re.Rep 4 4 digit; Re.Lit (U "/"); Re.Rep 1 2 digit;
                  Re.Lit (U "/"); Re.Rep 1 2 digit];
         lits ["发布时间"; "更新日期"; "发布日期"; "成文日期"]%string ], 30);
    (* 通知|公告|意见|办法|规定|措施|方案|决定|指导|实施 *)
    (lits ["通知"; "公告"; "意见"; "办法"; "规定"; "措施"; "方案"; "决定";
           "指导"; "实施"]%string, 40);
    (* 第[一二三四五六七八九十\d]+条|第[...]+章|第[...]+节 *)
    (Re.Alts
       [ Re.Seqs [Re.Lit (U "第"); clause_number; Re.Lit (U "条")];
         Re.Seqs [Re.Lit (U "第"); clause_number; Re.Lit (U "章")];
         Re.Seqs [Re.Lit (U "第"); clause_number; Re.Lit (U "节")] ], 35);
    (* 索引号|主题分类|发文机关|发文字号|有效性 *)
    (lits ["索引号"; "主题分类"; "发文机关"; "发文字号"; "有效性"]%string, 25);
    (* 附件|下载|pdf|doc|docx|文件下载 *)
    (lits ["附件"; "下载"; "pdf"; "doc"; "docx"; "文件下载"]%string, 20);
    (* 为了|根据|按照|依据|现将|特制定|现印发|请结合实际 *)
    (lits ["为了"; "根据"; "按照"; "依据"; "现将"; "特制定"; "现印发";
           "请结合实际"]%string, 30);
    (* 记者|报道|消息|新闻|采访|发表|刊登 *)
    (lits ["记者"; "报道"; "消息"; "新闻"; "采访"; "发表"; "刊登"]%string, 25);
    (* 正文|内容|详情|全文|摘要|概述 *)
    (lits ["正文"; "内容"; "详情"; "全文"; "摘要"; "概述"]%string, 20) ].

Definition positive_keywords : list str :=
  words ["content"; "main"; "article"; "news"; "data"; "info";
         "detail"; "result"; "list"; "body"; "text"; "container"]%string.

(** [.//p | .//h1 | ... | .//h6 | .//li | .//table
     | .//div[contains(@class,'content')] | .//section] *)
Definition is_structured_element (e : Element) : bool :=
  tag_in (words ["p"; "h1"; "h2"; "h3"; "h4"; "h5"; "h6"; "li"; "table"; "section"]%string) e
  || tag_is (U "div") e && attr_contains (U "class") (U "content") e.

(** Steps 4 to 9 of the scorer: the positive signals. *)
Definition add_positive_signals (container : Element) (score : Z) : Z :=
  let classes := lower (get container (U "class") []) in
  let elem_id := lower (get container (U "id") []) in
  let text_content := text_content container in
  let text_length := len (strip text_content) in
  (* 4 *)
  let score :=
    if 1000 <? text_length then score + 50
    else if 500 <? text_length then score + 35
    else if 200 <? text_length then score + 20
    else if text_length <? 50 then score - 20
    else score in
  (* 5 *)
  let role := lower (get container (U "role") []) in
  let score :=
    if str_eqb role (U "viewlist") then score + 150
    else if str_mem role (words ["list"; "listbox"; "grid"; "main"; "article"]%string)
         then score + 50
    else score in
  (* 6 *)
  let total_content_score :=
    fold_left
      (fun total indicator =>
         if Re.search false (fst indicator) text_content
         then total + snd indicator else total)
      content_indicators 0 in
  let score :=
    if 0 <? total_content_score then score + Z.min total_content_score 120
    else score in
  (* 7 *)
  let positive_matches :=
    count_of (filter (fun keyword => str_in keyword classes || str_in keyword elem_id)
                     positive_keywords) in
  let score :=
    if 0 <? positive_matches then score + Z.min (positive_matches * 20) 60
    else score in
  (* 8 *)
  let structured_elements := xpath_desc is_structured_element container in
  let score :=
    if 5 <? count_of structured_elements
    then score + Z.min (count_of structured_elements * 2) 40
    else score in
  (* 9 *)
  let images := xpath_desc (tag_is (U "img")) container in
  if 0 <? count_of images then score + Z.min (count_of images * 3) 150
  else score.

(** [calculate_content_container_score(container)] *)
Definition calculate_content_container_score (container : Element) : Z :=
  let score := 0 in
  let classes := lower (get container (U "class") []) in
  let elem_id := lower (get container (U "id") []) in
  (* 1 *)
  if str_mem (lower (tag container)) chrome_tags then score - 500
  else
    (* 2 *)
    let interference_count := count_of (found_interference_keywords classes elem_id) in
    let score :=
      if 0 <? interference_count then score - interference_count * 200 else score in
    if (0 <? interference_count) && (2 <=? interference_count) then score
    else
      (* 3 *)
      let score := apply_content_penalties container score in
      if score <? -200 then score
      else add_positive_signals container score.

End Scorer.

(* ===================================================================== *)
(** ** Exceptions and Python's [sort] *)
(* ===================================================================== *)

(** The exceptions that can cross a function boundary in the extraction
    path: [StopIteration] out of a [next(...)] over an exhausted generator,
    and the faults of the external libraries (parser, serialiser,
    BeautifulSoup, markdownify), which are opaque here. *)
Inductive exn : Type :=
| StopIteration
| ExternalError (message : str).

Inductive exc (A : Type) : Type :=
| Ok (a : A)
| Raise (e : exn).
Arguments Ok {A} a.
Arguments Raise {A} e.

Definition exc_bind {A B : Type} (m : exc A) (f : A -> exc B) : exc B :=
  match m with
  | Ok a => f a
  | Raise e => Raise e
  end.

Notation "x <- m ;; k" := (exc_bind m (fun x => k))
  (at level 61, m at next level, right associativity).

Fixpoint exc_map {A B : Type} (f : A -> exc B) (l : list A) : exc (list B) :=
  match l with
  | [] => Ok []
  | a :: l' => b <- f a ;; bs <- exc_map f l' ;; Ok (b :: bs)
  end.

(** Lexicographic order on the keys [(a, b)] the program sorts by. *)
Definition key_ltb (k1 k2 : Z * Z) : bool :=
  (fst k1 <? fst k2) || (fst k1 =? fst k2) && (snd k1 <? snd k2).

Section Sort.
Variable A : Type.
Variable key : A -> Z * Z.

(** [x] comes from the left of everything in [sorted]: it goes in front of
    the first element whose key is not smaller than its own. *)
Fixpoint insert_by (x : A) (sorted : list A) : list A :=
  match sorted with
  | [] => [x]
  | y :: rest =>
      if key_ltb (key y) (key x) then y :: insert_by x rest
      else x :: sorted
  end.

(** [l.sort(key=key)]: ascending and stable, which determines the result. *)
Fixpoint sort_by (l : list A) : list A :=
  match l with
  | [] => []
  | x :: l' => insert_by x (sort_by l')
  end.
End Sort.

(** [l.sort(key=lambda x: score(x), reverse=True)]: descending, equal keys
    in their original order. *)
Definition sort_desc {A : Type} (score : A -> Z) (l : list A) : list A :=
  sort_by (fun x => (- score x, 0)) l.

(** [enumerate(l)] *)
Definition enumerate {A : Type} (l : list A) : list (nat * A) :=
  combine (seq 0 (List.length l)) l.

(* ===================================================================== *)
(** ** Candidate selector *)
(* ===================================================================== *)

Definition same_element (a b : Element) : bool := Nat.eqb (eid a) (eid b).

(** [is_child_of(child_element, parent_element)] *)
Definition is_child_of (doc : Element) (child_element parent_element : Element) : bool :=
  existsb (fun current => same_element current parent_element)
          (ancestors doc child_element).

Fixpoint take_while {A : Type} (f : A -> bool) (l : list A) : list A :=
  match l with
  | [] => []
  | x :: l' => if f x then x :: take_while f l' else []
  end.

(** [calculate_container_depth(container)]: the steps from the container up
    to the first [body] or [html], or to the root. *)
Definition calculate_container_depth (doc : Element) (container : Element) : Z :=
  count_of (take_while (fun current => negb (tag_in (words ["body"; "html"]%string) current))
                       (container :: ancestors doc container)).

(** [select_deepest_container_from_similar(similar_containers)];
    [None] is Python's [None]. *)
Definition select_deepest_container_from_similar (doc : Element)
           (similar_containers : list Element) : option Element :=
  match similar_containers with
  | [] => None
  | [c] => Some c
  | _ =>
      let container_depths :=
        map (fun c => (c, calculate_container_depth doc c)) similar_containers in
      match sort_desc snd container_depths with
      | (deepest_container, _) :: _ => Some deepest_container
      | [] => None
      end
  end.

(** [next(score for c, score in all_scored_containers if c == container)] *)
Definition next_score (all_scored_containers : list (Element * Z))
           (container : Element) : exc Z :=
  match find (fun cs => same_element (fst cs) container) all_scored_containers with
  | Some cs => Ok (snd cs)
  | None => Raise StopIteration
  end.

Definition float_of_len (n : Z) : float := PrimFloat.of_uint63 (Uint63.of_Z n).

(** [child_text_length < parent_text_length * 0.6], in binary64 as Python
    computes it; [0x1.3333333333333p-1] is the double written [0.6]. *)
Definition under_60_percent (child_text_length parent_text_length : Z) : bool :=
  PrimFloat.ltb (float_of_len child_text_length)
                (PrimFloat.mul (float_of_len parent_text_length)
                               0x1.3333333333333p-1%float).

Definition text_length (e : Element) : Z := len (strip (text_content e)).

(** The pairs [(container1, container2)] of the double loop of
    [select_best_container_prefer_child] with [container2] below
    [container1]. *)
Definition nested_pairs (doc : Element) (similar_containers : list Element)
  : list (Element * Element) :=
  flat_map
    (fun ic1 =>
       flat_map
         (fun jc2 =>
            if negb (Nat.eqb (fst ic1) (fst jc2))
               && is_child_of doc (snd jc2) (snd ic1)
            then [(snd ic1, snd jc2)] else [])
         (enumerate similar_containers))
    (enumerate similar_containers).

(** The entries [(parent, child, parent_score, child_score)]. *)
Definition pair_entry : Type := Element * Element * Z * Z.
Definition pe_parent (e : pair_entry) : Element := fst (fst (fst e)).
Definition pe_child (e : pair_entry) : Element := snd (fst (fst e)).
Definition pe_parent_score (e : pair_entry) : Z := snd (fst e).
Definition pe_child_score (e : pair_entry) : Z := snd e.

(** The entries [(child, child_score, score_diff)]. *)
Definition valid_entry : Type := Element * Z * Z.

Definition valid_children_of (parent_child_pairs : list pair_entry) : list valid_entry :=
  flat_map
    (fun e =>
       let score_diff := pe_parent_score e - pe_child_score e in
       if (score_diff <=? 20) && (150 <=? pe_child_score e)
       then [(pe_child e, pe_child_score e, score_diff)] else [])
    parent_child_pairs.

(** [select_best_container_prefer_child(similar_containers, all_scored_containers)] *)
Definition select_best_container_prefer_child (doc : Element)
           (similar_containers : list Element)
           (all_scored_containers : list (Element * Z)) : exc (option Element) :=
  parent_child_pairs <-
    exc_map (fun pc =>
               score1 <- next_score all_scored_containers (fst pc) ;;
               score2 <- next_score all_scored_containers (snd pc) ;;
               Ok (fst pc, snd pc, score1, score2))
            (nested_pairs doc similar_containers) ;;
  match sort_by (fun v : valid_entry => (- snd (fst v), snd v))
                (valid_children_of parent_child_pairs) with
  | (best_child, _, _) :: _ =>
      let child_text_length := text_length best_child in
      let parent_candidates :=
        map pe_parent
            (filter (fun e => same_element (pe_child e) best_child) parent_child_pairs) in
      match parent_candidates with
      | parent :: _ =>
          if under_60_percent child_text_length (text_length parent)
          then Ok (Some parent)
          else Ok (Some best_child)
      | [] => Ok (Some best_child)
      end
  | [] => Ok (select_deepest_container_from_similar doc similar_containers)
  end.

Section Selector.
Context {UD : UnicodeData}.

(** The protection test of [find_main_content_in_cleaned_html]. *)
Definition is_protected (container : Element) : bool :=
  let classes := lower (get container (U "class") []) in
  let elem_id := lower (get container (U "id") []) in
  str_in (U "printcontent") (lower elem_id)
  || match xpath_desc (fun e => attr_is (U "id") (U "printContent") e
                                || attr_is (U "id") (U "printcontent") e) container with
     | _ :: _ => true
     | [] => false
     end
  || str_in (U "bg-fff") classes
  || str_in (U "container") classes
     && (20 <? count_of (xpath_desc is_element container)).

(** The scoring loop: the candidates kept, with the score they are ranked
    by. *)
Definition score_containers (content_containers : list Element) : list (Element * Z) :=
  flat_map
    (fun container =>
       let score := calculate_content_container_score container in
       if is_protected container then [(container, Z.max score 50)]
       else if score <? -100 then []
       else if -50 <? score then [(container, score)]
       else [])
    content_containers.

Definition score_threshold : Z := 20.

(** The candidates within [score_threshold] of the best score. *)
Definition similar_score_containers (sorted : list (Element * Z)) : list (Element * Z) :=
  match sorted with
  | [] => []
  | (_, best_score) :: _ =>
      filter (fun cs => Z.abs (snd cs - best_score) <=? score_threshold) sorted
  end.

(** [.//div | .//section | .//article | .//main] *)
Definition is_content_container (e : Element) : bool :=
  tag_in (words ["div"; "section"; "article"; "main"]%string) e.

(** [find_main_content_in_cleaned_html(cleaned_body)] *)
Definition find_main_content_in_cleaned_html (p : Page) : exc Element :=
  let cleaned_body := body p in
  let content_containers := xpath_desc is_content_container cleaned_body in
  match content_containers with
  | [] => Ok cleaned_body
  | first_container :: _ =>
      match sort_desc snd (score_containers content_containers) with
      | [] => Ok first_container
      | ((top_container, _) :: _) as scored_containers =>
          let similar := similar_score_containers scored_containers in
          best_container <-
            (if 1 <? count_of similar
             then select_best_container_prefer_child
                    (document p) (map fst similar) scored_containers
             else Ok (Some top_container)) ;;
          (* final_score = next(score for container, score in
                                scored_containers if container == best_container) *)
          match best_container with
          | Some best =>
              _ <- next_score scored_containers best ;; Ok best
          | None => Raise StopIteration
          end
      end
  end.

(** [find_article_container(page_tree)] *)
Definition find_article_container (parsed : Parsed) : exc Element :=
  find_main_content_in_cleaned_html (preprocess_html_remove_interference parsed).

End Selector.

(* ===================================================================== *)
(** ** Locator generator *)
(* ===================================================================== *)

(** [s.split()]: the maximal runs of non-space characters. *)
Fixpoint split_ws_aux (s : str) (cur : str) : list str :=
  match s with
  | [] => match cur with [] => [] | _ => [rev cur] end
  | c :: s' =>
      if isspace c then
        match cur with
        | [] => split_ws_aux s' []
        | _ => rev cur :: split_ws_aux s' []
        end
      else split_ws_aux s' (c :: cur)
  end.

Definition split_ws (s : str) : list str := split_ws_aux s [].

(** Truth value of an optional string ([if elem_id:]): present and not
    empty. *)
Definition nonempty (s : option str) : bool :=
  match s with
  | Some (_ :: _) => true
  | _ => false
  end.

Section Locator.
Context {UD : UnicodeData}.

Definition interference_keywords : list str :=
  words ["header"; "footer"; "nav"; "navigation"; "menu"; "menubar";
         "topbar"; "bottom"; "sidebar"; "aside"; "banner"; "ad"]%string.

(** [is_interference_identifier(identifier)] *)
Definition is_interference_identifier (identifier : str) : bool :=
  match identifier with
  | [] => false
  | _ =>
      let identifier_lower := lower identifier in
      existsb (fun keyword => str_in keyword identifier_lower) interference_keywords
  end.

(** A usable attribute value: [value and not is_interference_identifier(value)]. *)
Definition clean_value (v : option str) : bool :=
  match v with
  | Some s => nonempty v && negb (is_interference_identifier s)
  | None => false
  end.

(** [f"//{tag}[@{attr}='{value}']"] *)
Definition attribute_xpath (tag_name attr value : str) : str :=
  U "//" ++ tag_name ++ U "[@" ++ attr ++ U "='" ++ value ++ U "']".

(** [f"{current.tag}[{index}]"], [index] counting the previous siblings of
    the same tag from 1. *)
Definition position_step (doc : Element) (current : Element) : str :=
  let index :=
    S (List.length (filter (fun sibling => tag_eqb (node_tag sibling) (node_tag current))
                           (previous_siblings doc current))) in
  tag current ++ U "[" ++ str_of_nat index ++ U "]".

(** The test of [find_closest_clean_identifier] on one ancestor. *)
Definition has_clean_identifier (parent : Element) : bool :=
  clean_value (get_opt parent (U "id"))
  || match get_opt parent (U "class") with
     | Some parent_classes =>
         nonempty (Some parent_classes)
         && existsb (fun cls => negb (is_interference_identifier cls))
                    (split_ws parent_classes)
     | None => false
     end.

(** [find_closest_clean_identifier(el)] *)
Definition find_closest_clean_identifier (doc : Element) (el : Element) : option Element :=
  find has_clean_identifier
       (take_while (fun parent => negb (tag_is (U "html") parent)) (ancestors doc el)).

(** [generate_relative_path(ancestor_el, target_el)] *)
Definition generate_relative_path (doc : Element) (ancestor_el target_el : Element) : str :=
  let chain :=
    take_while (fun current => negb (same_element current ancestor_el))
               (target_el :: ancestors doc target_el) in
  U "/" ++ join (U "/") (map (position_step doc) (rev chain)).

(** Step 5: the positional path from the element below [html]. *)
Definition absolute_path (doc : Element) (element : Element) : str :=
  let chain :=
    take_while (fun current => negb (tag_is (U "html") current))
               (element :: ancestors doc element) in
  U "/" ++ join (U "/") (map (position_step doc) (rev chain)).

(** The first attribute of the list that has a usable value. *)
Fixpoint first_clean_attribute (element : Element) (attrs : list str) : option (str * str) :=
  match attrs with
  | [] => None
  | attr :: rest =>
      match get_opt element attr with
      | Some attr_value =>
          if clean_value (Some attr_value) then Some (attr, attr_value)
          else first_clean_attribute element rest
      | None => first_clean_attribute element rest
      end
  end.

(** The body of [generate_xpath(element)], with the recursive call on the
    ancestor as [self].  [None] is Python's [None]. *)
Definition generate_xpath_body (self : Element -> option str)
           (doc : Element) (element : Element) : option str :=
  if negb (truthy element) then None
  else
    let tag_name := tag element in
    (* 1 *)
    let elem_id := get_opt element (U "id") in
    if clean_value elem_id then
      Some (attribute_xpath tag_name (U "id") (get element (U "id") []))
    else
      (* 2 *)
      let classes := get_opt element (U "class") in
      if nonempty classes then
        Some (attribute_xpath tag_name (U "class") (get element (U "class") []))
      else
        (* 3 *)
        match first_clean_attribute element
                (words ["aria-label"; "role"; "data-testid"; "data-role"]%string) with
        | Some (attr, attr_value) => Some (attribute_xpath tag_name attr attr_value)
        | None =>
            (* 4, then 5 *)
            let positional := Some (absolute_path doc element) in
            match find_closest_clean_identifier doc element with
            | Some ancestor =>
                match self ancestor with
                | Some (c :: rest) =>
                    Some ((c :: rest) ++ generate_relative_path doc ancestor element)
                | _ => positional
                end
            | None => positional
            end
        end.

(** [generate_xpath(element)]; [fuel] bounds the depth of the recursive
    call ([generate_xpath_fuel] below: two levels are always enough). *)
Fixpoint generate_xpath_rec (fuel : nat) (doc : Element) (element : Element) : option str :=
  match fuel with
  | O => None
  | S fuel' => generate_xpath_body (generate_xpath_rec fuel' doc) doc element
  end.

Definition generate_xpath (doc : Element) (element : Element) : option str :=
  generate_xpath_rec (S (List.length (ancestors doc element))) doc element.

End Locator.

(* ===================================================================== *)
(** ** List-container variant *)
(* ===================================================================== *)

(** [a / b] and the comparisons with [0.4] and the length thresholds are
    binary64 operations in the source. *)
Definition float_gt (a b : float) : bool := PrimFloat.ltb b a.

Definition sum_Z {A : Type} (f : A -> Z) (l : list A) : Z :=
  fold_left (fun acc x => acc + f x) l 0.

(** The elements a loop [while current is not None and depth < n] visits,
    with [depth]. *)
Definition chain_with_depth (doc : Element) (start : Element) (n : nat)
  : list (Z * Element) :=
  let chain := firstn n (start :: ancestors doc start) in
  combine (map Z.of_nat (seq 0 (List.length chain))) chain.

Section ListVariant.
Context {UD : UnicodeData}.

(** [.//li | .//tr | .//article | .//div[contains(@class, 'item')]] *)
Definition is_list_item (e : Element) : bool :=
  tag_in (words ["li"; "tr"; "article"]%string) e
  || tag_is (U "div") e && attr_contains (U "class") (U "item") e.

(** [count_list_items(element)] *)
Definition count_list_items (element : Element) : Z :=
  count_of (xpath_desc is_list_item element).

Definition list_header_content_keywords : list str :=
  words ["登录"; "注册"; "首页"; "主页"; "无障碍"; "政务"; "办事"; "互动";
         "走进"; "移动版"; "手机版"; "导航"; "菜单"; "搜索"; "市政府";
         "长者模式"; "微信"; "ipv6"; "信息公开";
         "login"; "register"; "home"; "menu"; "search"; "nav"]%string.

Definition footer_structure_indicators : list str :=
  words ["footer"; "foot"; "bottom"; "end"; "copyright"; "links"; "sitemap"]%string.

Definition header_structure_indicators : list str :=
  words ["header"; "nav"; "navigation"; "menu"; "topbar"; "banner"; "menubar"]%string.

(** [precise_time_patterns] *)
Definition precise_time_patterns : list Re.regex :=
  [ Re.Seqs [Re.Rep 4 4 digit; Re.Lit (U "-"); Re.Rep 2 2 digit;
             Re.Lit (U "-"); Re.Rep 2 2 digit];
    Re.Seqs [Re.Rep 4 4 digit; Re.Lit (U "年"); Re.Rep 1 2 digit;
             Re.Lit (U "月"); Re.Rep 1 2 digit; Re.Lit (U "日")];
    Re.Seqs [Re.Rep 4 4 digit; Re.Lit (U "/"); Re.Rep 1 2 digit;
             Re.Lit (U "/"); Re.Rep 1 2 digit];
    Re.Lit (U "发布时间"); Re.Lit (U "更新日期"); Re.Lit (U "发布日期");
    Re.Lit (U "创建时间") ].

Definition strong_nav_words : list str := header_content_keywords.

(** [calculate_container_score(container)], the scorer local to
    [find_list_container]. *)
Definition calculate_container_score (doc : Element) (container : Element) : Z :=
  let score := 0 in
  let classes := lower (get container (U "class") []) in
  let elem_id := lower (get container (U "id") []) in
  let role := lower (get container (U "role") []) in
  let tag_name := lower (tag container) in
  let content := lower (text_content container) in
  (* 1, 2 *)
  let header_content_count := keyword_hits list_header_content_keywords content in
  let score := if 2 <=? header_content_count then score - 300 else score in
  let footer_content_count := keyword_hits footer_content_keywords content in
  let score := if 2 <=? footer_content_count then score - 300 else score in
  (* 3 *)
  let score :=
    score - sum_Z (fun indicator =>
                     if str_in indicator classes || str_in indicator elem_id
                        || str_in indicator role || str_eqb tag_name (U "footer")
                     then 250 else 0) footer_structure_indicators in
  (* 4 *)
  let score :=
    score - sum_Z (fun indicator =>
                     if str_in indicator classes || str_in indicator elem_id
                        || str_in indicator role
                        || str_mem tag_name (words ["header"; "nav"; "menu"]%string)
                     then 200 else 0) header_structure_indicators in
  (* 5 *)
  let score :=
    score - sum_Z (fun dc =>
                     let depth := fst dc in
                     let current := snd dc in
                     let parent_classes := lower (get current (U "class") []) in
                     let parent_id := lower (get current (U "id") []) in
                     let parent_tag := lower (tag current) in
                     sum_Z (fun indicator =>
                              if str_in indicator parent_classes
                                 || str_in indicator parent_id
                                 || str_eqb parent_tag (U "footer")
                              then Z.max (60 - depth * 10) 15 else 0)
                           footer_structure_indicators
                     + sum_Z (fun indicator =>
                                if str_in indicator parent_classes
                                   || str_in indicator parent_id
                                   || str_mem parent_tag (words ["header"; "nav"]%string)
                                then Z.max (50 - depth * 8) 12 else 0)
                             header_structure_indicators)
                  (chain_with_depth doc container 5) in
  if score <? -150 then score
  else
    (* 6 *)
    let precise_matches :=
      sum_Z (fun pattern => Z.of_nat (Re.findall_len false pattern content))
            precise_time_patterns in
    let score :=
      if 0 <? precise_matches then score + Z.min (precise_matches * 30) 90 else score in
    (* 7 *)
    let items := xpath_desc is_list_item container in
    let score :=
      match items with
      | [] => score
      | _ :: _ =>
          let total_length := sum_Z text_length items in
          let avg_length :=
            PrimFloat.div (float_of_len total_length) (float_of_len (count_of items)) in
          if float_gt avg_length 150 then score + 40
          else if float_gt avg_length 80 then score + 30
          else if float_gt avg_length 40 then score + 20
          else if PrimFloat.ltb avg_length 20 then score - 20
          else score
      end in
    (* 8 *)
    let positive_score :=
      sum_Z (fun indicator =>
               if str_in indicator classes || str_in indicator elem_id then 25 else 0)
            (words ["content"; "main"; "news"; "article"; "data"; "info"; "detail";
                    "result"; "list"]%string) in
    let score := score + Z.min positive_score 75 in
    (* 9 *)
    let images := xpath_desc (tag_is (U "img")) container in
    let links :=
      xpath_desc (fun e => tag_is (U "a") e
                           && match get_opt e (U "href") with Some _ => true | None => false end)
                 container in
    let score :=
      if 0 <? count_of images then score + Z.min (count_of images * 3) 20 else score in
    let score :=
      if 5 <? count_of links then score + Z.min (count_of links * 2) 30 else score in
    (* 10 *)
    if 2 <? count_of items then
      let nav_word_count :=
        count_of (filter (fun item =>
                            let item_text := lower (strip (text_content item)) in
                            existsb (fun nav_word => str_in nav_word item_text)
                                    strong_nav_words)
                         (firstn 8 items)) in
      let checked_items := Z.min (count_of items) 8 in
      if float_gt (float_of_len nav_word_count)
                  (PrimFloat.mul (float_of_len checked_items) 0x1.999999999999ap-2%float)
      then score - 30 else score
    else score.

(** The final check of [find_list_container] on the container the upward
    walk ended with:
<<
    if final_items < 4 or final_score < -10:
        parent = current_container.getparent()
        if parent is not None and parent.tag != 'html':
            ...
            if (parent_items > final_items and parent_score > 0
                and parent_items <= 30):
                current_container = parent
    return current_container
>> *)
Definition final_validation (doc : Element) (current_container : Element) : Element :=
  let final_items := count_list_items current_container in
  let final_score := calculate_container_score doc current_container in
  if (final_items <? 4) || (final_score <? -10) then
    match getparent doc current_container with
    | Some parent =>
        if negb (tag_is (U "html") parent) then
          let parent_items := count_list_items parent in
          let parent_score := calculate_container_score doc parent in
          if (final_items <? parent_items) && (0 <? parent_score)
             && (parent_items <=? 30)
          then parent else current_container
        else current_container
    | None => current_container
    end
  else current_container.

End ListVariant.

Section ListSearch.
Context {UD : UnicodeData}.

Definition has_ancestor (doc : Element) (test : Element -> bool) (e : Element) : bool :=
  existsb test (ancestors doc e).

(** [list_selectors], each as a test on the elements of the document. *)
Definition list_selectors (doc : Element) : list (Element -> bool) :=
  let class_has part e := attr_contains (U "class") (U part) e in
  let under t e := has_ancestor doc (tag_is (U t)) e in
  [ tag_is (U "li"); tag_is (U "tr"); tag_is (U "article");
    (fun e => tag_is (U "div") e && class_has "item"%string e);
    (fun e => tag_is (U "div") e && class_has "list"%string e);
    (fun e => tag_is (U "li") e && under "ul"%string e);
    (fun e => tag_is (U "li") e && under "ol"%string e);
    (fun e => tag_is (U "tr") e && under "table"%string e);
    (fun e => tag_is (U "ul") e && class_has "item"%string e && under "section"%string e);
    (fun e => tag_is (U "ul") e && class_has "list"%string e && under "section"%string e);
    (fun e => tag_is (U "div") e && class_has "list"%string e && under "section"%string e);
    (fun e => tag_is (U "div") e && class_has "item"%string e && under "section"%string e) ].

(** [parent_counts[parent] += 1] on the insertion-ordered dictionary keyed
    by element identity. *)
Fixpoint bump (parent : Element) (counts : list (Element * Z)) : list (Element * Z) :=
  match counts with
  | [] => [(parent, 1)]
  | (p, n) :: rest =>
      if same_element p parent then (p, n + 1) :: rest
      else (p, n) :: bump parent rest
  end.

(** [max(items, key=lambda x: x[1])]: the first entry with the largest
    count. *)
Fixpoint first_max (best : Element * Z) (rest : list (Element * Z)) : Element * Z :=
  match rest with
  | [] => best
  | x :: rest' => first_max (if snd best <? snd x then x else best) rest'
  end.

(** [is_in_footer_area(element)[0]] *)
Definition is_in_footer_area (doc : Element) (element : Element) : bool :=
  existsb
    (fun current =>
       let classes := lower (get current (U "class") []) in
       let elem_id := lower (get current (U "id") []) in
       let tag_name := lower (tag current) in
       existsb (fun indicator =>
                  str_in indicator classes || str_in indicator elem_id
                  || str_eqb tag_name (U "footer"))
               (words ["footer"; "bottom"; "foot"; "end"; "copyright";
                       "links"; "sitemap"; "contact"; "about"]%string)
       || (let style := lower (get current (U "style") []) in
           str_in (U "bottom") style || str_in (U "fixed") style))
    (firstn 10 (element :: ancestors doc element)).

(** [check_negative_ancestry(element)] *)
Definition check_negative_ancestry (doc : Element) (element : Element) : Z :=
  sum_Z
    (fun dc =>
       let depth := fst dc in
       let current := snd dc in
       let classes := lower (get current (U "class") []) in
       let elem_id := lower (get current (U "id") []) in
       let content := lower (text_content current) in
       sum_Z (fun keyword =>
                if str_in keyword classes || str_in keyword elem_id then 20 else 0)
             (words ["nav"; "menu"; "sidebar"; "header"; "topbar"; "navigation";
                     "head"]%string)
       + (if depth <? 2 then
            let content_penalty :=
              sum_Z (fun keyword => if str_in keyword content then 15 else 0)
                    (words ["网站说明"; "网站标识码"; "版权所有"; "备案号"]%string
                     ++ words ["登录"; "注册"; "首页"; "无障碍"]%string) in
            if 30 <? content_penalty then content_penalty else 0
          else 0))
    (chain_with_depth doc element 4).

(** [has_negative_ancestor(element)] *)
Definition has_negative_ancestor (doc : Element) (element : Element) : bool :=
  existsb
    (fun dc =>
       let depth := fst dc in
       let current := snd dc in
       let parent_classes := lower (get current (U "class") []) in
       let parent_id := lower (get current (U "id") []) in
       let parent_tag := lower (tag current) in
       let parent_text := lower (text_content current) in
       existsb (fun keyword =>
                  str_in keyword parent_classes || str_in keyword parent_id
                  || str_mem parent_tag (words ["footer"; "header"; "nav"]%string))
               (words ["footer"; "nav"; "menu"; "sidebar"; "header"; "topbar";
                       "navigation"; "foot"; "head"]%string)
       || (depth <? 2)
          && ((2 <=? keyword_hits
                       (words ["登录"; "注册"; "首页"; "主页"; "无障碍"; "政务";
                               "办事"; "互动"; "走进"]%string) parent_text)
              || (2 <=? keyword_hits
                          (words ["网站说明"; "网站标识码"; "版权所有"; "备案号";
                                  "icp"; "主办单位"; "承办单位"]%string) parent_text)))
    (chain_with_depth doc element 3).

(** The upward walk of [find_list_container]; [parents] is the chain of
    [getparent()] above [current_container]. *)
Fixpoint promote (doc : Element) (current_container : Element) (max_items : Z)
         (parents : list Element) : Element :=
  match parents with
  | [] => current_container
  | parent :: rest =>
      if tag_is (U "html") parent then current_container
      else if has_negative_ancestor doc parent then current_container
      else
        let parent_items := count_list_items parent in
        let parent_score := calculate_container_score doc parent in
        let current_score := calculate_container_score doc current_container in
        let should_upgrade :=
          if parent_score <? -50 then false
          else if (current_score + 15 <? parent_score) && (10 <? parent_score) then true
          else if (current_score - 3 <=? parent_score) && (5 <? parent_score)
                  && (parent_items <=? max_items * 2) && (max_items <=? parent_items)
               then true
          else if (max_items <? 4) && (max_items <=? parent_items)
                  && (parent_items <=? 15) && (0 <? parent_score)
               then true
          else false in
        if should_upgrade then
          if 50 <? parent_items then parent
          else promote doc parent parent_items rest
        else current_container
  end.

(** The part of [find_list_container] after the article search. *)
Definition list_container_search (doc : Element) : option Element :=
  let all_items := flat_map (fun selector => xpath_abs selector doc) (list_selectors doc) in
  match all_items with
  | [] => None
  | _ :: _ =>
      let parent_counts :=
        fold_left (fun counts item =>
                     match getparent doc item with
                     | Some parent => bump parent counts
                     | None => counts
                     end) all_items [] in
      match parent_counts with
      | [] => None
      | first_entry :: other_entries =>
          let at_least n := filter (fun pc => n <=? snd pc) parent_counts in
          let candidate_containers :=
            match at_least 3 with
            | [] => at_least 2
            | l => l
            end in
          match candidate_containers with
          | [] => Some (fst (first_max first_entry other_entries))
          | _ :: _ =>
              let scored_containers :=
                sort_desc snd
                  (map (fun cc =>
                          let container := fst cc in
                          let score := calculate_container_score doc container in
                          let ancestry_penalty :=
                            (if is_in_footer_area doc container then 50 else 0)
                            + check_negative_ancestry doc container in
                          (container, score - ancestry_penalty))
                       candidate_containers) in
              let pick l := match l with x :: _ => Some (fst x) | [] => None end in
              let best :=
                match filter (fun sc => 0 <? snd sc) scored_containers with
                | x :: _ => Some (fst x)
                | [] =>
                    match filter (fun sc => -50 <? snd sc) scored_containers with
                    | x :: _ => Some (fst x)
                    | [] => pick scored_containers
                    end
                end in
              match best with
              | Some best_container =>
                  let max_items :=
                    match find (fun pc => same_element (fst pc) best_container)
                               parent_counts with
                    | Some pc => snd pc
                    | None => 0
                    end in
                  let current_container :=
                    promote doc best_container max_items (ancestors doc best_container) in
                  Some (final_validation doc current_container)
              | None => None
              end
          end
      end
  end.

(** [find_list_container(page_tree)] *)
Definition find_list_container (parsed : Parsed) : exc (option Element) :=
  article_container <- find_article_container parsed ;;
  match Some article_container with
  | Some found => Ok (Some found)
  | None =>
      Ok (list_container_search
            (document (preprocess_html_remove_interference parsed)))
  end.

End ListSearch.

(* ===================================================================== *)
(** ** Extraction entry point *)
(* ===================================================================== *)

(** [s.split('\n')] *)
Fixpoint split_lines_aux (s : str) (cur : str) : list str :=
  match s with
  | [] => [rev cur]
  | c :: s' =>
      if (c =? 10)%N then rev cur :: split_lines_aux s' []
      else split_lines_aux s' (c :: cur)
  end.

Definition split_lines (s : str) : list str := split_lines_aux s [].

Fixpoint drop_empty_front (l : list str) : list str :=
  match l with
  | [] :: l' => drop_empty_front l'
  | _ => l
  end.

Section Markdown.
Context {UD : UnicodeData}.

(** [clean_markdown_content(markdown_content)] *)
Definition clean_markdown_content (markdown_content : str) : str :=
  (* re.sub(r'\n\s*\n\s*\n', '\n\n', markdown_content) *)
  let markdown_content :=
    Re.sub false
      (Re.Seqs [Re.Lit [10%N]; Re.Star isspace; Re.Lit [10%N];
                Re.Star isspace; Re.Lit [10%N]])
      [10%N; 10%N] markdown_content in
  let lines := map strip (split_lines markdown_content) in
  let cleaned_lines :=
    fst (fold_left
           (fun acc line =>
              let '(cleaned, prev_empty) := acc in
              match strip line with
              | _ :: _ => (cleaned ++ [line], false)
              | [] => if negb prev_empty then (cleaned ++ [[]], true)
                      else (cleaned, prev_empty)
              end)
           lines ([], false)) in
  let cleaned_lines := drop_empty_front cleaned_lines in
  let cleaned_lines := rev (drop_empty_front (rev cleaned_lines)) in
  join [10%N] cleaned_lines.

End Markdown.

(** The process-wide logger is the only state the module keeps between
    calls.  A record is a level and a message; the entry point's own
    records are modelled, the progress messages of the helpers, which are
    written and never read, are not. *)
Inductive level : Type := INFO | ERROR.
Definition Log := list (level * str).

(** A computation of the entry point: it may raise, and it appends to the
    log whether it raises or not. *)
Definition Run (A : Type) : Type := Log -> exc A * Log.

Definition run_ret {A : Type} (a : A) : Run A := fun log => (Ok a, log).

Definition run_bind {A B : Type} (m : Run A) (f : A -> Run B) : Run B :=
  fun log =>
    match m log with
    | (Ok a, log') => f a log'
    | (Raise e, log') => (Raise e, log')
    end.

Definition run_lift {A : Type} (m : exc A) : Run A := fun log => (m, log).

Definition logger (lv : level) (message : str) : Run unit :=
  fun log => (Ok tt, log ++ [(lv, message)]).

Notation "x <~ m ;; k" := (run_bind m (fun x => k))
  (at level 61, m at next level, right associativity).

(** The libraries the entry point calls: the parser ([html.fromstring]),
    the serialiser ([html.tostring] with [encoding='unicode'] and
    [pretty_print=True]), the BeautifulSoup pass of [clean_container_html]
    that drops scripts, styles and script-bearing attributes, and
    [markdownify.markdownify] with ATX headings and [-] bullets.  Each is a
    function of its argument that returns or raises. *)
Class Collaborators := {
  fromstring : str -> exc Parsed;
  tostring : Element -> exc str;
  clean_container_html : str -> exc str;
  markdownify : str -> exc str
}.

(** The dictionary [extract_content_to_markdown] returns.  [xpath] holds
    what [generate_xpath] returned, which Python allows to be [None]. *)
Record Extraction := {
  markdown_content : str;
  xpath : option str;
  status : str
}.

Definition failed : Extraction :=
  {| markdown_content := []; xpath := Some []; status := U "failed" |}.

(** [str(e)] *)
Definition str_of_exn (e : exn) : str :=
  match e with
  | StopIteration => []
  | ExternalError message => message
  end.

(** How an optional string prints inside an f-string. *)
Definition fmt_opt (s : option str) : str :=
  match s with
  | Some v => v
  | None => U "None"
  end.

Section Entry.
Context {UD : UnicodeData} {CO : Collaborators}.

(** The [try] block of [extract_content_to_markdown]. *)
Definition extract_body (html_content : str) : Run Extraction :=
  tree <~ run_lift (fromstring html_content) ;;
  main_container <~ run_lift (find_article_container tree) ;;
  if negb (truthy main_container) then
    _ <~ logger ERROR (U "未找到主内容容器") ;;
    run_ret failed
  else
    let cleaned := preprocess_html_remove_interference tree in
    let xpath_value := generate_xpath (document cleaned) main_container in
    container_html <~ run_lift (tostring main_container) ;;
    cleaned_container_html <~ run_lift (clean_container_html container_html) ;;
    markdown <~ run_lift (markdownify cleaned_container_html) ;;
    let markdown := clean_markdown_content markdown in
    _ <~ logger INFO (U "成功提取内容，XPath: " ++ fmt_opt xpath_value) ;;
    _ <~ logger INFO (U "Markdown内容长度: "
                        ++ str_of_nat (List.length markdown)) ;;
    run_ret {| markdown_content := markdown;
               xpath := xpath_value;
               status := U "success" |}.

(** [extract_content_to_markdown(html_content)]: the [try] block under
    [except Exception], which logs the fault and answers [failed]. *)
Definition extract_content_to_markdown (html_content : str) : Log -> Extraction * Log :=
  fun log =>
    match extract_body html_content log with
    | (Ok result, log') => (result, log')
    | (Raise e, log') =>
        (failed, log' ++ [(ERROR, U "提取内容时出错: " ++ str_of_exn e)])
    end.

End Entry.

(* ===================================================================== *)
(** ** Density and positional cleaning *)
(* ===================================================================== *)

Section Density.
Context {UD : UnicodeData}.

(** [calculate_text_density(element)].  The value is a binary64 number
    ([image_count * 0.5] makes the denominator one); [max(1, d)] keeps [1]
    unless [d > 1]. *)
Definition calculate_text_density (element : Element) : float :=
  let text_length := len (strip (text_content element)) in
  if text_length =? 0 then 0%float
  else
    let tag_count := count_of (xpath_desc is_element element) in
    let link_count := count_of (xpath_desc (tag_is (U "a")) element) in
    let image_count := count_of (xpath_desc (tag_is (U "img")) element) in
    let weighted :=
      PrimFloat.add (float_of_len (tag_count + link_count * 2))
                    (PrimFloat.mul (float_of_len image_count) 0x1p-1%float) in
    let denominator :=
      if PrimFloat.ltb 1%float weighted then weighted else 1%float in
    PrimFloat.div (float_of_len text_length) denominator.

Definition important_indicators : list str :=
  words ["content"; "main"; "article"; "detail"; "news"; "info";
         "bg-fff"; "bg-white"; "wrapper"; "body"]%string.

(** [any(indicator in classes or indicator in elem_id for ...)] *)
Definition has_important_content (container : Element) : bool :=
  let classes := lower (get container (U "class") []) in
  let elem_id := lower (get container (U "id") []) in
  existsb (fun indicator => str_in indicator classes || str_in indicator elem_id)
          important_indicators.

(** What [text()] is worth inside [contains(text(), ...)]: the first text
    node among the children of the element, which are its own text and the
    tails of its child nodes, in that order. *)
Definition first_text_node (e : Element) : str :=
  match filter (fun t => negb (str_eqb t [])) (text e :: map tail (children e)) with
  | t :: _ => t
  | [] => []
  end.

(** The test [[contains(text(), '发布时间') or contains(text(), '来源')
    or contains(text(), '浏览次数')]]. *)
Definition mentions_article_metadata (e : Element) : bool :=
  is_element e
  && (str_in (U "发布时间") (first_text_node e)
      || str_in (U "来源") (first_text_node e)
      || str_in (U "浏览次数") (first_text_node e)).

Definition has_article_features (container : Element) : bool :=
  match xpath_desc (tag_in (words ["h1"; "h2"; "h3"]%string)) container with
  | _ :: _ => true
  | [] =>
      match xpath_desc mentions_article_metadata container with
      | _ :: _ => true
      | [] => 3 <? count_of (xpath_desc (tag_is (U "p")) container)
      end
  end.

(** The three conditions under which [remove_low_density_containers] sets
    [is_low_quality]; [0x1.3333333333333p-2] and [0x1.999999999999ap-1] are
    the doubles written [0.3] and [0.8]. *)
Definition is_low_quality (container : Element) : bool :=
  let density := calculate_text_density container in
  let text_length := len (strip (text_content container)) in
  let links := xpath_desc (tag_is (U "a")) container in
  let all_tags := xpath_desc is_element container in
  let link_ratio :=
    PrimFloat.div (float_of_len (count_of links))
                  (float_of_len (Z.max 1 (count_of all_tags))) in
  if PrimFloat.ltb density 5%float && float_gt link_ratio 0x1.3333333333333p-2%float
  then true
  else if (text_length <? 200) && (20 <? count_of all_tags) then true
  else
    match links with
    | _ :: _ =>
        if text_length <? 500 then
          let link_text_length := sum_Z (fun link => len (text_content link)) links in
          (0 <? text_length)
          && float_gt (PrimFloat.div (float_of_len link_text_length)
                                     (float_of_len text_length))
                      0x1.999999999999ap-1%float
        else false
    | [] => false
    end.

(** The containers the first loop of [remove_low_density_containers] puts
    in [containers_to_remove]. *)
Definition low_density_containers (body : Element) : list Element :=
  let top_level_containers :=
    xpath_child (tag_in (words ["div"; "section"; "main"; "article"; "header";
                                "footer"; "nav"; "aside"]%string)) body in
  filter (fun container =>
            if has_important_content container || has_article_features container
            then false
            else is_low_quality container)
         top_level_containers.

(** [remove_low_density_containers(body)] *)
Definition remove_low_density_containers (p : Page) : Page :=
  fst (remove_each (fun _ => true) (low_density_containers (body p)) (p, 0)).

Definition positional_header_indicators : list str :=
  words ["登录"; "注册"; "首页"; "主页"; "导航"; "菜单"; "搜索";
         "政务服务"; "办事服务"; "互动交流"; "走进"; "无障碍";
         "login"; "register"; "home"; "menu"; "search"; "nav"]%string.

Definition positional_footer_indicators : list str :=
  words ["版权所有"; "主办单位"; "承办单位"; "技术支持"; "联系我们";
         "网站地图"; "隐私政策"; "免责声明"; "备案号"; "icp";
         "网站标识码"; "政府网站"; "网站管理";
         "copyright"; "all rights reserved"; "powered by"]%string.

(** [is_positional_header(container)] *)
Definition is_positional_header (container : Element) : bool :=
  let text_content := lower (text_content container) in
  let header_count := keyword_hits positional_header_indicators text_content in
  let density := calculate_text_density container in
  (3 <=? header_count) || PrimFloat.ltb density 8%float && (2 <=? header_count).

(** [is_positional_footer(container)] *)
Definition is_positional_footer (container : Element) : bool :=
  let text_content := lower (text_content container) in
  let footer_count := keyword_hits positional_footer_indicators text_content in
  let density := calculate_text_density container in
  (2 <=? footer_count) || PrimFloat.ltb density 6%float && (1 <=? footer_count).

(** The containers [remove_positional_interference] marks: the first and
    the last of the direct children it looks at, when there are more than
    two of them. *)
Definition positional_containers (body : Element) : list Element :=
  let direct_children :=
    xpath_child (tag_in (words ["div"; "section"; "main"; "article"]%string)) body in
  if count_of direct_children <=? 2 then []
  else
    match direct_children with
    | [] => []
    | first_container :: rest =>
        let last_container := last rest first_container in
        (if is_positional_header first_container then [first_container] else [])
        ++ (if negb (same_element last_container first_container)
               && is_positional_footer last_container
            then [last_container] else [])
    end.

(** [remove_positional_interference(body)] *)
Definition remove_positional_interference (p : Page) : Page :=
  fst (remove_each (fun _ => true) (positional_containers (body p)) (p, 0)).

(** [is_interference_container(container)]; [0x1.6666666666666p-1] is the
    double written [0.7]. *)
Definition is_interference_container (container : Element) : bool :=
  let classes := lower (get container (U "class") []) in
  let elem_id := lower (get container (U "id") []) in
  let tag_name := lower (tag container) in
  let content := lower (text_content container) in
  (* 1 *)
  if str_mem tag_name (words ["header"; "footer"; "nav"; "aside"]%string) then true
  (* 2 *)
  else if existsb (fun keyword => str_in keyword classes || str_in keyword elem_id)
                  (words ["header"; "footer"; "nav"; "navigation"; "menu"; "menubar";
                          "topbar"; "bottom"; "sidebar"; "aside"; "banner";
                          "breadcrumb"]%string)
  then true
  else
    (* 3 *)
    let density := calculate_text_density container in
    let text_length := len (strip content) in
    if PrimFloat.ltb density 3%float && (text_length <? 300) then true
    else
      (* 4 *)
      let links := xpath_desc (tag_is (U "a")) container in
      let link_text_length := sum_Z (fun link => len (text_content link)) links in
      if (5 <? count_of links) && (0 <? text_length)
         && float_gt (PrimFloat.div (float_of_len link_text_length)
                                    (float_of_len text_length))
                     0x1.6666666666666p-1%float
      then true
      else
        (* 5 *)
        let header_matches :=
          keyword_hits
            (words ["登录"; "注册"; "首页"; "主页"; "无障碍"; "政务服务"; "办事服务";
                    "互动交流"; "走进"; "移动版"; "手机版"; "导航"; "菜单"; "搜索";
                    "login"; "register"; "home"; "menu"; "search"; "nav"]%string)
            content in
        let footer_matches :=
          keyword_hits
            (words ["网站说明"; "网站标识码"; "版权所有"; "主办单位"; "承办单位";
                    "技术支持"; "联系我们"; "网站地图"; "隐私政策"; "免责声明";
                    "备案号"; "icp"; "公安备案"; "政府网站"; "网站管理";
                    "copyright"; "all rights reserved"; "powered by"]%string)
            content in
        if 2 <=? header_matches then true
        else if 2 <=? footer_matches then true
        (* 6 *)
        else if (text_length <? 200) && (2 <=? header_matches + footer_matches) then true
        else
          (* 7 *)
          let ad_matches :=
            count_of (filter (fun keyword =>
                                str_in keyword content || str_in keyword classes)
                             (words ["advertisement"; "ads"; "social"; "share"; "follow";
                                     "subscribe"]%string)) in
          2 <=? ad_matches.

End Density.

(* ===================================================================== *)
(** ** Container search by traceback *)
(* ===================================================================== *)

Section Traceback.
Context {UD : UnicodeData}.

Definition top_level_tags : list str :=
  words ["html"; "head"; "body"; "script"; "meta"]%string.

(** The [while] loop of [find_footer_container_by_traceback] over
    [current :: ancestors]: the value it returns from inside, if any. *)
Fixpoint footer_traceback (chain : list Element) : option Element :=
  match chain with
  | [] => None
  | current :: rest =>
      let classes := lower (get current (U "class") []) in
      let elem_id := lower (get current (U "id") []) in
      if tag_in (words ["div"; "section"; "footer"]%string) current
         && existsb (fun indicator => str_in indicator classes || str_in indicator elem_id)
                    (words ["footer"; "foot"; "bottom"; "end"; "copyright"]%string)
      then Some current
      else
        match rest with
        | [] => None
        | parent :: _ =>
            if tag_in top_level_tags parent then None else footer_traceback rest
        end
  end.

(** [find_footer_container_by_traceback(element)] *)
Definition find_footer_container_by_traceback (doc : Element) (element : Element)
  : option Element :=
  footer_traceback (element :: ancestors doc element).

Definition header_structure_words : list str :=
  words ["header"; "nav"; "navigation"; "menu"; "topbar"; "banner"; "menubar";
         "head"]%string.

Definition footer_structure_words : list str :=
  words ["footer"; "foot"; "bottom"; "end"; "copyright"; "links"; "sitemap";
         "contact"]%string.

(** The [while] loop of [find_header_footer_container]. *)
Fixpoint header_footer_traceback (chain : list Element) : option Element :=
  match chain with
  | [] => None
  | current :: rest =>
      if tag_is (U "html") current then None
      else
        let classes := lower (get current (U "class") []) in
        let elem_id := lower (get current (U "id") []) in
        let tag_name := lower (tag current) in
        if tag_in (words ["div"; "section"; "header"; "footer"; "nav"; "aside"]%string)
                  current
           && existsb (fun indicator =>
                         str_in indicator classes || str_in indicator elem_id
                         || str_in indicator tag_name)
                      (header_structure_words ++ footer_structure_words)
        then Some current
        else
          match rest with
          | [] => None
          | parent :: _ =>
              if tag_in top_level_tags parent then None
              else header_footer_traceback rest
          end
  end.

(** The keyword tables local to [find_header_footer_container]: the
    Chinese parts of the module's vocabularies. *)
Definition traceback_header_keywords : list str :=
  words ["登录"; "注册"; "首页"; "主页"; "无障碍"; "政务"; "办事"; "互动";
         "走进"; "移动版"; "手机版"; "导航"; "菜单"; "搜索"; "市政府"]%string.

Definition traceback_footer_keywords : list str :=
  words ["网站说明"; "网站标识码"; "版权所有"; "主办单位"; "承办单位";
         "技术支持"; "联系我们"; "网站地图"; "隐私政策"; "免责声明";
         "备案号"; "icp"; "公安备案"; "政府网站"; "网站管理"]%string.

(** [find_header_footer_container(element)].  [element.getparent() and ...]
    tests the truth value of the parent, which is whether it has
    children. *)
Definition find_header_footer_container (doc : Element) (element : Element)
  : option Element :=
  match header_footer_traceback (element :: ancestors doc element) with
  | Some container => Some container
  | None =>
      let wrapped :=
        match ancestors doc element with
        | div_element :: grandparent :: _ =>
            if truthy div_element && tag_is (U "div") div_element
               && truthy grandparent
               && tag_in (words ["body"; "html"]%string) grandparent
            then
              let div_text := lower (text_content div_element) in
              let header_count := keyword_hits traceback_header_keywords div_text in
              let footer_count := keyword_hits traceback_footer_keywords div_text in
              if (2 <=? header_count) || (2 <=? footer_count)
              then Some div_element else None
            else None
        | _ => None
        end in
      match wrapped with
      | Some div_element => Some div_element
      | None =>
          match ancestors doc element with
          | parent :: _ =>
              if truthy parent && negb (tag_is (U "html") parent)
              then Some parent else None
          | [] => None
          end
      end
  end.

End Traceback.

(* ===================================================================== *)
(** ** Header and footer exclusion *)
(* ===================================================================== *)

(** A Python value, or the [IndexError] of [l[0]] on an empty list. *)
Inductive indexing (A : Type) : Type :=
| Item (a : A)
| IndexError.
Arguments Item {A} a.
Arguments IndexError {A}.

Section Exclusion.
Context {UD : UnicodeData}.

(** [is_page_level_header_footer(element)] *)
Definition is_page_level_header_footer (doc : Element) (element : Element) : bool :=
  let classes := lower (get element (U "class") []) in
  let elem_id := lower (get element (U "id") []) in
  let tag_name := lower (tag element) in
  if str_mem tag_name (words ["header"; "footer"; "nav"]%string) then true
  else if is_in_footer_area doc element then true
  else if existsb (fun keyword => str_in keyword classes || str_in keyword elem_id)
                  (words ["header"; "footer"; "nav"; "menu"; "topbar"; "bottom";
                          "top"]%string)
  then true
  else
    let role := lower (get element (U "role") []) in
    str_mem role (words ["banner"; "navigation"; "contentinfo"]%string).

(** [calculate_content_richness(container)] *)
Definition calculate_content_richness (container : Element) : Z :=
  let score := 0 in
  let content_length := len (strip (text_content container)) in
  if content_length <=? 100 then -5
  else
    let score :=
      if 1000 <? content_length then score + 40
      else if 500 <? content_length then score + 30
      else if 200 <? content_length then score + 20
      else score + 10 in
    let images := xpath_desc (tag_is (U "img")) container in
    let score :=
      if 0 <? count_of images then score + Z.min (count_of images * 3) 20
      else score in
    let structured_elements :=
      xpath_desc (fun e => tag_is (U "p") e
                           || tag_is (U "div") e && attr_contains (U "style") (U "text-align") e
                           || tag_in (words ["h1"; "h2"; "h3"]%string) e)
                 container in
    if 0 <? count_of structured_elements
    then score + Z.min (count_of structured_elements * 2) 25
    else score.

(** [find_middle_content(valid_children)]; [None] is Python's [None]. *)
Definition find_middle_content (valid_children : list Element) : option Element :=
  match valid_children with
  | [] => None
  | [only] => Some only
  | first_child :: _ =>
      let scored_containers :=
        sort_desc snd (map (fun container =>
                              (container, calculate_content_richness container))
                           valid_children) in
      Some (fst (hd (first_child, 0) scored_containers))
  end.

(** [exclude_page_header_footer(body)] *)
Definition exclude_page_header_footer (doc : Element) (body : Element) : option Element :=
  let children :=
    xpath_child (tag_in (words ["div"; "main"; "section"; "article"]%string)) body in
  match children with
  | [] => Some body
  | _ :: _ =>
      find_middle_content
        (filter (fun child => negb (is_page_level_header_footer doc child)) children)
  end.

(** [is_local_header_footer(element)] *)
Definition is_local_header_footer (element : Element) : bool :=
  let classes := lower (get element (U "class") []) in
  let elem_id := lower (get element (U "id") []) in
  existsb (fun keyword =>
             (str_in keyword classes || str_in keyword elem_id)
             && (len (strip (text_content element)) <? 200))
          (words ["title"; "tit"; "head"; "foot"; "top"; "bottom"; "nav";
                  "menu"]%string).

(** [calculate_final_score(container)] *)
Definition calculate_final_score (container : Element) : Z :=
  let score := 0 in
  let content_length := len (strip (text_content container)) in
  let score :=
    if 500 <? content_length then score + 30
    else if 200 <? content_length then score + 20
    else if 100 <? content_length then score + 15
    else score + 5 in
  let images := xpath_desc (tag_is (U "img")) container in
  let score :=
    if 0 <? count_of images then score + Z.min (count_of images * 4) 25
    else score in
  let styled_divs :=
    xpath_desc (fun e => tag_is (U "div") e
                         && attr_contains (U "style") (U "text-align") e) container in
  let paragraphs := xpath_desc (tag_is (U "p")) container in
  let structure_count := count_of styled_divs + count_of paragraphs in
  let score :=
    if 0 <? structure_count then score + Z.min (structure_count * 2) 20
    else score in
  let classes := lower (get container (U "class") []) in
  let elem_id := lower (get container (U "id") []) in
  fold_left
    (fun score keyword =>
       if str_in keyword classes || str_in keyword elem_id then score + 15 else score)
    (words ["content"; "article"; "detail"; "main"; "body"; "text"; "editor";
            "con"]%string)
    score.

(** [select_content_container(valid_children)]: on an empty list the index
    [scored_containers[0]] raises. *)
Definition select_content_container (valid_children : list Element) : indexing Element :=
  match valid_children with
  | [only] => Item only
  | _ =>
      let scored_containers :=
        sort_desc snd (map (fun container =>
                              (container, calculate_final_score container))
                           valid_children) in
      match scored_containers with
      | (best_container, _) :: _ => Item best_container
      | [] => IndexError
      end
  end.

(** [exclude_local_header_footer(container)] *)
Definition exclude_local_header_footer (container : Element) : indexing Element :=
  let children :=
    xpath_child (tag_in (words ["div"; "section"; "article"]%string)) container in
  match children with
  | [] => Item container
  | _ :: _ =>
      match filter (fun child => negb (is_local_header_footer child)) children with
      | [] => Item container
      | valid_children => select_content_container valid_children
      end
  end.

(** [calculate_main_content_score(container)] *)
Definition calculate_main_content_score (container : Element) : Z :=
  let score := 0 in
  let content_length := len (strip (text_content container)) in
  if content_length <=? 100 then -5
  else
    let score :=
      if 500 <? content_length then score + 30
      else if 200 <? content_length then score + 20
      else score + 10 in
    let images := xpath_desc (tag_is (U "img")) container in
    let score :=
      if 0 <? count_of images then score + Z.min (count_of images * 2) 15
      else score in
    let classes := lower (get container (U "class") []) in
    let elem_id := lower (get container (U "id") []) in
    fold_left
      (fun score keyword =>
         if str_in keyword classes || str_in keyword elem_id then score + 15 else score)
      (words ["content"; "main"; "article"; "detail"; "body"]%string)
      score.

(** [find_main_content_area(containers)]; [None] is Python's [None]. *)
Definition find_main_content_area (containers : list Element) : option Element :=
  let candidates :=
    flat_map (fun container =>
                let score := calculate_main_content_score container in
                if 0 <? score then [(container, score)] else [])
             containers in
  match sort_desc snd candidates with
  | [] => None
  | (main_area, _) :: _ => Some main_area
  end.

End Exclusion.

(* ===================================================================== *)
(** ** The [/extract] route *)
(* ===================================================================== *)

(** The response model [MarkdownOutput]: three [str] fields. *)
Record MarkdownOutput := {
  out_markdown_content : str;
  out_xpath : str;
  out_status : str
}.

(** What the route hands to FastAPI: the response model, or an
    [HTTPException] with its status code and detail. *)
Inductive Response : Type :=
| Returned (output : MarkdownOutput)
| HTTPException (status_code : Z) (detail : str).

Section Route.
Context {UD : UnicodeData} {CO : Collaborators}.

(** [str(e)] for the [ValidationError] pydantic raises when a field of
    [MarkdownOutput] is not a [str]; the text is pydantic's. *)
Variable validation_error_text : str.

(** [MarkdownOutput(markdown_content=..., xpath=..., status=...)]: the
    model validates its fields, and [None] is not a [str]. *)
Definition validate_output (result : Extraction) : exc MarkdownOutput :=
  match xpath result with
  | Some locator =>
      Ok {| out_markdown_content := markdown_content result;
            out_xpath := locator;
            out_status := status result |}
  | None => Raise (ExternalError validation_error_text)
  end.

(** [extract_html_to_markdown(input_data)], on [input_data.html_content]. *)
Definition extract_html_to_markdown (html_content : str) : Log -> Response * Log :=
  fun log =>
    match strip html_content with
    | [] => (HTTPException 400 (U "HTML内容不能为空"), log)
    | _ :: _ =>
        let log := log ++ [(INFO, U "开始处理HTML内容提取")] in
        let '(result, log) := extract_content_to_markdown html_content log in
        if str_eqb (status result) (U "failed")
        then (HTTPException 422 (U "无法从HTML中提取有效内容"), log)
        else
          match validate_output result with
          | Ok output => (Returned output, log)
          | Raise e =>
              (HTTPException 500 (U "服务器内部错误: " ++ str_of_exn e),
               log ++ [(ERROR, U "处理请求时出错: " ++ str_of_exn e)])
          end
    end.

End Route.

(* ===================================================================== *)
(** ** [webdriver_pool.py]: the pool of browser sessions *)
(* ===================================================================== *)

Section WebDriverPool.

(** A Selenium session, and the two calls the pool makes on the library:
    [webdriver.Chrome(options=...)] with the arguments added to the
    options, and [driver.quit()].  Either may raise. *)
Variable Driver : Type.
Variable Chrome : list str -> exc Driver.
Variable quit : Driver -> exc unit.

(** The object: [self.pool_size] and the queue [self.drivers], oldest
    first.  The lock is created and never taken. *)
Record Pool := {
  pool_size : nat;
  drivers : list Driver
}.

(** [Queue.put] *)
Definition put (driver : Driver) (pool : Pool) : Pool :=
  {| pool_size := pool_size pool; drivers := drivers pool ++ [driver] |}.







(** [get_driver(self)]: the oldest session and the pool without it.  On an
    empty queue [Queue.get] waits for another thread to put a session
    back; [None] stands for that wait. *)
Definition get_driver (pool : Pool) : option (Driver * Pool) :=
  match drivers pool with
  | driver :: rest => Some (driver, {| pool_size := pool_size pool; drivers := rest |})
  | [] => None
  end.

(** [return_driver(self, driver)] *)
Definition return_driver (driver : Driver) (pool : Pool) : Pool :=
  put driver pool.

(** The loop of [close_all] on a queue: the sessions [quit] was called on,
    in order, with the faults the bare [except] swallowed, and the queue
    that is left. *)
Fixpoint drain (queue : list Driver) (calls : list (Driver * exc unit))
  : list Driver * list (Driver * exc unit) :=
  match queue with
  | [] => ([], calls)
  | driver :: rest => drain rest (calls ++ [(driver, quit driver)])
  end.

(** [close_all(self)] *)
Definition close_all (pool : Pool) : Pool * list (Driver * exc unit) :=
  let '(queue, calls) := drain (drivers pool) [] in
  ({| pool_size := pool_size pool; drivers := queue |}, calls).

End WebDriverPool.

(* ===================================================================== *)
(** ** Notions used in the statements *)
(* ===================================================================== *)

(** The content subtree the pipeline locates for an input: the parser
    builds a tree, the selection ends without a fault, and the element it
    returns passes the test [if not main_container]. *)
Definition located {UD : UnicodeData} {CO : Collaborators}
           (html_content : str) : option Element :=
  match fromstring html_content with
  | Ok tree =>
      match find_article_container tree with
      | Ok main_container =>
          if truthy main_container then Some main_container else None
      | Raise _ => None
      end
  | Raise _ => None
  end.

(** The children [remove_elem x] leaves of a list of children. *)
Definition prune (x : nat) (cs : list Element) : list Element :=
  children (remove_elem x (mkElement 0 [] [] [] [] cs)).

(** A test that looks at the tag and the attributes only, as the selectors
    of the cleaning passes do. *)
Definition shallow (test : Element -> bool) : Prop :=
  forall e e', node_tag e = node_tag e' -> attrib e = attrib e' -> test e = test e'.

(** [e'] holds nothing that [e] did not hold. *)
Definition shrunk (e' e : Element) : Prop :=
  forall n, In n (descendants e') ->
            exists n0, In n0 (descendants e)
                       /\ eid n0 = eid n /\ node_tag n0 = node_tag n
                       /\ attrib n0 = attrib n.

(** No element below the root of [e] has identity [x]. *)
Definition absent (x : nat) (e : Element) : Prop :=
  forall n, In n (descendants e) -> eid n <> x.

(** No element below the root of [e] passes [test]. *)
Definition free_of (test : Element -> bool) (e : Element) : Prop :=
  forall n, In n (descendants e) -> test n = false.

(** The search of [parent_chain] through a list of children of [parent]. *)
Definition scan_children (x : nat) (parent : Element) (cs : list Element)
  : option (list Element) :=
  (fix scan (cs : list Element) : option (list Element) :=
     match cs with
     | [] => None
     | c :: cs' =>
         if Nat.eqb (eid c) x then Some [parent]
         else match parent_chain x c with
              | Some chain => Some (chain ++ [parent])
              | None => scan cs'
              end
     end) cs.

(** The body the cleaner is handed is a child of the root of the document
    (as [body] is of [html]), with an identity no other element of the
    document shares. *)
Definition body_is_child (p : Page) : Prop :=
  In (body p) (children (document p))
  /\ forall n, In n (descendant_or_self (document p)) ->
               eid n = eid (body p) -> n = body p.

(** The number of elements of a subtree. *)
Fixpoint size (e : Element) : nat :=
  S (fold_right (fun c acc => (size c + acc)%nat) O (children e)).

(** The order [key_ltb] decides, as a proposition. *)
Definition key_le (k1 k2 : Z * Z) : Prop :=
  fst k1 < fst k2 \/ (fst k1 = fst k2 /\ snd k1 <= snd k2).

(** Strictly before, in the same order. *)
Definition key_lt (k1 k2 : Z * Z) : Prop :=
  fst k1 < fst k2 \/ (fst k1 = fst k2 /\ snd k1 < snd k2).

(** [x] is the element of [l] a stable ascending sort by [key] puts first
    among those with [P]: the elements with [P] before it have a greater
    key, those after it have no smaller one. *)
Definition first_least {A : Type} (key : A -> Z * Z) (P : A -> Prop) (l : list A) (x : A)
  : Prop :=
  exists before after,
    l = before ++ x :: after
    /\ P x
    /\ (forall y, In y before -> P y -> key_lt (key x) (key y))
    /\ (forall y, In y after -> P y -> key_le (key x) (key y)).

(** An (ancestor, descendant) pair whose scores are within 20 of each other
    and whose descendant scores 150 or more. *)
Definition qualifies (score : Element -> Z) (pc : Element * Element) : Prop :=
  Z.abs (score (fst pc) - score (snd pc)) <= 20 /\ 150 <= score (snd pc).

(** The key the qualifying pairs are ranked by: the descendant's score,
    highest first, then the score difference, smallest first. *)
Definition pair_key (score : Element -> Z) (pc : Element * Element) : Z * Z :=
  (- score (snd pc), score (fst pc) - score (snd pc)).

(** [a] is the ancestor of the first pair of [pairs] whose descendant is
    [d]. *)
Definition first_parent (pairs : list (Element * Element)) (d a : Element) : Prop :=
  exists first rest, pairs = first ++ (a, d) :: rest /\ forall a', ~ In (a', d) first.

(** A record of the binary64 rounding after [k] shifts of the one that
    starts as [(M, false, false)]:
    twice [M] is [2^k * (2 * m + r) + t], with [t] below [2^k], and [t] is
    0 when the sticky bit is off. *)
Definition shr_inv (M k : Z) (mrs : shr_record) : Prop :=
  0 <= shr_m mrs
  /\ exists t, 2 * M = 2 ^ k * (2 * shr_m mrs + Z.b2z (shr_r mrs)) + t
               /\ 0 <= t < 2 ^ k
               /\ (shr_s mrs = false -> t = 0).

(** The score [next(...)] yields for a candidate, when it yields one. *)
Definition score_in (all_scored_containers : list (Element * Z)) (c : Element) : Z :=
  match next_score all_scored_containers c with
  | Ok s => s
  | Raise _ => 0
  end.

(** [l1] is [l2] with some of its elements left out. *)
Inductive subseq {A : Type} : list A -> list A -> Prop :=
| subseq_nil : subseq [] []
| subseq_skip (x : A) (l1 l2 : list A) : subseq l1 l2 -> subseq l1 (x :: l2)
| subseq_cons (x : A) (l1 l2 : list A) : subseq l1 l2 -> subseq (x :: l1) (x :: l2).

(** A run of removals seen from an enclosing element. *)
Definition remove_all (xs : list nat) (e : Element) : Element :=
  fold_left (fun e x => remove_elem x e) xs e.

(** The identities of the elements below [e] are pairwise different, as
    the identities of the nodes of a parsed tree are. *)
Definition distinct_below (e : Element) : Prop :=
  NoDup (map eid (descendants e)).

(** The same, the root of [e] included. *)
Definition distinct_nodes (e : Element) : Prop :=
  NoDup (map eid (descendant_or_self e)).

(** The first character of [s], if there is one, is not white space. *)
Definition clean_start (s : str) : Prop :=
  match s with
  | [] => True
  | c :: _ => isspace c = false
  end.

(** A line as [clean_markdown_content] keeps it: no line break inside, no
    white space at either end. *)
Definition tidy_line (line : str) : Prop :=
  ~ In 10%N line /\ clean_start line /\ clean_start (rev line).

(** Two empty lines in a row. *)
Definition adjacent_blank (lines : list str) : Prop :=
  exists l1 l2, lines = l1 ++ [] :: [] :: l2.

(** The loop of [clean_markdown_content] over the stripped lines. *)
Definition keep_line (acc : list str * bool) (line : str) : list str * bool :=
  let '(cleaned, prev_empty) := acc in
  match strip line with
  | _ :: _ => (cleaned ++ [line], false)
  | [] => if negb prev_empty then (cleaned ++ [[]], true)
          else (cleaned, prev_empty)
  end.

(* ===================================================================== *)
(** ** Sample documents *)
(* ===================================================================== *)

(** A [footer] that carries every positive signal the scorer knows: a
    content class, a [main] role, a date, official vocabulary and an
    image. *)
Definition rich_footer : Element :=
  mkElement 7 (U "footer")
    [(U "class", U "content main article"); (U "role", U "main")]
    (U "2024-01-05 通知 正文 记者") []
    [mkElement 8 (U "img") [] [] [] []].

(** A breadcrumb line that also contains four header keywords and two
    footer keywords. *)
Definition breadcrumb_node : Element :=
  mkElement 9 (U "div") []
    (U "当前位置：首页 > 登录 > 注册 > 导航 版权所有 备案号") [] [].

(** A block with a clean [id], and the same block with an empty one. *)
Definition article_with_id : Element :=
  mkElement 3 (U "div") [(U "id", U "printContent"); (U "class", U "box")] (U "text") []
    [mkElement 4 (U "p") [] (U "paragraph") [] []].

Definition page_with_id : Element :=
  mkElement 0 (U "html") [] [] []
    [mkElement 1 (U "body") [] [] [] [article_with_id]].

Definition article_with_empty_id : Element :=
  mkElement 3 (U "div") [(U "id", []); (U "class", U "box")] (U "text") []
    [mkElement 4 (U "p") [] (U "paragraph") [] []].

Definition page_with_empty_id : Element :=
  mkElement 0 (U "html") [] [] []
    [mkElement 1 (U "body") [] [] [] [article_with_empty_id]].

(** A stand-in for the libraries, to run the entry point on examples: the
    parser rejects the empty document, as lxml does, and answers any other
    input with the given page; the text pipeline passes the text of the
    element through. *)
Definition sample_collaborators (parsed : Parsed) : Collaborators := {|
  fromstring := fun html_content =>
    match html_content with
    | [] => Raise (ExternalError (U "Document is empty"))
    | _ => Ok parsed
    end;
  tostring := fun e => Ok (text_content e);
  clean_container_html := fun s => Ok s;
  markdownify := fun s => Ok s
|}.

(** [<html><body><div>only text</div></body></html>] *)
Definition text_only_div : Element :=
  mkElement 2 (U "div") [] (U "only text") [] [].

Definition text_only_page : Parsed :=
  let doc :=
    mkElement 0 (U "html") [] [] []
      [mkElement 1 (U "body") [] [] [] [text_only_div]] in
  {| parsed_document := doc; page_tree := doc |}.

(** [<html><body><div>only text<!-- c --></div></body></html>]: the [div]
    has no child element, and one child node, the comment. *)
Definition commented_div : Element :=
  mkElement 2 (U "div") [] (U "only text") [] [Comment 3 (U " c ") []].

Definition commented_page : Parsed :=
  let doc :=
    mkElement 0 (U "html") [] [] []
      [mkElement 1 (U "body") [] [] [] [commented_div]] in
  {| parsed_document := doc; page_tree := doc |}.

(** A listing of four entries, with a score of exactly 0, inside a
    [div class="content"] that holds one entry more. *)
Definition entry (i : nat) : Element :=
  mkElement i (U "li") [] (U "An entry of the listing 01") [] [].

Definition listing_of_four : Element :=
  mkElement 3 (U "ul") [] [] [] [entry 4; entry 5; entry 6; entry 7].

Definition listing_box : Element :=
  mkElement 2 (U "div") [(U "class", U "content")] [] []
    [listing_of_four;
     mkElement 8 (U "article") [] (U "One more entry, an article") [] []].

Definition listing_page : Element :=
  mkElement 0 (U "html") [] [] [] [mkElement 1 (U "body") [] [] [] [listing_box]].



(** A body with role-marked elements of four kinds. *)
Definition page_with_roles : Page :=
  let doc :=
    mkElement 0 (U "html") [] [] []
      [mkElement 1 (U "body") [] [] []
         [mkElement 2 (U "div") [(U "role", U "navigation")] [] [] [];
          mkElement 3 (U "ul") [(U "role", U "navigation")] [] []
            [mkElement 4 (U "li") [] (U "Home") [] []];
          mkElement 5 (U "section") [(U "role", U "banner")] (U "Site") [] [];
          mkElement 6 (U "aside") [] (U "Related") [] []]] in
  {| document := doc; body := doc |}.

(** A news item: an outer [div] that holds a heading and an inner [div]
    with the body of the item.  Both score 200. *)
Definition paragraph (i : nat) (t : string) : Element :=
  mkElement i (U "p") [] (U t) [] [].

Definition item_inner : Element :=
  mkElement 3 (U "div") [(U "class", U "content"); (U "role", U "viewlist")]
    (U "2024-01-05 ") []
    [paragraph 4 "The council met on Monday and approved the plan for the new library.";
     paragraph 5 "Work begins in spring."].

Definition item_outer : Element :=
  mkElement 2 (U "div") [(U "class", U "article"); (U "role", U "viewlist")] [] []
    [mkElement 6 (U "h1") [] (U "Council news") [] []; item_inner].

Definition item_page : Page :=
  let b := mkElement 1 (U "body") [] [] [] [item_outer] in
  {| document := mkElement 0 (U "html") [] [] [] [b]; body := b |}.

(** Three candidates one inside the other: the outer [div] scores 212, the
    middle and the inner one 200 each; they hold 167, 83 and 61 characters
    of text. *)
Definition nested_inner : Element :=
  mkElement 4 (U "div") [(U "class", U "content"); (U "role", U "viewlist")]
    (U "2024-01-05 ") []
    [paragraph 5 "The council approved the plan for the new library."].

Definition nested_middle : Element :=
  mkElement 3 (U "div") [(U "class", U "content"); (U "role", U "viewlist")] [] []
    [paragraph 6 "Work begins in spring."; nested_inner].

Definition nested_outer : Element :=
  mkElement 2 (U "div") [(U "class", U "article"); (U "role", U "viewlist")] [] []
    [mkElement 7 (U "h1") [] (U "Council news") [] [];
     paragraph 8 "It replaces the reading room on Mill Lane, which closed after the flood.";
     nested_middle].

Definition nested_page : Page :=
  let b := mkElement 1 (U "body") [] [] [] [nested_outer] in
  {| document := mkElement 0 (U "html") [] [] [] [b]; body := b |}.

(** A page whose first block is a [div class="laptop-reviews"] with two
    paragraphs of prose, followed by a [div class="related"]. *)
Definition prose : string :=
  "The quick brown fox jumps over the lazy dog and keeps running through the fields. ".

Definition reviews_block : Element :=
  mkElement 2 (U "div") [(U "class", U "laptop-reviews")] [] []
    [paragraph 3 prose; paragraph 4 prose].

Definition reviews_page : Page :=
  let b :=
    mkElement 1 (U "body") [] [] []
      [reviews_block;
       mkElement 5 (U "div") [(U "class", U "related")] [] [] [paragraph 6 "See also"]] in
  {| document := mkElement 0 (U "html") [] [] [] [b]; body := b |}.

(** A story block that scores 200 beside a short [div class="related"]
    that scores -20. *)
Definition related_block : Element :=
  mkElement 7 (U "div") [(U "class", U "related")] [] [] [paragraph 8 "See also"].

Definition story_page : Page :=
  let b := mkElement 1 (U "body") [] [] [] [item_inner; related_block] in
  {| document := mkElement 0 (U "html") [] [] [] [b]; body := b |}.

(** A portal page: a [header], a [div class="topbar"], the story, and a
    [div class="footer-links"]. *)
Definition link (i : nat) (t : string) : Element :=
  mkElement i (U "a") [(U "href", U "/")] (U t) [] [].

Definition story_block : Element :=
  mkElement 6 (U "div") [(U "class", U "content")] [] []
    [mkElement 7 (U "h1") [] (U "Council news") [] []; paragraph 8 prose].

Definition portal_page : Page :=
  let b :=
    mkElement 1 (U "body") [] [] []
      [mkElement 2 (U "header") [] [] [] [link 3 "Home"];
       mkElement 4 (U "div") [(U "class", U "topbar")] [] [] [link 5 "Login"];
       story_block;
       mkElement 9 (U "div") [(U "class", U "footer-links")] [] []
         [paragraph 10 "Contact"]] in
  {| document := mkElement 0 (U "html") [] [] [] [b]; body := b |}.


(* ===================================================================== *)
(** * Properties *)
(* ===================================================================== *)

(** ** Tags *)

Lemma str_eqb_sound (a b : str) : str_eqb a b = true -> a = b.
Proof.
  revert b. induction a as [|x a IH]; intros [|y b]; cbn [str_eqb];
    try discriminate; [reflexivity|].
  intros H. apply andb_true_iff in H as [H1 H2].
  apply N.eqb_eq in H1. subst y. f_equal. now apply IH.
Qed.

Lemma str_eqb_diag (a : str) : str_eqb a a = true.
Proof.
  induction a as [|x a IH]; [reflexivity|].
  cbn [str_eqb]. now rewrite N.eqb_refl, IH.
Qed.

Lemma tag_is_name (t : str) (e : Element) :
  tag_is t e = true <-> node_tag e = Name t.
Proof.
  unfold tag_is. destruct (node_tag e) as [name| |]; cbn [tag_eqb].
  - split.
    + intros H. apply str_eqb_sound in H. now subst.
    + intros H. injection H as ->. apply str_eqb_diag.
  - split; discriminate.
  - split; discriminate.
Qed.

Lemma tag_is_tag (t : str) (e : Element) : tag_is t e = true -> tag e = t.
Proof. intros H. apply tag_is_name in H. unfold tag. now rewrite H. Qed.

(** A node whose tag reads as a name is an element of that name. *)
Lemma tag_is_intro (t : str) (e : Element) :
  t <> [] -> tag e = t -> tag_is t e = true.
Proof.
  intros Hne H. apply tag_is_name. unfold tag in H.
  destruct (node_tag e) as [name| |]; [now subst | |]; now contradiction Hne.
Qed.

Lemma tag_is_other (t : str) (e : Element) : tag e <> t -> tag_is t e = false.
Proof.
  intros H. destruct (tag_is t e) eqn:E; [|reflexivity].
  now apply tag_is_tag in E.
Qed.

Lemma tag_in_spec (ts : list str) (e : Element) :
  tag_in ts e = true <-> is_element e = true /\ In (tag e) ts.
Proof.
  unfold tag_in. rewrite existsb_exists. split.
  - intros [t [Ht H]]. apply tag_is_name in H. unfold is_element, tag. rewrite H.
    now split.
  - intros [He Hin]. exists (tag e). split; [exact Hin|].
    apply tag_is_name. unfold is_element, tag in *.
    now destruct (node_tag e).
Qed.

(** ** Strings *)

Lemma startswith_spec (p s : str) :
  startswith p s = true <-> exists rest, s = p ++ rest.
Proof.
  revert s. induction p as [|x p IH]; intros s; simpl.
  - split; [intros _; now exists s | reflexivity].
  - destruct s as [|y s].
    + split; [discriminate | intros [rest H]; discriminate].
    + rewrite andb_true_iff, N.eqb_eq, IH. split.
      * intros [-> [rest ->]]. now exists rest.
      * intros [rest H]. injection H as -> ->. split; [reflexivity | now exists rest].
Qed.

Lemma str_in_spec (p s : str) :
  str_in p s = true <-> exists before after, s = before ++ p ++ after.
Proof.
  induction s as [|c s IH].
  - simpl. rewrite orb_false_r, startswith_spec. split.
    + intros [rest H]. now exists [], rest.
    + intros [before [after H]]. destruct before; [now exists after | discriminate].
  - cbn [str_in]. rewrite orb_true_iff, startswith_spec, IH. split.
    + intros [[rest H] | [before [after H]]].
      * now exists [], rest.
      * exists (c :: before), after. now rewrite H.
    + intros [before [after H]]. destruct before as [|b before].
      * left. now exists after.
      * right. injection H as _ H. now exists before, after.
Qed.

Section StringFacts.
Context {UD : UnicodeData}.

Lemma lower_app (a b : str) : lower (a ++ b) = lower a ++ lower b.
Proof. apply flat_map_app. Qed.

(** A phrase made of code points that lower-casing leaves alone survives
    [lower()] wherever it stands in a text. *)
Lemma lower_fixed (p : str) :
  (forall c, In c p -> lower_char c = [c]) -> lower p = p.
Proof.
  induction p as [|c p IH]; intros H; [reflexivity|].
  unfold lower in *. simpl. rewrite (H c (or_introl eq_refl)). simpl.
  f_equal. apply IH. intros d Hd. apply H. now right.
Qed.

Lemma str_in_lower (p s : str) :
  (forall c, In c p -> lower_char c = [c]) ->
  str_in p s = true -> str_in p (lower s) = true.
Proof.
  intros Hp H. apply str_in_spec in H as [before [after ->]].
  apply str_in_spec. exists (lower before), (lower after).
  now rewrite !lower_app, (lower_fixed p Hp).
Qed.

End StringFacts.

(** ** Candidate scorer *)

(** C5 — a node whose tag is [header], [footer], [nav] or [aside] scores
    exactly -500, whatever its attributes, text and descendants are: the
    scorer returns before any other signal is looked at. *)
Theorem chrome_tag_scores_minus_500 {UD : UnicodeData} (container : Element) :
  In (tag container) chrome_tags ->
  calculate_content_container_score container = -500.
Proof.
  intros Htag.
  assert (E : str_mem (lower (tag container)) chrome_tags = true).
  { repeat (destruct Htag as [<- | Htag]; [reflexivity|]). destruct Htag. }
  unfold calculate_content_container_score. now rewrite E.
Qed.

Lemma chrome_tag_scores_minus_500_witness :
  In (tag rich_footer) chrome_tags
  /\ calculate_content_container_score (UD := ascii_tables) rich_footer = -500.
Proof.
  assert (H : In (tag rich_footer) chrome_tags) by (right; left; reflexivity).
  split; [exact H | exact (chrome_tag_scores_minus_500 (UD := ascii_tables) rich_footer H)].
Defined.

(** C10 — when the text of a node contains the breadcrumb phrase 当前位置
    or 当前的位置, no header keyword is recorded for it, so step 3 of the
    scorer subtracts the footer penalty alone, whatever header vocabulary
    the text contains; the footer keywords are counted as for any other
    node.  The phrase is required to survive [lower()], as ideographs do. *)
Theorem breadcrumb_suppresses_header_penalty {UD : UnicodeData} (container : Element) :
  (forall c, In c (U "当前的位置") -> uni_lower c = [c]) ->
  str_in (U "当前位置") (text_content container) = true
  \/ str_in (U "当前的位置") (text_content container) = true ->
  found_header_keywords (text_content container) = []
  /\ found_footer_keywords (text_content container)
     = filter (fun keyword => str_in keyword (lower (text_content container)))
              footer_content_keywords
  /\ forall score,
       apply_content_penalties container score
       = score - keyword_penalty
                   (keyword_hits footer_content_keywords (lower (text_content container))).
Proof.
  intros Hlow Hcrumb.
  assert (Hchar : forall c, In c (U "当前的位置") -> lower_char c = [c]).
  { intros c Hc. unfold lower_char.
    assert (Hna : is_ascii c = false).
    { repeat (destruct Hc as [<- | Hc]; [reflexivity|]). destruct Hc. }
    rewrite Hna. now apply Hlow. }
  assert (Hb : has_breadcrumb (lower (text_content container)) = true).
  { unfold has_breadcrumb. apply orb_true_iff.
    destruct Hcrumb as [H | H]; [left | right]; apply str_in_lower; try exact H.
    - intros c Hc. apply Hchar.
      repeat (destruct Hc as [<- | Hc]; [simpl; tauto|]). destruct Hc.
    - exact Hchar. }
  assert (Hh : found_header_keywords (text_content container) = []).
  { unfold found_header_keywords. rewrite Hb.
    induction header_content_keywords as [|k l IH]; [reflexivity|].
    simpl. now rewrite andb_false_r. }
  split; [exact Hh|]. split; [reflexivity|].
  intros score. unfold apply_content_penalties. rewrite Hh.
  unfold found_footer_keywords, keyword_hits.
  change (keyword_penalty (count_of [])) with 0. lia.
Qed.

Lemma breadcrumb_suppresses_header_penalty_witness :
  found_header_keywords (UD := ascii_tables) (text_content breadcrumb_node) = []
  /\ found_footer_keywords (UD := ascii_tables) (text_content breadcrumb_node)
     = filter (fun keyword =>
                 str_in keyword (lower (UD := ascii_tables) (text_content breadcrumb_node)))
              footer_content_keywords
  /\ forall score,
       apply_content_penalties (UD := ascii_tables) breadcrumb_node score
       = score - keyword_penalty
                   (keyword_hits footer_content_keywords
                      (lower (UD := ascii_tables) (text_content breadcrumb_node))).
Proof.
  apply (breadcrumb_suppresses_header_penalty (UD := ascii_tables) breadcrumb_node).
  - intros c _. reflexivity.
  - left. reflexivity.
Defined.

(** The footer penalty of the breadcrumb line is the one for two keywords;
    without the breadcrumb the same header words cost 300 more. *)
Example breadcrumb_node_penalties :
  apply_content_penalties (UD := ascii_tables) breadcrumb_node 0 = -150
  /\ apply_content_penalties (UD := ascii_tables)
       (mkElement 9 (U "div") [] (U "首页 > 登录 > 注册 > 导航 版权所有 备案号") [] []) 0
     = -450.
Proof. split; reflexivity. Qed.

(** ** Locator generator *)

Section LocatorFacts.
Context {UD : UnicodeData}.

Lemma generate_xpath_falsy (doc element : Element) :
  children element = [] -> generate_xpath doc element = None.
Proof.
  intros H. unfold generate_xpath. cbn [generate_xpath_rec].
  unfold generate_xpath_body, truthy. now rewrite H.
Qed.

Lemma generate_xpath_clean_id (doc element : Element) (value : str) :
  truthy element = true ->
  get_opt element (U "id") = Some value ->
  clean_value (Some value) = true ->
  generate_xpath doc element = Some (attribute_xpath (tag element) (U "id") value).
Proof.
  intros Ht Hid Hclean. unfold generate_xpath. cbn [generate_xpath_rec].
  unfold generate_xpath_body. rewrite Ht. cbn [negb]. rewrite Hid, Hclean.
  unfold get. now rewrite Hid.
Qed.

End LocatorFacts.

(** C4, as amended — for every node that has a child element and whose
    [id] attribute is present, not empty and, lower-cased, free of the
    interference keywords, the locator is exactly [//tag[@id='value']]; it
    is the same in every document and at every position the node may
    stand, so generating it again gives the same string. *)
Theorem clean_id_locator {UD : UnicodeData} (doc element : Element) (value : str) :
  truthy element = true ->
  get_opt element (U "id") = Some value ->
  value <> [] ->
  is_interference_identifier value = false ->
  generate_xpath doc element
  = Some (U "//" ++ tag element ++ U "[@id='" ++ value ++ U "']").
Proof.
  intros Ht Hid Hne Hclean.
  rewrite (generate_xpath_clean_id doc element Ht Hid).
  - reflexivity.
  - unfold clean_value. rewrite Hclean. destruct value; [contradiction | reflexivity].
Qed.

Lemma clean_id_locator_witness :
  generate_xpath (UD := ascii_tables) page_with_id article_with_id
  = Some (U "//div[@id='printContent']").
Proof.
  apply (clean_id_locator (UD := ascii_tables) page_with_id article_with_id
           (value := U "printContent")).
  - reflexivity.
  - reflexivity.
  - discriminate.
  - reflexivity.
Defined.

(** C4, as stated, fails on a node whose [id] attribute is present but
    empty: the attribute contains no interference keyword, yet the guard
    [if elem_id and ...] passes it over and the [class] attribute makes the
    locator. *)
Lemma clean_id_locator_counterexample :
  get_opt article_with_empty_id (U "id") = Some []
  /\ is_interference_identifier (UD := ascii_tables) [] = false
  /\ generate_xpath (UD := ascii_tables) page_with_empty_id article_with_empty_id
     = Some (U "//div[@class='box']")
  /\ generate_xpath (UD := ascii_tables) page_with_empty_id article_with_empty_id
     <> Some (U "//" ++ tag article_with_empty_id ++ U "[@id='" ++ [] ++ U "']").
Proof.
  repeat split; try reflexivity. discriminate.
Qed.

(** ** Extraction entry point *)

Section EntryFacts.
Context {UD : UnicodeData} {CO : Collaborators}.

Lemma extract_not_located (html_content : str) (log : Log) :
  located html_content = None ->
  fst (extract_content_to_markdown html_content log) = failed.
Proof.
  unfold located, extract_content_to_markdown, extract_body, run_bind, run_lift.
  destruct (fromstring html_content) as [tree | e]; [|reflexivity].
  destruct (find_article_container tree) as [main_container | e]; [|reflexivity].
  destruct (truthy main_container); [discriminate | reflexivity].
Qed.

(** The answer never depends on the log it starts from, and the log only
    grows. *)
Lemma extract_log_independent (html_content : str) :
  exists result records,
    forall log, extract_content_to_markdown html_content log = (result, log ++ records).
Proof.
  unfold extract_content_to_markdown, extract_body, run_bind, run_lift, run_ret, logger.
  destruct (fromstring html_content) as [tree | e].
  2: { eexists _, _. intros log. reflexivity. }
  destruct (find_article_container tree) as [main_container | e].
  2: { eexists _, _. intros log. reflexivity. }
  destruct (truthy main_container); cbv beta iota delta [negb].
  2: { eexists _, _. intros log. reflexivity. }
  destruct (tostring main_container) as [container_html | e].
  2: { eexists _, _. intros log. reflexivity. }
  destruct (clean_container_html container_html) as [cleaned | e].
  2: { eexists _, _. intros log. reflexivity. }
  destruct (markdownify cleaned) as [markdown | e].
  2: { eexists _, _. intros log. reflexivity. }
  eexists _, _. intros log. rewrite <- app_assoc. reflexivity.
Qed.

End EntryFacts.

(** C1 — whenever no content subtree is located for the input (the parser
    rejects it, as it does the empty string, the selection faults, or the
    element selected counts as not found), the entry point returns the
    record with status [failed], empty content and empty locator.  It
    returns a record on every input and every log: the model has no way to
    let a fault escape it, as the [except Exception] clause has none. *)
Theorem no_content_yields_failed {UD : UnicodeData} {CO : Collaborators}
        (html_content : str) (log : Log) :
  located html_content = None ->
  let result := fst (extract_content_to_markdown html_content log) in
  result = failed
  /\ status result = U "failed"
  /\ markdown_content result = []
  /\ xpath result = Some [].
Proof.
  intros H result. subst result. rewrite (extract_not_located html_content log H).
  repeat split.
Qed.

(** C9, as amended — when the element the selection returns has no child
    node at all, neither a child element nor a comment nor a processing
    instruction, the entry point answers [failed] with empty content and
    empty locator, although an element was selected; [generate_xpath]
    answers [None] for such an element. *)
Theorem childless_container_yields_failed {UD : UnicodeData} {CO : Collaborators}
        (html_content : str) (log : Log) (tree : Parsed) (main_container : Element) :
  fromstring html_content = Ok tree ->
  find_article_container tree = Ok main_container ->
  children main_container = [] ->
  fst (extract_content_to_markdown html_content log) = failed
  /\ forall doc, generate_xpath doc main_container = None.
Proof.
  intros Hparse Hfind Hleaf. split.
  - apply extract_not_located. unfold located. rewrite Hparse, Hfind.
    unfold truthy. now rewrite Hleaf.
  - intros doc. now apply generate_xpath_falsy.
Qed.

Lemma no_content_yields_failed_witness :
  let result :=
    fst (extract_content_to_markdown (UD := ascii_tables)
           (CO := sample_collaborators text_only_page) [] []) in
  result = failed
  /\ status result = U "failed"
  /\ markdown_content result = []
  /\ xpath result = Some [].
Proof.
  apply (no_content_yields_failed (UD := ascii_tables)
           (CO := sample_collaborators text_only_page) [] []).
  reflexivity.
Defined.

Lemma childless_container_yields_failed_witness :
  fst (extract_content_to_markdown (UD := ascii_tables)
         (CO := sample_collaborators text_only_page)
         (U "<div>only text</div>") []) = failed
  /\ forall doc, generate_xpath (UD := ascii_tables) doc text_only_div = None.
Proof.
  apply (childless_container_yields_failed (UD := ascii_tables)
           (CO := sample_collaborators text_only_page)
           (U "<div>only text</div>") [] (tree := text_only_page)
           (main_container := text_only_div)).
  - reflexivity.
  - reflexivity.
  - reflexivity.
Defined.

(** C9, as stated, fails when the selected element has no child element
    and yet a child node: the [div] of [commented_page] holds text
    and a comment only, it is the element selected, and the answer is
    [success] with the locator of the [div]. *)
Lemma childless_container_counterexample :
  let result :=
    fst (extract_content_to_markdown (UD := ascii_tables)
           (CO := sample_collaborators commented_page)
           (U "<div>only text<!-- c --></div>") []) in
  find_article_container (UD := ascii_tables) commented_page = Ok commented_div
  /\ filter is_element (children commented_div) = []
  /\ truthy commented_div = true
  /\ result <> failed
  /\ status result = U "success"
  /\ xpath result = Some (U "/body[1]/div[1]").
Proof.
  cbv zeta. split; [vm_compute; reflexivity|].
  split; [reflexivity|]. split; [reflexivity|].
  split; [vm_compute; discriminate|].
  repeat split; vm_compute; reflexivity.
Qed.

(** The same page with a paragraph inside the [div] is extracted. *)
Example extraction_succeeds :
  let doc :=
    mkElement 0 (U "html") [] [] []
      [mkElement 1 (U "body") [] [] []
         [mkElement 2 (U "div") [(U "id", U "article")] [] []
            [mkElement 3 (U "p") [] (U "some text") [] []]]] in
  fst (extract_content_to_markdown (UD := ascii_tables)
         (CO := sample_collaborators {| parsed_document := doc; page_tree := doc |})
         (U "<div id='article'><p>some text</p></div>") [])
  = {| markdown_content := U "some text";
       xpath := Some (U "//div[@id='article']");
       status := U "success" |}.
Proof. reflexivity. Qed.

(** ** List-container variant *)



(** ** Structural cleaner *)

Lemma str_eqb_eq (a b : str) : str_eqb a b = true <-> a = b.
Proof.
  revert b. induction a as [|x a IH]; intros [|y b]; simpl;
    try (split; [discriminate | discriminate]); [tauto|].
  rewrite andb_true_iff, N.eqb_eq, IH. split.
  - now intros [-> ->].
  - intros H. injection H as -> ->. tauto.
Qed.

Lemma descendants_children (e : Element) :
  descendants e = flat_map (fun c => c :: descendants c) (children e).
Proof. now destruct e. Qed.

Lemma prune_cons x c cs :
  prune x (c :: cs)
  = if Nat.eqb (eid c) x then prune x cs else remove_elem x c :: prune x cs.
Proof. reflexivity. Qed.

Lemma children_remove_elem x e : children (remove_elem x e) = prune x (children e).
Proof. now destruct e. Qed.

(** What is left below [e] after [remove_elem x]: images of elements that
    were there, none of them with identity [x]. *)
Lemma descendants_remove_elem (x : nat) (e n : Element) :
  In n (descendants (remove_elem x e)) ->
  exists n0, In n0 (descendants e) /\ n = remove_elem x n0 /\ eid n0 <> x.
Proof.
  revert n. induction e as [i t a tx tl cs IH] using Element_ind. intros n.
  rewrite !descendants_children, children_remove_elem. simpl children.
  induction cs as [|c cs IHcs]; [intros []|].
  inversion IH as [|? ? Hc Hcs]; subst. specialize (IHcs Hcs).
  rewrite prune_cons. destruct (Nat.eqb (eid c) x) eqn:E.
  - intros H. destruct (IHcs H) as [n0 [H0 H1]].
    exists n0. split; [|exact H1]. simpl. right. apply in_or_app. now right.
  - simpl. intros [H | H].
    + exists c. repeat split; [now left | now symmetry | now apply Nat.eqb_neq].
    + apply in_app_or in H as [H | H].
      * destruct (Hc n H) as [n0 [H0 H1]].
        exists n0. split; [|exact H1]. right. apply in_or_app. now left.
      * destruct (IHcs H) as [n0 [H0 H1]].
        exists n0. split; [|exact H1]. right. apply in_or_app. now right.
Qed.

Lemma remove_elem_shallow (x : nat) (e : Element) :
  eid (remove_elem x e) = eid e
  /\ tag (remove_elem x e) = tag e
  /\ attrib (remove_elem x e) = attrib e.
Proof. destruct e. repeat split. Qed.

Lemma shrunk_refl e : shrunk e e.
Proof. intros n H. now exists n. Qed.

Lemma shrunk_trans e1 e2 e3 : shrunk e1 e2 -> shrunk e2 e3 -> shrunk e1 e3.
Proof.
  intros H12 H23 n H. destruct (H12 n H) as [m [Hm [E1 [E2 E3]]]].
  destruct (H23 m Hm) as [k [Hk [F1 [F2 F3]]]].
  exists k. repeat split; congruence.
Qed.

Lemma remove_elem_node_tag (x : nat) (e : Element) :
  node_tag (remove_elem x e) = node_tag e.
Proof. now destruct e. Qed.

Lemma shrunk_remove_elem x e : shrunk (remove_elem x e) e.
Proof.
  intros n H. destruct (descendants_remove_elem x e n H) as [n0 [H0 [-> _]]].
  exists n0. destruct (remove_elem_shallow x n0) as [E1 [E2 E3]].
  pose proof (remove_elem_node_tag x n0) as E4. now repeat split.
Qed.

Lemma absent_remove_elem x e : absent x (remove_elem x e).
Proof.
  intros n H. destruct (descendants_remove_elem x e n H) as [n0 [_ [-> Hx]]].
  now destruct (remove_elem_shallow x n0) as [-> _].
Qed.

Lemma absent_shrunk x e' e : shrunk e' e -> absent x e -> absent x e'.
Proof.
  intros Hs Ha n H. destruct (Hs n H) as [n0 [H0 [E _]]]. rewrite <- E. now apply Ha.
Qed.

Lemma free_of_shrunk test e' e :
  shallow test -> shrunk e' e -> free_of test e -> free_of test e'.
Proof.
  intros Hsh Hs Hf n H. destruct (Hs n H) as [n0 [H0 [_ [E2 E3]]]].
  rewrite <- (Hsh n0 n E2 E3). now apply Hf.
Qed.

Lemma parent_chain_scan x e : parent_chain x e = scan_children x e (children e).
Proof. now destruct e. Qed.

Lemma scan_children_cons x parent c cs :
  scan_children x parent (c :: cs)
  = if Nat.eqb (eid c) x then Some [parent]
    else match parent_chain x c with
         | Some chain => Some (chain ++ [parent])
         | None => scan_children x parent cs
         end.
Proof. reflexivity. Qed.

(** An element below the root has a parent. *)
Lemma parent_chain_found (e n : Element) :
  In n (descendants e) ->
  exists chain parent, parent_chain (eid n) e = Some (parent :: chain).
Proof.
  induction e as [i t a tx tl cs IH] using Element_ind.
  rewrite parent_chain_scan, descendants_children. simpl children.
  generalize (mkNode i t a tx tl cs) as root. intros root.
  induction cs as [|c cs IHcs]; [intros []|].
  inversion IH as [|? ? Hc Hcs]; subst. specialize (IHcs Hcs).
  rewrite scan_children_cons. simpl. intros H.
  destruct (Nat.eqb (eid c) (eid n)) eqn:E; [eauto|].
  destruct (parent_chain (eid n) c) as [chain|] eqn:Ec.
  - destruct chain; simpl; eauto.
  - destruct H as [-> | H]; [now rewrite Nat.eqb_refl in E|].
    apply in_app_or in H as [H | H].
    + destruct (Hc H) as [? [? ?]]. discriminate.
    + now apply IHcs.
Qed.

Lemma getparent_of_descendant (doc n : Element) :
  In n (descendants doc) -> exists parent, getparent doc n = Some parent.
Proof.
  intros H. destruct (parent_chain_found doc n H) as [chain [parent Hp]].
  exists parent. unfold getparent, ancestors. now rewrite Hp.
Qed.

(** The removal loop only takes away, and takes away every listed element
    that has a parent. *)
Lemma remove_each_document (has_parent : Element -> bool) (elements : list Element)
      (st : Page * Z) :
  shrunk (document (fst (remove_each has_parent elements st))) (document (fst st))
  /\ forall el, In el elements -> has_parent el = true ->
                absent (eid el) (document (fst (remove_each has_parent elements st))).
Proof.
  unfold remove_each. revert st.
  induction elements as [|el0 elements IH]; intros st; simpl.
  - split; [apply shrunk_refl | intros el []].
  - set (st1 := if has_parent el0 then (detach el0 (fst st), snd st + 1) else st).
    assert (S1 : shrunk (document (fst st1)) (document (fst st))).
    { subst st1. destruct (has_parent el0); [apply shrunk_remove_elem | apply shrunk_refl]. }
    destruct (IH st1) as [IHs IHa]. split.
    + eapply shrunk_trans; eassumption.
    + intros el [-> | Hin] Hp; [|now apply IHa].
      apply (absent_shrunk IHs). subst st1. rewrite Hp. apply absent_remove_elem.
Qed.

Lemma remove_matching_document (st : Page * Z) (test : Element -> bool) :
  shallow test ->
  shrunk (document (fst (remove_matching st test))) (document (fst st))
  /\ free_of test (document (fst (remove_matching st test))).
Proof.
  intros Hsh. unfold remove_matching.
  destruct (remove_each_document (has_parent_in (document (fst st)))
              (xpath_abs test (document (fst st))) st) as [Hs Ha].
  split; [exact Hs|].
  intros n Hn. destruct (test n) eqn:E; [exfalso | reflexivity].
  destruct (Hs n Hn) as [n0 [H0 [E1 [E2 E3]]]].
  refine (Ha n0 _ _ n Hn (eq_sym E1)).
  - apply filter_In. split; [now right|]. now rewrite (Hsh n0 n E2 E3).
  - unfold has_parent_in. now destruct (getparent_of_descendant _ _ H0) as [parent ->].
Qed.

(** After the rounds of a list of selectors, none of them matches below the
    root. *)
Lemma remove_matching_rounds (tests : list (Element -> bool)) (st : Page * Z) :
  Forall shallow tests ->
  shrunk (document (fst (fold_left remove_matching tests st))) (document (fst st))
  /\ forall test, In test tests ->
                  free_of test (document (fst (fold_left remove_matching tests st))).
Proof.
  revert st. induction tests as [|t tests IH]; intros st Hall; simpl.
  - split; [apply shrunk_refl | intros test []].
  - inversion Hall as [|? ? Ht Hts]; subst.
    destruct (remove_matching_document st Ht) as [S1 F1].
    destruct (IH (remove_matching st t) Hts) as [S2 F2]. split.
    + eapply shrunk_trans; eassumption.
    + intros test [<- | Hin]; [|now apply F2].
      now apply (free_of_shrunk Ht S2).
Qed.

Lemma tag_is_shallow t : shallow (tag_is t).
Proof. intros e e' Ht _. unfold tag_is. now rewrite Ht. Qed.

Lemma role_selector_shallow t role :
  shallow (fun e => tag_is t e && attr_is (U "role") role e).
Proof.
  intros e e' Ht Ha. unfold tag_is, attr_is, get_opt, is_element. now rewrite Ht, Ha.
Qed.

Lemma semantic_tags_shallow : Forall shallow semantic_tags_to_remove.
Proof.
  unfold semantic_tags_to_remove.
  repeat (apply Forall_cons;
          [first [apply tag_is_shallow | apply role_selector_shallow]|]).
  apply Forall_nil.
Qed.

Lemma str_eqb_refl (a : str) : str_eqb a a = true.
Proof. now apply str_eqb_eq. Qed.

Lemma free_of_tags (tags : list str) (doc : Element) :
  ~ In [] tags ->
  (forall t, In t tags -> free_of (tag_is t) doc) ->
  forall n, In n (descendants doc) -> ~ In (tag n) tags.
Proof.
  intros Hne H n Hn Hin. specialize (H (tag n) Hin n Hn).
  rewrite tag_is_intro in H; [discriminate H | | reflexivity].
  intros E. apply Hne. now rewrite <- E.
Qed.

Lemma free_of_roles (t : str) (roles : list str) (doc : Element) :
  (forall role, In role roles ->
                free_of (fun e => tag_is t e && attr_is (U "role") role e) doc) ->
  forall n, In n (descendants doc) -> tag n = t ->
            ~ In (get_opt n (U "role")) (map Some roles).
Proof.
  intros H n Hn Ht Hin. apply in_map_iff in Hin as [role [E Hrole]].
  specialize (H role Hrole n Hn). cbv beta in H.
  assert (Hel : node_tag n = Name t).
  { unfold get_opt, is_element in E. unfold tag in Ht.
    destruct (node_tag n) as [name| |]; [now subst | discriminate E | discriminate E]. }
  apply tag_is_name in Hel. rewrite Hel in H.
  unfold attr_is in H. rewrite <- E, str_eqb_refl in H. discriminate H.
Qed.

Lemma semantic_tags_to_remove_eq :
  semantic_tags_to_remove
  = map tag_is (words ["header"; "footer"; "nav"; "aside"]%string)
    ++ map (fun role e => tag_is (U "div") e && attr_is (U "role") role e)
           (words ["navigation"; "banner"; "contentinfo"]%string)
    ++ map (fun role e => tag_is (U "section") e && attr_is (U "role") role e)
           (words ["navigation"]%string).
Proof. reflexivity. Qed.

(** *** The body seen by the scorer *)

Lemma child_smaller (e c : Element) : In c (children e) -> (size c < size e)%nat.
Proof.
  destruct e as [i t a x tl cs]. simpl.
  induction cs as [|c0 cs IH]; [intros []|].
  simpl. intros [-> | H]; [lia|]. specialize (IH H). lia.
Qed.

Lemma child_in_descendants (e c : Element) : In c (children e) -> In c (descendants e).
Proof.
  rewrite descendants_children. intros H. apply in_flat_map. exists c. split; [exact H|].
  now left.
Qed.

Lemma descendants_of_child (e c : Element) :
  In c (children e) -> incl (descendants c) (descendants e).
Proof.
  intros H n Hn. rewrite (descendants_children e). apply in_flat_map.
  exists c. split; [exact H | now right].
Qed.

Lemma prune_in (x : nat) (cs : list Element) (c : Element) :
  In c cs -> eid c <> x -> In (remove_elem x c) (prune x cs).
Proof.
  induction cs as [|c0 cs IH]; [intros []|].
  rewrite prune_cons. intros [-> | H] Hx.
  - apply Nat.eqb_neq in Hx. rewrite Hx. now left.
  - destruct (Nat.eqb (eid c0) x); [now apply IH | right; now apply IH].
Qed.

Lemma detach_body_is_child (x : Element) (p : Page) :
  eid x <> eid (body p) -> body_is_child p -> body_is_child (detach x p).
Proof.
  intros Hx [Hchild Huniq]. unfold detach. split; simpl.
  - rewrite children_remove_elem. apply prune_in; [exact Hchild | congruence].
  - intros n Hn Hid.
    destruct (remove_elem_shallow (eid x) (body p)) as [Eb _]. rewrite Eb in Hid.
    destruct Hn as [<- | Hn].
    + destruct (remove_elem_shallow (eid x) (document p)) as [Ed _]. rewrite Ed in Hid.
      f_equal. apply Huniq; [now left | exact Hid].
    + destruct (descendants_remove_elem _ _ _ Hn) as [n0 [H0 [-> _]]].
      destruct (remove_elem_shallow (eid x) n0) as [E0 _]. rewrite E0 in Hid.
      f_equal. apply Huniq; [now right | exact Hid].
Qed.

Lemma remove_each_root (has_parent : Element -> bool) (elements : list Element)
      (st : Page * Z) :
  body (fst st) = document (fst st) ->
  body (fst (remove_each has_parent elements st))
  = document (fst (remove_each has_parent elements st)).
Proof.
  unfold remove_each. revert st.
  induction elements as [|el0 elements IH]; intros st H; simpl; [exact H|].
  apply IH. destruct (has_parent el0); [|exact H].
  unfold detach. simpl. now rewrite H.
Qed.

Lemma remove_each_child (has_parent : Element -> bool) (elements : list Element)
      (st : Page * Z) :
  (forall el, In el elements -> eid el <> eid (body (fst st))) ->
  body_is_child (fst st) ->
  body_is_child (fst (remove_each has_parent elements st))
  /\ tag (body (fst (remove_each has_parent elements st))) = tag (body (fst st)).
Proof.
  unfold remove_each. revert st.
  induction elements as [|el0 elements IH]; intros st Hx Hb; simpl; [now split|].
  set (st1 := if has_parent el0 then (detach el0 (fst st), snd st + 1) else st).
  assert (B1 : body_is_child (fst st1)
               /\ eid (body (fst st1)) = eid (body (fst st))
               /\ tag (body (fst st1)) = tag (body (fst st))).
  { subst st1. destruct (has_parent el0); [|split; [exact Hb | split; reflexivity]].
    destruct (remove_elem_shallow (eid el0) (body (fst st))) as [E1 [E2 _]].
    split; [|split; assumption].
    apply detach_body_is_child; [|exact Hb]. apply Hx. now left. }
  destruct B1 as [B1 [E1 E2]].
  destruct (IH st1) as [B2 F2]; [| exact B1 |].
  - intros el Hel. rewrite E1. apply Hx. now right.
  - split; [exact B2 | congruence].
Qed.

Lemma remove_matching_child (st : Page * Z) (test : Element -> bool) :
  test (body (fst st)) = false ->
  body_is_child (fst st) ->
  body_is_child (fst (remove_matching st test))
  /\ tag (body (fst (remove_matching st test))) = tag (body (fst st)).
Proof.
  intros Ht Hb. unfold remove_matching. apply remove_each_child; [|exact Hb].
  destruct Hb as [Hchild Huniq].
  intros el Hel Hid. apply filter_In in Hel as [Hin Htest].
  rewrite (Huniq el Hin Hid) in Htest. congruence.
Qed.

Lemma remove_tags_root (tags : list str) (st : Page * Z) :
  body (fst st) = document (fst st) ->
  body (fst (fold_left remove_matching (map tag_is tags) st))
  = document (fst (fold_left remove_matching (map tag_is tags) st)).
Proof.
  revert st. induction tags as [|t tags IH]; intros st H; simpl; [exact H|].
  apply IH. unfold remove_matching. now apply remove_each_root.
Qed.

Lemma remove_tags_child (tags : list str) (st : Page * Z) :
  ~ In (tag (body (fst st))) tags ->
  body_is_child (fst st) ->
  body_is_child (fst (fold_left remove_matching (map tag_is tags) st)).
Proof.
  revert st. induction tags as [|t tags IH]; intros st Ht Hb; simpl; [exact Hb|].
  destruct (remove_matching_child st (tag_is t)) as [B1 E1]; [| exact Hb |].
  - apply tag_is_other. intros E. apply Ht. left. now symmetry.
  - apply IH; [|exact B1]. rewrite E1. intros H. apply Ht. now right.
Qed.

(** The body the scorer receives is still the root of the cleaned document
    or one of its children. *)
Lemma cleaned_body_in_document {UD : UnicodeData} (p : Page) :
  body p = document p
  \/ (body_is_child p /\ ~ In (tag (body p)) (words ["header"; "footer"; "nav"]%string)) ->
  let cleaned := fst (remove_page_level_header_footer p) in
  body cleaned = document cleaned \/ In (body cleaned) (children (document cleaned)).
Proof.
  intros H. cbv zeta. unfold remove_page_level_header_footer.
  change [tag_is (U "header"); tag_is (U "footer"); tag_is (U "nav")]
    with (map tag_is (words ["header"; "footer"; "nav"]%string)).
  set (st := fold_left remove_matching
               (map tag_is (words ["header"; "footer"; "nav"]%string)) (p, 0)).
  destruct H as [Hroot | [Hchild Htag]].
  - left. apply remove_each_root. subst st. now apply remove_tags_root.
  - right.
    assert (B : body_is_child (fst st)) by (subst st; now apply remove_tags_child).
    destruct (remove_each_child (fun _ => true)
                (filter is_header_footer (xpath_child (tag_is (U "div")) (body (fst st))))
                st) as [[B2 _] _]; [| exact B | exact B2].
    intros el Hel Hid. apply filter_In in Hel as [Hel _].
    apply filter_In in Hel as [Hel _]. destruct B as [Hin Huniq].
    assert (E : el = body (fst st)).
    { apply Huniq; [|exact Hid]. right.
      apply (descendants_of_child _ _ Hin). apply child_in_descendants. exact Hel. }
    apply child_smaller in Hel. rewrite E in Hel. lia.
Qed.

(** C2, as amended — after the cleaning that precedes scoring
    ([remove_page_level_header_footer]) no element other than the root of
    the document has the tag [header], [footer] or [nav], and the same
    holds below the body handed to the scorer, when that body is the root or
    a child of the root with an identity of its own; after the stricter
    variant ([remove_semantic_interference_tags]) no element other than the
    root has the tag [header], [footer], [nav] or [aside] either, no [div]
    carries the role [navigation], [banner] or [contentinfo], and no
    [section] carries the role [navigation].  Both passes only take
    elements away. *)
Theorem semantic_removal {UD : UnicodeData} (p : Page) :
  let cleaned := fst (remove_page_level_header_footer p) in
  let strict := document (remove_semantic_interference_tags p) in
  (forall n, In n (descendants (document cleaned)) ->
             ~ In (tag n) (words ["header"; "footer"; "nav"]%string))
  /\ (body p = document p
      \/ (body_is_child p
          /\ ~ In (tag (body p)) (words ["header"; "footer"; "nav"]%string)) ->
      forall n, In n (descendants (body cleaned)) ->
                ~ In (tag n) (words ["header"; "footer"; "nav"]%string))
  /\ shrunk (document cleaned) (document p)
  /\ (forall n, In n (descendants strict) ->
                ~ In (tag n) (words ["header"; "footer"; "nav"; "aside"]%string)
                /\ (tag n = U "div" ->
                    ~ In (get_opt n (U "role"))
                         (map Some (words ["navigation"; "banner"; "contentinfo"]%string)))
                /\ (tag n = U "section" -> get_opt n (U "role") <> Some (U "navigation")))
  /\ shrunk strict (document p).
Proof.
  cbv zeta.
  set (tags3 := words ["header"; "footer"; "nav"]%string).
  assert (T3 : Forall shallow (map tag_is tags3)).
  { apply Forall_forall. intros test Ht. apply in_map_iff in Ht as [t [<- _]].
    apply tag_is_shallow. }
  destruct (remove_matching_rounds (p, 0) T3) as [S1 F1].
  destruct (remove_matching_rounds (p, 0) semantic_tags_shallow) as [S3 F3].
  assert (Hdoc : forall n,
             In n (descendants (document (fst (remove_page_level_header_footer p)))) ->
             ~ In (tag n) tags3).
  { unfold remove_page_level_header_footer.
    change [tag_is (U "header"); tag_is (U "footer"); tag_is (U "nav")]
      with (map tag_is tags3).
    set (st := fold_left remove_matching (map tag_is tags3) (p, 0)) in *.
    destruct (remove_each_document (fun _ => true)
                (filter is_header_footer (xpath_child (tag_is (U "div")) (body (fst st))))
                st) as [S2 _].
    apply free_of_tags.
    { intros Hin. repeat (destruct Hin as [Hin | Hin]; [discriminate Hin|]). destruct Hin. }
    intros t Ht.
    apply (free_of_shrunk (tag_is_shallow t) S2). apply F1. now apply in_map. }
  split; [exact Hdoc | split; [|split; [|split]]].
  - intros Hbody n Hn. apply Hdoc.
    destruct (cleaned_body_in_document Hbody) as [E | Hchild].
    + exact (eq_ind _ (fun e => In n (descendants e)) Hn _ E).
    + exact (descendants_of_child _ _ Hchild n Hn).
  - unfold remove_page_level_header_footer.
    change [tag_is (U "header"); tag_is (U "footer"); tag_is (U "nav")]
      with (map tag_is tags3).
    set (st := fold_left remove_matching (map tag_is tags3) (p, 0)) in *.
    destruct (remove_each_document (fun _ => true)
                (filter is_header_footer (xpath_child (tag_is (U "div")) (body (fst st))))
                st) as [S2 _].
    eapply shrunk_trans; [exact S2 | exact S1].
  - unfold remove_semantic_interference_tags.
    rewrite semantic_tags_to_remove_eq in F3.
    intros n Hn. split; [|split].
    + revert n Hn. apply free_of_tags.
      { intros Hin. repeat (destruct Hin as [Hin | Hin]; [discriminate Hin|]).
        destruct Hin. }
      intros t Ht. apply F3.
      apply in_or_app. left. now apply in_map.
    + intros Hdiv. revert n Hn Hdiv. apply free_of_roles. intros role Hr. apply F3.
      apply in_or_app. right. apply in_or_app. left.
      exact (in_map (fun role e => tag_is (U "div") e && attr_is (U "role") role e)
                    _ role Hr).
    + intros Hsec E.
      refine (@free_of_roles (U "section") (words ["navigation"]%string) _ _ n Hn Hsec _);
        [| rewrite E; left; reflexivity].
      intros role Hr. apply F3.
      apply in_or_app. right. apply in_or_app. right.
      exact (in_map (fun role e => tag_is (U "section") e && attr_is (U "role") role e)
                    _ role Hr).
  - exact S3.
Qed.

(** C2, as stated, fails in the stricter variant on an element that is
    neither a [div] nor a [section]: a [ul role="navigation"] and a
    [section role="banner"] both stay. *)
Lemma semantic_removal_counterexample :
  map (fun n => (tag n, get_opt n (U "role")))
      (descendants (document
         (remove_semantic_interference_tags page_with_roles)))
  = [ (U "body", None);
      (U "ul", Some (U "navigation"));
      (U "li", None);
      (U "section", Some (U "banner")) ].
Proof. vm_compute. reflexivity. Qed.

(** ** Locator generator: the recursive call *)

Section LocatorRecursion.
Context {UD : UnicodeData}.

Lemma scan_children_truthy (x : nat) (parent : Element) (cs : list Element)
      (chain : list Element) :
  truthy parent = true ->
  Forall (fun c => forall chain, parent_chain x c = Some chain ->
                                 Forall (fun a => truthy a = true) chain) cs ->
  scan_children x parent cs = Some chain ->
  Forall (fun a => truthy a = true) chain.
Proof.
  intros Ht. induction cs as [|c cs IHcs]; intros IH; [discriminate|].
  inversion IH as [|? ? Hc Hcs]; subst.
  rewrite scan_children_cons. destruct (Nat.eqb (eid c) x).
  - intros E. injection E as <-. now constructor.
  - destruct (parent_chain x c) as [ch|] eqn:Ec.
    + intros E. injection E as <-. apply Forall_app. split; [now apply Hc|].
      now constructor.
    + now apply IHcs.
Qed.

Lemma parent_chain_truthy (e : Element) (x : nat) (chain : list Element) :
  parent_chain x e = Some chain -> Forall (fun a => truthy a = true) chain.
Proof.
  revert chain. induction e as [i t a tx tl cs IH] using Element_ind. intros chain.
  rewrite parent_chain_scan. simpl children.
  destruct cs as [|c cs]; [discriminate|].
  now apply scan_children_truthy.
Qed.

Lemma ancestors_truthy (doc x a : Element) :
  In a (ancestors doc x) -> truthy a = true.
Proof.
  unfold ancestors. destruct (parent_chain (eid x) doc) as [chain|] eqn:E; [|intros []].
  intros H. pose proof (parent_chain_truthy doc (eid x) E) as F.
  rewrite Forall_forall in F. now apply F.
Qed.

Lemma take_while_incl {A : Type} (f : A -> bool) (l : list A) :
  incl (take_while f l) l.
Proof.
  induction l as [|x l IH]; simpl; [apply incl_refl|].
  destruct (f x); [|intros y []].
  intros y [<- | H]; [now left | right; now apply IH].
Qed.

(** The ancestor [generate_xpath] calls itself on is answered from its own
    attributes, so the recursion stops there. *)
Lemma generate_xpath_on_ancestor (doc element ancestor : Element) (n m : nat) :
  find_closest_clean_identifier doc element = Some ancestor ->
  generate_xpath_rec (S n) doc ancestor = generate_xpath_rec (S m) doc ancestor.
Proof.
  unfold find_closest_clean_identifier. intros H.
  apply find_some in H as [Hin Hclean]. apply take_while_incl in Hin.
  apply ancestors_truthy in Hin. cbn [generate_xpath_rec].
  unfold generate_xpath_body. rewrite Hin. cbn [negb].
  destruct (clean_value (get_opt ancestor (U "id"))) eqn:Eid; [reflexivity|].
  unfold has_clean_identifier in Hclean. rewrite Eid in Hclean. cbn [orb] in Hclean.
  destruct (get_opt ancestor (U "class")) as [classes|]; [|discriminate Hclean].
  apply andb_true_iff in Hclean as [Hne _]. rewrite Hne. reflexivity.
Qed.

(** Two levels of [generate_xpath_rec] are always enough: more fuel gives
    the same locator, which is the one [generate_xpath] returns. *)
Lemma generate_xpath_fuel (doc element : Element) (n : nat) :
  generate_xpath_rec (S (S n)) doc element = generate_xpath doc element.
Proof.
  assert (G : forall k, generate_xpath_rec (S (S k)) doc element
                        = generate_xpath_rec 2 doc element).
  { intros k.
    change (generate_xpath_body (generate_xpath_rec (S k) doc) doc element
            = generate_xpath_body (generate_xpath_rec 1 doc) doc element).
    unfold generate_xpath_body.
    destruct (find_closest_clean_identifier doc element) as [ancestor|] eqn:E;
      [|reflexivity].
    now rewrite (generate_xpath_on_ancestor doc element k 0 E). }
  unfold generate_xpath. destruct (ancestors doc element) as [|a l] eqn:Ea.
  - change (generate_xpath_rec (S (S n)) doc element)
      with (generate_xpath_body (generate_xpath_rec (S n) doc) doc element).
    change (generate_xpath_rec (S (List.length (@nil Element))) doc element)
      with (generate_xpath_body (generate_xpath_rec 0 doc) doc element).
    unfold generate_xpath_body, find_closest_clean_identifier. rewrite Ea. reflexivity.
  - cbn [List.length]. now rewrite !G.
Qed.

End LocatorRecursion.

(** ** Sorting *)

Lemma key_ltb_false (k1 k2 : Z * Z) : key_ltb k1 k2 = false <-> key_le k2 k1.
Proof.
  unfold key_ltb, key_le. rewrite orb_false_iff, andb_false_iff.
  rewrite !Z.ltb_ge, Z.eqb_neq. lia.
Qed.

Lemma key_ltb_true (k1 k2 : Z * Z) : key_ltb k1 k2 = true -> key_le k1 k2.
Proof.
  unfold key_ltb, key_le. rewrite orb_true_iff, andb_true_iff.
  rewrite !Z.ltb_lt, Z.eqb_eq. lia.
Qed.

Lemma key_ltb_lt (k1 k2 : Z * Z) : key_ltb k1 k2 = true <-> key_lt k1 k2.
Proof.
  unfold key_ltb, key_lt. rewrite orb_true_iff, andb_true_iff.
  rewrite !Z.ltb_lt, Z.eqb_eq. reflexivity.
Qed.

Lemma key_le_trans (k1 k2 k3 : Z * Z) : key_le k1 k2 -> key_le k2 k3 -> key_le k1 k3.
Proof. unfold key_le. lia. Qed.

Section SortFacts.
Variable A : Type.
Variable key : A -> Z * Z.

Lemma insert_by_perm (x : A) (l : list A) : Permutation (insert_by key x l) (x :: l).
Proof.
  induction l as [|y l IH]; simpl; [apply Permutation_refl|].
  destruct (key_ltb (key y) (key x)); [|apply Permutation_refl].
  eapply perm_trans; [apply perm_skip, IH | apply perm_swap].
Qed.

Lemma sort_by_perm (l : list A) : Permutation (sort_by key l) l.
Proof.
  induction l as [|x l IH]; simpl; [apply perm_nil|].
  eapply perm_trans; [apply insert_by_perm | now apply perm_skip].
Qed.

(** The first element of a sorted list has the least key. *)
Lemma sort_by_head (l : list A) (h : A) (t : list A) :
  sort_by key l = h :: t -> forall y, In y l -> key_le (key h) (key y).
Proof.
  revert h t. induction l as [|x l IH]; intros h t; simpl; [discriminate|].
  destruct (sort_by key l) as [|m s] eqn:Es; simpl.
  - intros E y Hy. injection E as <- <-.
    assert (l = []) as ->.
    { apply Permutation_nil. rewrite <- Es. apply sort_by_perm. }
    destruct Hy as [<- | []]. unfold key_le. lia.
  - specialize (IH m s eq_refl).
    destruct (key_ltb (key m) (key x)) eqn:E.
    + intros Eh y Hy. injection Eh as <- <-. destruct Hy as [<- | Hy].
      * now apply key_ltb_true.
      * now apply IH.
    + intros Eh y Hy. injection Eh as <- <-. apply key_ltb_false in E.
      destruct Hy as [<- | Hy]; [unfold key_le; lia|].
      eapply key_le_trans; [exact E | now apply IH].
Qed.

(** The sort is stable: an element whose key is below the keys of the
    elements before it and not above the keys of those after it comes
    first. *)
Lemma sort_by_first_least (before after : list A) (x : A) :
  (forall y, In y before -> key_lt (key x) (key y)) ->
  (forall y, In y after -> key_le (key x) (key y)) ->
  exists t, sort_by key (before ++ x :: after) = x :: t.
Proof.
  intros Hb Ha. induction before as [|b before IH]; simpl.
  - destruct (sort_by key after) as [|m s] eqn:Es; simpl; [eauto|].
    assert (Hm : In m after).
    { apply (Permutation_in _ (sort_by_perm after)). rewrite Es. now left. }
    destruct (key_ltb (key m) (key x)) eqn:E; [|eauto].
    apply key_ltb_lt in E. specialize (Ha m Hm). unfold key_lt, key_le in *. lia.
  - destruct IH as [t ->]; [intros y Hy; apply Hb; now right|].
    simpl. assert (E : key_ltb (key x) (key b) = true) by (apply key_ltb_lt, Hb; now left).
    rewrite E. eauto.
Qed.

(** Some element that passes a test comes first among those that pass it. *)
Lemma first_least_exists (test : A -> bool) (l : list A) :
  (exists x, In x l /\ test x = true) ->
  exists before x after,
    l = before ++ x :: after
    /\ test x = true
    /\ (forall y, In y before -> test y = true -> key_lt (key x) (key y))
    /\ (forall y, In y after -> test y = true -> key_le (key x) (key y)).
Proof.
  induction l as [|h l IH]; [intros [x [[] _]]|].
  intros Hex. destruct (existsb test l) eqn:El.
  - apply existsb_exists in El. destruct (IH El) as [before [x [after [-> [Hx [Hb Ha]]]]]].
    destruct (test h && negb (key_ltb (key x) (key h))) eqn:Eh.
    + apply andb_true_iff in Eh as [Eh Ek]. apply negb_true_iff, key_ltb_false in Ek.
      exists [], h, (before ++ x :: after). repeat split; try assumption; [intros y []|].
      intros y Hy Ty. apply in_app_or in Hy as [Hy | [<- | Hy]].
      * specialize (Hb y Hy Ty). unfold key_lt, key_le in *. lia.
      * exact Ek.
      * specialize (Ha y Hy Ty). unfold key_le in *. lia.
    + exists (h :: before), x, after. repeat split; try assumption.
      intros y [<- | Hy] Ty; [|now apply Hb].
      rewrite Ty in Eh. simpl in Eh. apply negb_false_iff in Eh. now apply key_ltb_lt.
  - assert (Hl : forall y, In y l -> test y = false).
    { intros y Hy. destruct (test y) eqn:E; [|reflexivity].
      rewrite <- El. symmetry. apply existsb_exists. eauto. }
    destruct (test h) eqn:Eh.
    + exists [], h, l. repeat split; try assumption; [intros y []|].
      intros y Hy Ty. rewrite (Hl y Hy) in Ty. discriminate Ty.
    + exfalso. destruct Hex as [x [[<- | Hx] Tx]]; [congruence|].
      rewrite (Hl x Hx) in Tx. discriminate Tx.
Qed.
End SortFacts.

Lemma sort_desc_perm {A : Type} (score : A -> Z) (l : list A) :
  Permutation (sort_desc score l) l.
Proof. apply sort_by_perm. Qed.

Lemma sort_desc_head {A : Type} (score : A -> Z) (l : list A) (h : A) (t : list A) :
  sort_desc score l = h :: t -> forall y, In y l -> score y <= score h.
Proof.
  intros E y Hy. pose proof (sort_by_head _ l E y Hy) as H.
  unfold key_le in H. simpl in H. lia.
Qed.

(** ** Candidate selector *)

Lemma enumerate_from_in {A : Type} (l : list A) (k : nat) (x : A) :
  In x l -> exists i, In (i, x) (combine (seq k (List.length l)) l).
Proof.
  revert k. induction l as [|y l IH]; intros k; [intros []|].
  simpl. intros [-> | H].
  - exists k. now left.
  - destruct (IH (S k) H) as [i Hi]. exists i. now right.
Qed.

Lemma enumerate_from_fun {A : Type} (l : list A) (k i : nat) (x y : A) :
  In (i, x) (combine (seq k (List.length l)) l) ->
  In (i, y) (combine (seq k (List.length l)) l) -> x = y.
Proof.
  revert k. induction l as [|z l IH]; intros k; [intros []|].
  simpl. intros [E1 | H1] [E2 | H2].
  - congruence.
  - injection E1 as <- <-. apply in_combine_l, in_seq in H2. lia.
  - injection E2 as <- <-. apply in_combine_l, in_seq in H1. lia.
  - eapply IH; eassumption.
Qed.

Lemma nested_pairs_in (doc : Element) (l : list Element) (a d : Element) :
  In (a, d) (nested_pairs doc l) <->
  exists i j, In (i, a) (enumerate l) /\ In (j, d) (enumerate l)
              /\ i <> j /\ is_child_of doc d a = true.
Proof.
  unfold nested_pairs. rewrite in_flat_map. split.
  - intros [[i a'] [Hi H]]. apply in_flat_map in H as [[j d'] [Hj H]]. simpl in H.
    destruct (Nat.eqb i j) eqn:E; simpl in H; [destruct H|].
    destruct (is_child_of doc d' a') eqn:Ec; [|destruct H].
    destruct H as [H | []]. injection H as <- <-.
    exists i, j. repeat split; try assumption. now apply Nat.eqb_neq.
  - intros [i [j [Hi [Hj [Hne Hc]]]]]. exists (i, a). split; [exact Hi|].
    apply in_flat_map. exists (j, d). split; [exact Hj|]. simpl.
    apply Nat.eqb_neq in Hne. rewrite Hne, Hc. now left.
Qed.

Lemma nested_pairs_members (doc : Element) (l : list Element) (a d : Element) :
  In (a, d) (nested_pairs doc l) ->
  In a l /\ In d l /\ is_child_of doc d a = true.
Proof.
  intros H. apply nested_pairs_in in H as [i [j [Hi [Hj [_ Hc]]]]].
  repeat split; [eapply in_combine_r; exact Hi | eapply in_combine_r; exact Hj | exact Hc].
Qed.

Lemma nested_pairs_intro (doc : Element) (l : list Element) (a d : Element) :
  In a l -> In d l -> eid a <> eid d -> is_child_of doc d a = true ->
  In (a, d) (nested_pairs doc l).
Proof.
  intros Ha Hd Hne Hc. apply nested_pairs_in.
  destruct (enumerate_from_in l 0 a Ha) as [i Hi].
  destruct (enumerate_from_in l 0 d Hd) as [j Hj].
  exists i, j. repeat split; try assumption.
  intros ->. apply Hne. f_equal. eapply enumerate_from_fun; eassumption.
Qed.

Lemma enumerate_from_inj {A : Type} (l : list A) (k i j : nat) (x : A) :
  NoDup l ->
  In (i, x) (combine (seq k (List.length l)) l) ->
  In (j, x) (combine (seq k (List.length l)) l) -> i = j.
Proof.
  revert k. induction l as [|z l IH]; intros k Hnd; [intros []|].
  inversion Hnd as [|? ? Hz Hl]; subst.
  simpl. intros [E1 | H1] [E2 | H2].
  - congruence.
  - injection E1 as <- <-. apply in_combine_r in H2. contradiction.
  - injection E2 as <- <-. apply in_combine_r in H1. contradiction.
  - eapply IH; eassumption.
Qed.

Lemma same_identity (l : list Element) (x y : Element) :
  NoDup (map eid l) -> In x l -> In y l -> eid x = eid y -> x = y.
Proof.
  induction l as [|z l IH]; [intros _ []|].
  simpl. intros Hnd. inversion Hnd as [|? ? Hz Hl]; subst.
  intros [-> | Hx] [-> | Hy] E.
  - reflexivity.
  - exfalso. apply Hz. rewrite E. now apply in_map.
  - exfalso. apply Hz. rewrite <- E. now apply in_map.
  - now apply IH.
Qed.

Lemma NoDup_map_filter {A B : Type} (g : A -> B) (f : A -> bool) (l : list A) :
  NoDup (map g l) -> NoDup (map g (filter f l)).
Proof.
  induction l as [|x l IH]; simpl; [trivial|].
  intros H. inversion H as [|? ? Hx Hl]; subst.
  destruct (f x); [|now apply IH]. simpl. constructor; [|now apply IH].
  intros Hin. apply Hx. apply in_map_iff in Hin as [y [E Hy]].
  apply filter_In in Hy as [Hy _]. rewrite <- E. now apply in_map.
Qed.

Lemma filter_all {A : Type} (l : list A) : filter (fun _ => true) l = l.
Proof. induction l as [|x l IH]; [reflexivity|]. cbn [filter]. now rewrite IH. Qed.

Lemma filter_none {A : Type} (f : A -> bool) (l : list A) :
  (forall x, In x l -> f x = false) -> filter f l = [].
Proof.
  induction l as [|x l IH]; intros H; [reflexivity|].
  cbn [filter]. rewrite (H x (or_introl eq_refl)). apply IH.
  intros y Hy. apply H. now right.
Qed.

Lemma two_members {A : Type} (l : list A) (x y : A) :
  In x l -> In y l -> x <> y -> 1 < count_of l.
Proof.
  unfold count_of. destruct l as [|a [|b l]]; simpl.
  - intros [].
  - intros [<- | []] [<- | []] H. now contradiction H.
  - lia.
Qed.

(** With distinct identities, [next(...)] finds the entry of a scored
    candidate. *)
Lemma next_score_found (l : list (Element * Z)) (c : Element) (s : Z) :
  NoDup (map eid (map fst l)) -> In (c, s) l -> next_score l c = Ok s.
Proof.
  unfold next_score. induction l as [|[c0 s0] l IH]; [intros _ []|].
  simpl. intros Hnd. inversion Hnd as [|? ? Hc Hl]; subst.
  unfold same_element at 1. simpl. intros [E | Hin].
  - injection E as -> ->. now rewrite Nat.eqb_refl.
  - destruct (Nat.eqb (eid c0) (eid c)) eqn:E.
    + exfalso. apply Hc. apply Nat.eqb_eq in E. rewrite E.
      apply in_map. apply in_map_iff. now exists (c, s).
    + now apply IH.
Qed.

Lemma exc_map_total {A B : Type} (f : A -> exc B) (g : A -> B) (l : list A) :
  (forall x, In x l -> f x = Ok (g x)) -> exc_map f l = Ok (map g l).
Proof.
  induction l as [|x l IH]; intros H; simpl; [reflexivity|].
  rewrite (H x (or_introl eq_refl)). simpl.
  rewrite IH; [reflexivity|]. intros y Hy. apply H. now right.
Qed.

Lemma valid_children_of_in (pairs : list pair_entry) (v : valid_entry) :
  In v (valid_children_of pairs) <->
  exists e, In e pairs
            /\ pe_parent_score e - pe_child_score e <= 20
            /\ 150 <= pe_child_score e
            /\ v = (pe_child e, pe_child_score e, pe_parent_score e - pe_child_score e).
Proof.
  unfold valid_children_of. rewrite in_flat_map. split.
  - intros [e [He H]]. exists e. split; [exact He|].
    destruct (pe_parent_score e - pe_child_score e <=? 20) eqn:E1; [|destruct H].
    destruct (150 <=? pe_child_score e) eqn:E2; [|destruct H].
    apply Z.leb_le in E1, E2. destruct H as [<- | []]. now repeat split.
  - intros [e [He [H1 [H2 ->]]]]. exists e. split; [exact He|].
    apply Z.leb_le in H1, H2. rewrite H1, H2. now left.
Qed.

Lemma valid_children_of_app (l1 l2 : list pair_entry) :
  valid_children_of (l1 ++ l2) = valid_children_of l1 ++ valid_children_of l2.
Proof. unfold valid_children_of. apply flat_map_app. Qed.

(** The heart of the tie-break: with distinct identities and known scores,
    the descendant taken is the one of the qualifying pair that comes first
    in the ranking by [pair_key], and it is measured against the ancestor
    of the first pair found for it. *)
Lemma select_best_first_least (doc : Element) (similar : list Element)
      (all : list (Element * Z)) (a0 a d : Element) :
  let valid (pc : Element * Element) : Prop :=
    score_in all (fst pc) - score_in all (snd pc) <= 20 /\ 150 <= score_in all (snd pc) in
  NoDup (map eid similar) ->
  (forall c, In c similar -> exists s, next_score all c = Ok s) ->
  first_least (pair_key (score_in all)) valid (nested_pairs doc similar) (a0, d) ->
  first_parent (nested_pairs doc similar) d a ->
  select_best_container_prefer_child doc similar all
  = Ok (Some (if under_60_percent (text_length d) (text_length a) then a else d)).
Proof.
  cbv zeta. intros Hnd Hscore [before [after [Eb [[Hdiff H150] [Hbefore Hafter]]]]]
                   [first [rest [Ef Hfirst]]].
  simpl in Hdiff, H150.
  set (entry := fun pc : Element * Element =>
                  (fst pc, snd pc, score_in all (fst pc), score_in all (snd pc)) : pair_entry).
  assert (Hmembers : forall pc, In pc (nested_pairs doc similar) ->
                                In (fst pc) similar /\ In (snd pc) similar).
  { intros [x y] H. apply nested_pairs_members in H. tauto. }
  assert (Hlookup : forall c, In c similar -> next_score all c = Ok (score_in all c)).
  { intros c Hc. unfold score_in. destruct (Hscore c Hc) as [s ->]. reflexivity. }
  unfold select_best_container_prefer_child.
  rewrite (exc_map_total _ entry).
  2: { intros pc Hpc. destruct (Hmembers pc Hpc) as [H1 H2].
       rewrite (Hlookup _ H1). simpl. rewrite (Hlookup _ H2). reflexivity. }
  simpl exc_bind.
  set (key := fun v : valid_entry => (- snd (fst v), snd v)).
  assert (Hvalid : forall l v,
             In v (valid_children_of (map entry l)) ->
             exists pc, In pc l
                        /\ (score_in all (fst pc) - score_in all (snd pc) <= 20
                            /\ 150 <= score_in all (snd pc))
                        /\ key v = pair_key (score_in all) pc).
  { intros l v Hv. apply valid_children_of_in in Hv as [e [He [H1 [H2 ->]]]].
    apply in_map_iff in He as [pc [<- Hpc]]. exists pc. now repeat split. }
  destruct (@sort_by_first_least _ key (valid_children_of (map entry before))
              (valid_children_of (map entry after))
              (d, score_in all d, score_in all a0 - score_in all d)) as [t Et].
  { intros v Hv. destruct (Hvalid _ _ Hv) as [pc [Hpc [Hq ->]]]. now apply Hbefore. }
  { intros v Hv. destruct (Hvalid _ _ Hv) as [pc [Hpc [Hq ->]]]. now apply Hafter. }
  assert (Es : sort_by key (valid_children_of (map entry (nested_pairs doc similar)))
               = (d, score_in all d, score_in all a0 - score_in all d) :: t).
  { etransitivity; [|exact Et].
    rewrite Eb, map_app, valid_children_of_app. do 2 f_equal.
    change (map entry ((a0, d) :: after)) with ([entry (a0, d)] ++ map entry after).
    rewrite valid_children_of_app. f_equal.
    unfold valid_children_of, entry, pe_parent_score, pe_child_score, pe_child. simpl.
    apply Z.leb_le in Hdiff, H150. now rewrite Hdiff, H150. }
  rewrite Es.
  assert (Efl : exists others,
             filter (fun e => same_element (pe_child e) d)
                    (map entry (nested_pairs doc similar)) = entry (a, d) :: others).
  { rewrite Ef, map_app, filter_app. rewrite (filter_none _ (map entry first)).
    - simpl. unfold same_element at 1. unfold pe_child at 1. simpl.
      rewrite Nat.eqb_refl. eauto.
    - intros e He. apply in_map_iff in He as [[a' d'] [<- Hpc]].
      unfold same_element, pe_child, entry. simpl.
      apply Nat.eqb_neq. intros E.
      assert (d' = d) as ->.
      { eapply same_identity; [exact Hnd | | | exact E].
        - apply (Hmembers (a', d')). rewrite Ef. apply in_or_app. now left.
        - apply (Hmembers (a, d)). rewrite Ef. apply in_or_app. right. now left. }
      exact (Hfirst a' Hpc). }
  destruct Efl as [others ->]. simpl.
  unfold pe_parent, entry. simpl.
  now destruct (under_60_percent (text_length d) (text_length a)).
Qed.

Lemma first_least_iff {A : Type} (key : A -> Z * Z) (P Q : A -> Prop) (l : list A) (x : A) :
  (forall y, In y l -> P y <-> Q y) ->
  first_least key P l x -> first_least key Q l x.
Proof.
  intros H [before [after [E [Hx [Hb Ha]]]]]. exists before, after.
  assert (Hin : forall y, In y before \/ y = x \/ In y after -> In y l).
  { intros y Hy. rewrite E. apply in_or_app. destruct Hy as [Hy | [-> | Hy]];
      [now left | right; now left | right; now right]. }
  split; [exact E|]. split; [apply H; auto|]. split.
  - intros y Hy Qy. apply Hb; [exact Hy|]. apply H; auto.
  - intros y Hy Qy. apply Ha; [exact Hy|]. apply H; auto.
Qed.

Lemma nested_pairs_short (doc : Element) (l : list Element) :
  count_of l <= 1 -> nested_pairs doc l = [].
Proof.
  unfold count_of. destruct l as [|x [|y l]]; simpl List.length; try lia; intros _.
  - reflexivity.
  - unfold nested_pairs. simpl. reflexivity.
Qed.

(** Whenever some pair qualifies there is a pair that comes first, and a
    first ancestor for its descendant. *)
Lemma best_pair_exists (score : Element -> Z) (doc : Element) (similar : list Element) :
  NoDup (map eid similar) ->
  (exists pc, In pc (nested_pairs doc similar) /\ qualifies score pc) ->
  exists a0 d a,
    first_least (pair_key score) (qualifies score) (nested_pairs doc similar) (a0, d)
    /\ first_parent (nested_pairs doc similar) d a.
Proof.
  intros Hnd Hex.
  set (test := fun pc : Element * Element =>
                 (Z.abs (score (fst pc) - score (snd pc)) <=? 20) && (150 <=? score (snd pc))).
  assert (Ht : forall pc, test pc = true <-> qualifies score pc).
  { intros pc. unfold test, qualifies. now rewrite andb_true_iff, !Z.leb_le. }
  destruct (@first_least_exists _ (pair_key score) test (nested_pairs doc similar))
    as [before [[a0 d] [after [E [Hx [Hb Ha]]]]]].
  { destruct Hex as [pc [Hpc Hq]]. exists pc. split; [exact Hpc | now apply Ht]. }
  destruct (@first_least_exists _ (fun _ => (0, 0))
              (fun pc : Element * Element => same_element (snd pc) d)
              (nested_pairs doc similar))
    as [first [[a d'] [rest [E' [Hd [Hf _]]]]]].
  { exists (a0, d). split; [rewrite E; apply in_or_app; right; now left|].
    apply Nat.eqb_refl. }
  assert (Hmem : forall x y, In (x, y) (nested_pairs doc similar) -> In y similar).
  { intros x y H. now apply nested_pairs_members in H. }
  assert (d' = d) as ->.
  { apply Nat.eqb_eq in Hd. simpl in Hd.
    eapply same_identity; [exact Hnd | | | exact Hd].
    - apply (Hmem a). rewrite E'. apply in_or_app. right. now left.
    - apply (Hmem a0). rewrite E. apply in_or_app. right. now left. }
  exists a0, d, a. split.
  - exists before, after. split; [exact E|]. split; [now apply Ht|]. split.
    + intros y Hy Qy. apply Hb; [exact Hy | now apply Ht].
    + intros y Hy Qy. apply Ha; [exact Hy | now apply Ht].
  - exists first, rest. split; [exact E'|]. intros a' Hin.
    specialize (Hf (a', d) Hin (Nat.eqb_refl _)). unfold key_lt in Hf. simpl in Hf. lia.
Qed.

Section SelectorFacts.
Context {UD : UnicodeData}.

Lemma score_containers_cons (c : Element) (cs : list Element) :
  score_containers (c :: cs) = score_containers [c] ++ score_containers cs.
Proof. unfold score_containers. simpl. now rewrite app_nil_r. Qed.

Lemma score_containers_single (c : Element) :
  score_containers [c] = [] \/ exists s, score_containers [c] = [(c, s)].
Proof.
  unfold score_containers. cbn [flat_map]. rewrite app_nil_r.
  destruct (is_protected c); [right; eauto|].
  destruct (calculate_content_container_score c <? -100); [now left|].
  destruct (-50 <? calculate_content_container_score c); [right; eauto | now left].
Qed.

Lemma score_containers_members (cs : list Element) (c : Element) (s : Z) :
  In (c, s) (score_containers cs) -> In c cs.
Proof.
  induction cs as [|c0 cs IH]; [intros []|].
  rewrite score_containers_cons. intros H. apply in_app_or in H as [H | H].
  - destruct (score_containers_single c0) as [E | [s0 E]]; rewrite E in H.
    + destruct H.
    + destruct H as [H | []]. injection H as -> _. now left.
  - right. now apply IH.
Qed.

Lemma score_containers_nodup (cs : list Element) :
  NoDup (map eid cs) -> NoDup (map eid (map fst (score_containers cs))).
Proof.
  induction cs as [|c0 cs IH]; [intros _; constructor|].
  intros H. simpl in H. inversion H as [|? ? Hc Hcs]; subst.
  rewrite score_containers_cons.
  destruct (score_containers_single c0) as [-> | [s0 ->]]; simpl; [now apply IH|].
  constructor; [|now apply IH].
  intros Hin. apply Hc. apply in_map_iff in Hin as [c [E Hin]].
  apply in_map_iff in Hin as [[c' s] [E' Hin]]. simpl in E'. subst c'.
  rewrite <- E. apply in_map. eapply score_containers_members. exact Hin.
Qed.

End SelectorFacts.

(** ** Binary64: the 60% test *)

(** The number of binary digits. *)
Lemma digits2_bounds (p : positive) :
  2 ^ (Zpos (digits2_pos p) - 1) <= Zpos p < 2 ^ Zpos (digits2_pos p).
Proof.
  induction p as [p IH | p IH |]; cbn [digits2_pos].
  - rewrite Pos2Z.inj_succ, (Pos2Z.inj_xI p).
    replace (Z.succ (Zpos (digits2_pos p)) - 1) with (Z.succ (Zpos (digits2_pos p) - 1)) by lia.
    rewrite !Z.pow_succ_r by lia.
    revert IH. generalize (2 ^ (Zpos (digits2_pos p) - 1)) (2 ^ Zpos (digits2_pos p)). lia.
  - rewrite Pos2Z.inj_succ, (Pos2Z.inj_xO p).
    replace (Z.succ (Zpos (digits2_pos p)) - 1) with (Z.succ (Zpos (digits2_pos p) - 1)) by lia.
    rewrite !Z.pow_succ_r by lia.
    revert IH. generalize (2 ^ (Zpos (digits2_pos p) - 1)) (2 ^ Zpos (digits2_pos p)). lia.
  - simpl. lia.
Qed.

Lemma digits2_unique (p : positive) (k : Z) :
  2 ^ (k - 1) <= Zpos p < 2 ^ k -> Zpos (digits2_pos p) = k.
Proof.
  intros [Hlo Hhi]. pose proof (digits2_bounds p) as [Dlo Dhi].
  assert (0 < k).
  { destruct (Z.lt_ge_cases 0 k) as [H | H]; [exact H|].
    assert (2 ^ k <= 2 ^ 0) by (apply Z.pow_le_mono_r; lia). simpl in *. lia. }
  destruct (Z.lt_trichotomy (Zpos (digits2_pos p)) k) as [H1 | [H1 | H1]]; [|exact H1|].
  - assert (2 ^ Zpos (digits2_pos p) <= 2 ^ (k - 1)) by (apply Z.pow_le_mono_r; lia). lia.
  - assert (2 ^ k <= 2 ^ (Zpos (digits2_pos p) - 1)) by (apply Z.pow_le_mono_r; lia). lia.
Qed.

Lemma iter_pos_nat {A : Type} (f : A -> A) (n : positive) (x : A) :
  iter_pos f n x = Nat.iter (Pos.to_nat n) f x.
Proof.
  revert x. induction n as [n IH | n IH |]; intros x; cbn [iter_pos].
  - rewrite !IH, Pos2Nat.inj_xI, <- Nat.iter_add, <- Nat.iter_succ_r.
    f_equal. lia.
  - rewrite !IH, Pos2Nat.inj_xO, <- Nat.iter_add. f_equal. lia.
  - reflexivity.
Qed.

Lemma iter_xO (m d : positive) : Zpos (Pos.iter xO m d) = Zpos m * 2 ^ Zpos d.
Proof.
  induction d as [|d IH] using Pos.peano_ind.
  - simpl. lia.
  - rewrite Pos.iter_succ, Pos2Z.inj_xO, IH, Pos2Z.inj_succ, Z.pow_succ_r by lia. lia.
Qed.

Lemma shr_1_spec (m : Z) (r s : bool) :
  0 <= m ->
  shr_1 (Build_shr_record m r s) = Build_shr_record (Z.div2 m) (Z.odd m) (orb r s).
Proof. destruct m as [|[p|p|]|p]; intros H; try reflexivity; lia. Qed.

Lemma shr_1_inv (M k : Z) (mrs : shr_record) :
  0 <= k -> shr_inv M k mrs -> shr_inv M (k + 1) (shr_1 mrs).
Proof.
  intros Hk [Hm [t [E [Ht Hs]]]]. destruct mrs as [m r s]. cbn [shr_m shr_r shr_s] in *.
  rewrite (@shr_1_spec m r s Hm). cbn [shr_m shr_r shr_s].
  assert (P : 2 ^ (k + 1) = 2 * 2 ^ k) by (rewrite Z.add_1_r; now apply Z.pow_succ_r).
  assert (0 < 2 ^ k) by (apply Z.pow_pos_nonneg; lia).
  pose proof (Z.div2_odd m) as Em.
  assert (Hb : 0 <= Z.b2z (Z.odd m) <= 1) by (destruct (Z.odd m); simpl; lia).
  assert (Hr : 0 <= Z.b2z r <= 1) by (destruct r; simpl; lia).
  unfold shr_inv. cbn [shr_m shr_r shr_s]. rewrite P. clear P.
  revert E Ht Em Hb Hr H. generalize (2 ^ k) (Z.div2 m) (Z.b2z (Z.odd m)).
  intros p2 m' b E Ht Em Hb Hr H.
  split; [lia|]. exists (p2 * Z.b2z r + t). split; [|split].
  - rewrite E, Em. ring.
  - nia.
  - intros H0. apply orb_false_iff in H0 as [-> Hs0]. rewrite (Hs Hs0). simpl. lia.
Qed.

Lemma shr_iter_inv (M : Z) (j : nat) :
  0 <= M ->
  shr_inv M (Z.of_nat j) (Nat.iter j shr_1 (Build_shr_record M false false)).
Proof.
  intros HM. induction j as [|j IH].
  - unfold shr_inv, Nat.iter. cbn [nat_rect shr_m shr_r shr_s Z.b2z]. change (Z.of_nat 0) with 0.
    rewrite Z.pow_0_r. split; [exact HM|]. exists 0.
    split; [lia|]. split; [lia|]. reflexivity.
  - rewrite Nat2Z.inj_succ, Nat.iter_succ. unfold Z.succ. apply shr_1_inv; [lia | exact IH].
Qed.

(** Rounding to nearest even after [n] shifts: the result is within half a
    unit below, and does not pass an integer that bounds the exact value. *)
Lemma round_nearest_bounds (M n : Z) (mrs : shr_record) :
  0 <= n -> shr_inv M n mrs ->
  let q := round_nearest_even (shr_m mrs) (loc_of_shr_record mrs) in
  shr_m mrs <= q <= shr_m mrs + 1
  /\ 2 * M - 2 ^ n <= 2 * (q * 2 ^ n)
  /\ forall K, M <= K * 2 ^ n -> q <= K.
Proof.
  intros Hn [Hm [t [E [Ht Hs]]]]. destruct mrs as [m r s]. cbn [shr_m shr_r shr_s] in *.
  assert (HP : 0 < 2 ^ n) by (apply Z.pow_pos_nonneg; lia).
  cbv zeta. revert E Ht HP. generalize (2 ^ n). intros P E Ht HP.
  destruct r, s; cbn [loc_of_shr_record round_nearest_even Z.b2z] in *.
  - split; [lia|]. split; [nia|]. intros K HK. nia.
  - rewrite (Hs eq_refl) in *. destruct (Z.even m).
    + split; [lia|]. split; [nia|]. intros K HK. nia.
    + split; [lia|]. split; [nia|]. intros K HK. nia.
  - split; [lia|]. split; [nia|]. intros K HK. nia.
  - rewrite (Hs eq_refl) in *. split; [lia|]. split; [nia|]. intros K HK. nia.
Qed.

Lemma fexp_normal (e : Z) : -1021 <= e -> fexp prec emax e = e - 53.
Proof. unfold fexp, emin, prec, emax. lia. Qed.

Lemma shr_fexp_normal (m : positive) (e : Z) :
  Zpos (digits2_pos m) = 53 -> -1074 <= e ->
  shr_fexp prec emax (Zpos m) e loc_Exact = (Build_shr_record (Zpos m) false false, e).
Proof.
  intros Hd He. unfold shr_fexp, Zdigits2. rewrite Hd, fexp_normal by lia.
  replace (53 + e - 53 - e) with 0 by lia. reflexivity.
Qed.

Lemma shr_fexp_shift (m : positive) (e n : Z) :
  0 < n -> Zpos (digits2_pos m) = 53 + n -> -1074 <= e + n ->
  shr_fexp prec emax (Zpos m) e loc_Exact
  = (Nat.iter (Z.to_nat n) shr_1 (Build_shr_record (Zpos m) false false), e + n).
Proof.
  intros Hn Hd He. unfold shr_fexp, Zdigits2. rewrite Hd, fexp_normal by lia.
  replace (53 + n + e - 53 - e) with n by lia.
  destruct n as [|k|k]; try lia. cbn [shr shr_record_of_loc].
  now rewrite iter_pos_nat.
Qed.

(** A mantissa of 53 digits with an exponent in range is a number of the
    format as it stands. *)
Lemma round_normal (m : positive) (e : Z) :
  Zpos (digits2_pos m) = 53 -> -1074 <= e <= 971 ->
  binary_round_aux prec emax false (Zpos m) e loc_Exact = S754_finite false m e.
Proof.
  intros Hd He. unfold binary_round_aux.
  rewrite (@shr_fexp_normal m e Hd) by lia.
  cbn [shr_m loc_of_shr_record round_nearest_even].
  rewrite (@shr_fexp_normal m e Hd) by lia. cbn [shr_m].
  replace (e <=? emax - prec) with true; [reflexivity|].
  symmetry. apply Z.leb_le. unfold emax, prec. lia.
Qed.

(** A mantissa of [53 + n] digits is shifted by [n] and rounded to nearest
    even: the result [q * 2 ^ (e + n)] is no more than half a unit below
    the exact value and does not pass an integer bound of it. *)
Lemma round_long (M : positive) (e n : Z) :
  0 < n -> Zpos (digits2_pos M) = 53 + n -> -1074 <= e + n <= 970 ->
  exists (q mr : positive) (er : Z),
    binary_round_aux prec emax false (Zpos M) e loc_Exact = S754_finite false mr er
    /\ Zpos (digits2_pos mr) = 53
    /\ e + n <= er
    /\ Zpos mr * 2 ^ (er - (e + n)) = Zpos q
    /\ 2 * Zpos M - 2 ^ n <= 2 * (Zpos q * 2 ^ n)
    /\ forall K, Zpos M <= K * 2 ^ n -> Zpos q <= K.
Proof.
  intros Hn Hd He. unfold binary_round_aux.
  rewrite (@shr_fexp_shift M e n Hn Hd) by lia.
  pose proof (@shr_iter_inv (Zpos M) (Z.to_nat n) (Pos2Z.is_nonneg M)) as Hinv.
  rewrite Z2Nat.id in Hinv by lia.
  set (mrs := Nat.iter (Z.to_nat n) shr_1 _) in *.
  destruct (@round_nearest_bounds (Zpos M) n mrs (Z.lt_le_incl _ _ Hn) Hinv)
    as [Hq [Hlow Hup]].
  remember (round_nearest_even (shr_m mrs) (loc_of_shr_record mrs)) as qz eqn:Eqz.
  clear Eqz.
  assert (Hrange : 2 ^ 52 <= qz <= 2 ^ 53).
  { destruct Hinv as [Hm [t [E [Ht Hs]]]].
    pose proof (digits2_bounds M) as [Dlo Dhi]. rewrite Hd in Dlo, Dhi.
    replace (53 + n - 1) with (52 + n) in Dlo by lia.
    rewrite Z.pow_add_r in Dlo, Dhi by lia.
    assert (Hb : 0 <= Z.b2z (shr_r mrs) <= 1) by (destruct (shr_r mrs); simpl; lia).
    assert (HP : 0 < 2 ^ n) by (apply Z.pow_pos_nonneg; lia).
    revert E Ht Dlo Dhi Hb HP. generalize (2 ^ n) (Z.b2z (shr_r mrs)).
    intros P b E Ht Dlo Dhi Hb HP.
    change (2 ^ 52) with 4503599627370496 in *.
    change (2 ^ 53) with 9007199254740992 in *. nia. }
  destruct qz as [|q|q]; try (change (2 ^ 52) with 4503599627370496 in Hrange; lia).
  destruct (Z.eq_dec (Zpos q) (2 ^ 53)) as [E53 | N53].
  - (* the rounding carried into a 54th digit *)
    exists q, 4503599627370496%positive, (e + n + 1).
    assert (Edq : Zpos (digits2_pos q) = 54).
    { injection E53 as ->. reflexivity. }
    assert (Es : shr_fexp prec emax (Zpos q) (e + n) loc_Exact
                 = (Build_shr_record 4503599627370496 false false, e + n + 1)).
    { unfold shr_fexp, Zdigits2. rewrite Edq, fexp_normal by lia.
      replace (54 + (e + n) - 53 - (e + n)) with 1 by lia.
      injection E53 as ->. reflexivity. }
    rewrite Es. cbn [shr_m].
    replace (e + n + 1 <=? emax - prec) with true
      by (symmetry; apply Z.leb_le; unfold emax, prec; lia).
    split; [reflexivity|]. split; [reflexivity|]. split; [lia|].
    split; [|split; [exact Hlow | exact Hup]].
    replace (e + n + 1 - (e + n)) with 1 by lia. rewrite E53. reflexivity.
  - exists q, q, (e + n).
    assert (Edq : Zpos (digits2_pos q) = 53).
    { apply digits2_unique. change (53 - 1) with 52. lia. }
    rewrite (@shr_fexp_normal q (e + n) Edq) by lia. cbn [shr_m].
    replace (e + n <=? emax - prec) with true
      by (symmetry; apply Z.leb_le; unfold emax, prec; lia).
    split; [reflexivity|]. split; [exact Edq|]. split; [lia|].
    split; [|split; [exact Hlow | exact Hup]].
    rewrite Z.sub_diag. simpl. lia.
Qed.

(** The conversion of a positive integer below [2^53] is exact. *)
Lemma normalize_exact (x : positive) :
  Zpos x < 2 ^ 53 ->
  exists (m : positive) (s : Z),
    binary_normalize prec emax (Zpos x) 0 false = S754_finite false m (- s)
    /\ Zpos (digits2_pos m) = 53
    /\ 0 <= s <= 52
    /\ s = 53 - Zpos (digits2_pos x)
    /\ Zpos m = Zpos x * 2 ^ s.
Proof.
  intros Hx. pose proof (digits2_bounds x) as [Dlo Dhi].
  assert (Hd : Zpos (digits2_pos x) <= 53).
  { destruct (Z.le_gt_cases (Zpos (digits2_pos x)) 53) as [H | H]; [exact H|].
    assert (2 ^ 53 <= 2 ^ (Zpos (digits2_pos x) - 1)) by (apply Z.pow_le_mono_r; lia). lia. }
  unfold binary_normalize, binary_round.
  rewrite fexp_normal by lia. unfold shl_align.
  destruct (Zpos (digits2_pos x) + 0 - 53 - 0) as [|k|k] eqn:Ek; try lia.
  - exists x, 0. rewrite round_normal by lia.
    repeat split; try lia.
  - exists (Pos.iter xO x k), (Zpos k).
    assert (Em : Zpos (Pos.iter xO x k) = Zpos x * 2 ^ Zpos k) by apply iter_xO.
    assert (Edm : Zpos (digits2_pos (Pos.iter xO x k)) = 53).
    { apply digits2_unique. rewrite Em.
      assert (E1 : 2 ^ (53 - 1) = 2 ^ (Zpos (digits2_pos x) - 1) * 2 ^ Zpos k)
        by (rewrite <- Z.pow_add_r by lia; f_equal; lia).
      assert (E2 : 2 ^ 53 = 2 ^ Zpos (digits2_pos x) * 2 ^ Zpos k)
        by (rewrite <- Z.pow_add_r by lia; f_equal; lia).
      assert (0 < 2 ^ Zpos k) by (apply Z.pow_pos_nonneg; lia).
      rewrite E1, E2. split.
      - apply Z.mul_le_mono_nonneg_r; lia.
      - apply Z.mul_lt_mono_pos_r; lia. }
    replace (Zpos (digits2_pos x) + 0 - 53) with (- Zpos k) by lia.
    rewrite round_normal by lia.
    repeat split; (lia || exact Em).
Qed.

(** Two numbers with mantissas of 53 digits compare as their values do. *)
Lemma SFltb_normal (m1 m2 : positive) (e1 e2 scale : Z) :
  Zpos (digits2_pos m1) = 53 -> Zpos (digits2_pos m2) = 53 ->
  scale <= e1 -> scale <= e2 ->
  SFltb (S754_finite false m1 e1) (S754_finite false m2 e2)
  = (Zpos m1 * 2 ^ (e1 - scale) <? Zpos m2 * 2 ^ (e2 - scale)).
Proof.
  intros H1 H2 S1 S2.
  pose proof (digits2_bounds m1) as [L1 U1]. pose proof (digits2_bounds m2) as [L2 U2].
  rewrite H1 in L1, U1. rewrite H2 in L2, U2.
  change (2 ^ (53 - 1)) with 4503599627370496 in *.
  change (2 ^ 53) with 9007199254740992 in *.
  unfold SFltb, SFcompare.
  destruct (Z.compare_spec e1 e2) as [E | E | E].
  - subst e2. rewrite Pos.compare_cont_spec. cbn [Pos.switch_Eq].
    assert (0 < 2 ^ (e1 - scale)) by (apply Z.pow_pos_nonneg; lia).
    change (m1 ?= m2)%positive with (Zpos m1 ?= Zpos m2).
    destruct (Z.compare_spec (Zpos m1) (Zpos m2)) as [E | E | E]; symmetry.
    + apply Z.ltb_ge. rewrite E. lia.
    + apply Z.ltb_lt. nia.
    + apply Z.ltb_ge. nia.
  - symmetry. apply Z.ltb_lt.
    replace (e2 - scale) with (e1 - scale + (e2 - e1)) by lia.
    rewrite Z.pow_add_r by lia.
    assert (HP : 0 < 2 ^ (e1 - scale)) by (apply Z.pow_pos_nonneg; lia).
    assert (HQ : 2 ^ 1 <= 2 ^ (e2 - e1)) by (apply Z.pow_le_mono_r; lia).
    change (2 ^ 1) with 2 in HQ. revert HP HQ.
    generalize (2 ^ (e1 - scale)) (2 ^ (e2 - e1)). intros P Q HP HQ.
    assert (H3 : Zpos m1 < Zpos m2 * Q) by nia.
    rewrite (Z.mul_comm P Q), Z.mul_assoc. now apply Z.mul_lt_mono_pos_r.
  - symmetry. apply Z.ltb_ge.
    replace (e1 - scale) with (e2 - scale + (e1 - e2)) by lia.
    rewrite Z.pow_add_r by lia.
    assert (HP : 0 < 2 ^ (e2 - scale)) by (apply Z.pow_pos_nonneg; lia).
    assert (HQ : 2 ^ 1 <= 2 ^ (e1 - e2)) by (apply Z.pow_le_mono_r; lia).
    change (2 ^ 1) with 2 in HQ. revert HP HQ.
    generalize (2 ^ (e2 - scale)) (2 ^ (e1 - e2)). intros P Q HP HQ.
    assert (H3 : Zpos m2 <= Zpos m1 * Q) by nia.
    rewrite (Z.mul_comm P Q), Z.mul_assoc. apply Z.mul_le_mono_nonneg_r; lia.
Qed.

(** The double written [0.6]. *)
Lemma sixty_percent :
  Prim2SF 0x1.3333333333333p-1 = S754_finite false 5404319552844595 (-53).
Proof. vm_compute. reflexivity. Qed.

Lemma float_of_len_spec (n : Z) :
  0 <= n < 2 ^ 63 ->
  Prim2SF (float_of_len n) = binary_normalize prec emax n 0 false.
Proof.
  intros Hn. unfold float_of_len. rewrite FloatAxioms.of_uint63_spec, Uint63.of_Z_spec.
  rewrite Z.mod_small; [reflexivity|]. exact Hn.
Qed.

(** The product of a positive length below [2^51] by the double [0.6]. *)
Lemma times_sixty_percent (p : positive) :
  Zpos p < 2 ^ 51 ->
  exists (mr : positive) (er sp n q : Z),
    SF64mul (binary_normalize prec emax (Zpos p) 0 false)
            (S754_finite false 5404319552844595 (-53))
    = S754_finite false mr er
    /\ Zpos (digits2_pos mr) = 53
    /\ 2 <= sp <= 52 /\ (n = 52 \/ n = 53)
    /\ - sp - 53 + n <= er
    /\ Zpos mr * 2 ^ (er - (- sp - 53 + n)) = q
    /\ Zpos p * 2 ^ sp < 2 ^ 53
    /\ 2 * (Zpos p * 2 ^ sp * 5404319552844595) - 2 ^ n <= 2 * (q * 2 ^ n)
    /\ forall K, Zpos p * 2 ^ sp * 5404319552844595 <= K * 2 ^ n -> q <= K.
Proof.
  intros Hp.
  destruct (@normalize_exact p) as [mp [sp [Ep [Dp [Rp [Sp Vp]]]]]].
  { assert (2 ^ 51 <= 2 ^ 53) by (apply Z.pow_le_mono_r; lia). lia. }
  assert (Hsp : 2 <= sp).
  { pose proof (digits2_bounds p) as [Dlo _].
    destruct (Z.le_gt_cases (Zpos (digits2_pos p)) 51) as [H | H]; [lia|].
    assert (2 ^ 51 <= 2 ^ (Zpos (digits2_pos p) - 1)) by (apply Z.pow_le_mono_r; lia). lia. }
  pose proof (digits2_bounds mp) as [Mlo Mhi]. rewrite Dp in Mlo, Mhi.
  change (2 ^ (53 - 1)) with 4503599627370496 in Mlo.
  change (2 ^ 53) with 9007199254740992 in Mhi.
  rewrite Ep. unfold SF64mul, SFmul. cbn [xorb].
  set (M := (mp * 5404319552844595)%positive).
  assert (EM : Zpos M = Zpos mp * 5404319552844595) by (subst M; apply Pos2Z.inj_mul).
  pose proof (digits2_bounds M) as [Dlo Dhi].
  assert (Hd : Zpos (digits2_pos M) = 105 \/ Zpos (digits2_pos M) = 106).
  { assert (104 < Zpos (digits2_pos M)).
    { destruct (Z.lt_ge_cases 104 (Zpos (digits2_pos M))) as [H | H]; [exact H|].
      assert (2 ^ Zpos (digits2_pos M) <= 2 ^ 104) by (apply Z.pow_le_mono_r; lia).
      change (2 ^ 104) with 20282409603651670423947251286016 in *. lia. }
    assert (Zpos (digits2_pos M) < 107).
    { destruct (Z.lt_ge_cases (Zpos (digits2_pos M)) 107) as [H0 | H0]; [exact H0|].
      assert (2 ^ 106 <= 2 ^ (Zpos (digits2_pos M) - 1)) by (apply Z.pow_le_mono_r; lia).
      change (2 ^ 106) with 81129638414606681695789005144064 in *. lia. }
    lia. }
  set (n := Zpos (digits2_pos M) - 53).
  destruct (@round_long M (- sp + -53) n) as [q [mr [er [Er [Dr [Her [Vr [Hlow Hup]]]]]]]];
    try (subst n; lia).
  exists mr, er, sp, n, (Zpos q).
  rewrite Er. split; [reflexivity|]. split; [exact Dr|]. split; [lia|].
  split; [subst n; lia|]. split; [lia|]. split.
  { rewrite <- Vr. do 2 f_equal; lia. }
  rewrite <- Vp, <- EM. split; [lia|]. split; [exact Hlow | exact Hup].
Qed.

(** On lengths below [2^51] the binary64 test is the exact one: the child
    is under 60% of the parent when [5 * child < 3 * parent]. *)
Lemma under_60_percent_exact (child parent : Z) :
  0 <= child < 2 ^ 51 -> 0 <= parent < 2 ^ 51 ->
  under_60_percent child parent = (5 * child <? 3 * parent).
Proof.
  intros Hc Hp.
  assert (H63 : 2 ^ 51 <= 2 ^ 63) by (apply Z.pow_le_mono_r; lia).
  assert (H53 : 2 ^ 51 <= 2 ^ 53) by (apply Z.pow_le_mono_r; lia).
  unfold under_60_percent. rewrite FloatAxioms.ltb_spec, FloatAxioms.mul_spec, sixty_percent.
  rewrite !float_of_len_spec by lia.
  destruct parent as [|p|p]; [| |lia].
  - (* an empty parent *)
    replace (5 * child <? 3 * 0) with false by (symmetry; apply Z.ltb_ge; lia).
    destruct child as [|c|c]; [reflexivity| |lia].
    destruct (@normalize_exact c) as [mc [sc [Ec _]]]; [lia|].
    rewrite Ec. reflexivity.
  - destruct (@times_sixty_percent p (proj2 Hp))
      as [mr [er [sp [n [q [Er [Dr [Hsp [Hn [Her [Vr [Hmp [Hlow Hup]]]]]]]]]]]]].
    rewrite Er.
    destruct child as [|c|c]; [| |lia].
    { (* an empty child *) symmetry. apply Z.ltb_lt. lia. }
    destruct (@normalize_exact c) as [mc [sc [Ec [Dc [Rc [_ Vc]]]]]]; [lia|].
    rewrite Ec, (@SFltb_normal mc mr (- sc) er (- sp - 53) Dc Dr) by lia.
    assert (EC : Zpos mc * 2 ^ (- sc - (- sp - 53)) = Zpos c * 2 ^ sp * 2 ^ 53).
    { rewrite Vc, <- !Z.mul_assoc. f_equal. rewrite <- !Z.pow_add_r by lia. f_equal. lia. }
    assert (ER : Zpos mr * 2 ^ (er - (- sp - 53)) = q * 2 ^ n).
    { rewrite <- Vr, <- Z.mul_assoc. f_equal. rewrite <- Z.pow_add_r by lia. f_equal. lia. }
    rewrite EC, ER. clear EC ER Vr Vc Ec Er Dc Dr.
    assert (HA : 4 <= 2 ^ sp).
    { change 4 with (2 ^ 2). apply Z.pow_le_mono_r; lia. }
    change (2 ^ 53) with 9007199254740992 in *.
    revert HA Hmp Hlow Hup. generalize (2 ^ sp). intros A HA Hmp Hlow Hup.
    destruct (Z.ltb_spec (5 * Zpos c) (3 * Zpos p)) as [Hlt | Hge].
    + apply Z.ltb_lt.
      assert (H1 : 5 * (Zpos c * A) + A <= 3 * (Zpos p * A)) by nia.
      revert H1 Hmp Hlow. generalize (Zpos c * A) (Zpos p * A). intros cA pA H1 Hmp Hlow.
      destruct Hn as [-> | ->];
        [change (2 ^ 52) with 4503599627370496 in * | change (2 ^ 53) with 9007199254740992 in *];
        lia.
    + apply Z.ltb_ge.
      assert (H1 : 3 * (Zpos p * A) <= 5 * (Zpos c * A)) by nia.
      assert (H0 : 0 <= Zpos p * A) by nia.
      revert H0 H1 Hmp Hup. generalize (Zpos c * A) (Zpos p * A). intros cA pA H0 H1 Hmp Hup.
      destruct Hn as [-> | ->].
      * change (2 ^ 52) with 4503599627370496 in *.
        specialize (Hup (cA * 2)). lia.
      * change (2 ^ 53) with 9007199254740992 in *.
        specialize (Hup cA). lia.
Qed.

(** C3, as amended — when the band of candidates within 20 points of the
    best score holds (ancestor, descendant) pairs whose scores are within
    20 of each other and whose descendant scores 150 or more,
    [find_main_content_in_cleaned_html] takes one descendant [d] for all of
    them: that of the pair [(a0, d)] with the highest descendant score,
    then the smallest score difference, then the earliest place in the
    double loop over the band ([first_least]).  It returns [d], unless the
    text length of [d] is under 60% of the text length of [a], the ancestor
    of the first pair found for [d] ([first_parent]), in which case it
    returns [a].  [best_pair_exists] gives such [a0], [d] and [a] whenever
    a pair qualifies; [under_60_percent] is the comparison in binary64,
    which [under_60_percent_exact] compares with the exact one.  The
    candidates are the elements an XPath query returns, which have
    distinct identities. *)
Theorem best_child_in_band {UD : UnicodeData} (p : Page) (a0 a d : Element) :
  let containers := xpath_desc is_content_container (body p) in
  let scored := sort_desc snd (score_containers containers) in
  let pairs := nested_pairs (document p) (map fst (similar_score_containers scored)) in
  NoDup (map eid containers) ->
  first_least (pair_key (score_in scored)) (qualifies (score_in scored)) pairs (a0, d) ->
  first_parent pairs d a ->
  find_main_content_in_cleaned_html p
  = Ok (if under_60_percent (text_length d) (text_length a) then a else d).
Proof.
  cbv zeta. intros Hnd Hbest Hparent.
  unfold find_main_content_in_cleaned_html.
  remember (xpath_desc is_content_container (body p)) as containers eqn:Ec.
  remember (sort_desc snd (score_containers containers)) as scored eqn:Es.
  assert (Hperm : Permutation scored (score_containers containers))
    by (rewrite Es; apply sort_desc_perm).
  assert (Hids : NoDup (map eid (map fst scored))).
  { eapply Permutation_NoDup.
    - apply Permutation_map, Permutation_map, Permutation_sym, Hperm.
    - now apply score_containers_nodup. }
  assert (Hmax : forall c s, In (c, s) scored ->
                             forall top best rest, scored = (top, best) :: rest -> s <= best).
  { intros c s Hin top best rest E. rewrite Es in E.
    apply (sort_desc_head snd (score_containers containers) E (c, s)).
    now apply (Permutation_in _ Hperm). }
  clear Es.
  assert (Hpair : In (a0, d) (nested_pairs (document p)
                                 (map fst (similar_score_containers scored)))).
  { destruct Hbest as [before [after [E _]]]. rewrite E. apply in_or_app. right. now left. }
  destruct scored as [|[top_container best_score] others]; [destruct Hpair|].
  destruct containers as [|first_container more].
  { apply Permutation_sym, Permutation_nil in Hperm. discriminate Hperm. }
  clear Ec.
  set (scored := (top_container, best_score) :: others) in *.
  set (band := similar_score_containers scored) in *.
  assert (Hband : forall c s, In (c, s) band ->
                              In (c, s) scored /\ best_score - 20 <= s <= best_score).
  { intros c s H. apply filter_In in H as [Hin Hclose]. split; [exact Hin|].
    apply Z.leb_le in Hclose. unfold score_threshold in Hclose. simpl in Hclose.
    specialize (Hmax c s Hin _ _ _ eq_refl). lia. }
  assert (Hlookup : forall c s, In (c, s) band -> next_score scored c = Ok s).
  { intros c s H. apply next_score_found; [exact Hids | now apply Hband]. }
  assert (Hsim : NoDup (map eid (map fst band))).
  { subst band. unfold similar_score_containers, scored. fold scored.
    rewrite map_map. apply NoDup_map_filter. now rewrite <- map_map. }
  assert (Hscore : forall c, In c (map fst band) ->
                             best_score - 20 <= score_in scored c <= best_score
                             /\ next_score scored c = Ok (score_in scored c)).
  { intros c Hc. apply in_map_iff in Hc as [[c' s] [<- Hc]]. simpl.
    unfold score_in. rewrite (Hlookup _ _ Hc). split; [exact (proj2 (Hband _ _ Hc)) | reflexivity]. }
  assert (Hcount : (1 <? count_of band) = true).
  { apply Z.ltb_lt. destruct (Z.lt_ge_cases 1 (count_of band)) as [H | H]; [exact H|].
    rewrite (@nested_pairs_short (document p) (map fst band)) in Hpair; [destruct Hpair|].
    unfold count_of in *. now rewrite length_map. }
  rewrite Hcount.
  rewrite (@select_best_first_least (document p) (map fst band) scored a0 a d).
  - simpl.
    assert (Ha : In a (map fst band)).
    { destruct Hparent as [first [rest [E _]]].
      apply (@nested_pairs_members (document p) (map fst band) a d).
      rewrite E. apply in_or_app. right. now left. }
    assert (Hd : In d (map fst band)).
    { now apply (@nested_pairs_members (document p) (map fst band) a0 d). }
    destruct (under_60_percent (text_length d) (text_length a)).
    + now rewrite (proj2 (Hscore _ Ha)).
    + now rewrite (proj2 (Hscore _ Hd)).
  - exact Hsim.
  - intros c Hc. exists (score_in scored c). now apply Hscore.
  - revert Hbest. apply first_least_iff. intros [x y] Hxy.
    apply nested_pairs_members in Hxy as [Hx [Hy _]].
    apply Hscore in Hx, Hy. unfold qualifies. simpl. lia.
  - exact Hparent.
Qed.

Lemma best_child_in_band_witness :
  let pairs (p : Page) :=
    nested_pairs (document p)
      (map fst (similar_score_containers
                  (sort_desc snd (score_containers (UD := ascii_tables)
                                    (xpath_desc is_content_container (body p)))))) in
  (pairs item_page = [(item_outer, item_inner)]
   /\ find_main_content_in_cleaned_html (UD := ascii_tables) item_page = Ok item_inner)
  /\ (pairs nested_page
      = [(nested_outer, nested_middle); (nested_outer, nested_inner);
         (nested_middle, nested_inner)]
      /\ find_main_content_in_cleaned_html (UD := ascii_tables) nested_page
         = Ok nested_outer).
Proof.
  cbv zeta. split; (split; [vm_compute; reflexivity|]).
  - refine (@best_child_in_band ascii_tables item_page item_outer item_outer item_inner _ _ _).
    + vm_compute. constructor; [intros [H | []]; discriminate H|].
      constructor; [intros []|]. constructor.
    + exists [], []. split; [vm_compute; reflexivity|].
      split; [split; vm_compute; discriminate|].
      split; [intros y []|intros y []].
    + exists [], []. split; [vm_compute; reflexivity|]. intros a' [].
  - refine (@best_child_in_band ascii_tables nested_page nested_middle nested_outer
                                nested_inner _ _ _).
    + vm_compute. repeat constructor; simpl; intuition discriminate.
    + exists [(nested_outer, nested_middle); (nested_outer, nested_inner)], [].
      split; [vm_compute; reflexivity|].
      split; [split; vm_compute; discriminate|].
      split; [|intros y []].
      intros y [<- | [<- | []]] _; right; split; vm_compute; reflexivity.
    + exists [(nested_outer, nested_middle)], [(nested_middle, nested_inner)].
      split; [vm_compute; reflexivity|].
      intros a' [H | []]. apply (f_equal (fun pc => eid (snd pc))) in H. discriminate H.
Defined.

(** C3, as stated, fails on [nested_page]: the middle and the
    inner [div] are a pair of the band, both score 200, and the inner one
    keeps 61 of the 83 characters of the middle one; yet the outer [div]
    is returned, which is neither of the two.  The inner [div] is measured
    against the outer one, the first ancestor found for it. *)
Lemma prefers_child_counterexample :
  let scored :=
    sort_desc snd (score_containers (UD := ascii_tables)
                     (xpath_desc is_content_container (body nested_page))) in
  let band := similar_score_containers scored in
  In (nested_middle, 200) band
  /\ In (nested_inner, 200) band
  /\ is_child_of (document nested_page) nested_inner nested_middle = true
  /\ qualifies (score_in scored) (nested_middle, nested_inner)
  /\ (text_length nested_middle = 83 /\ text_length nested_inner = 61)
  /\ under_60_percent (text_length nested_inner) (text_length nested_middle) = false
  /\ find_main_content_in_cleaned_html (UD := ascii_tables) nested_page = Ok nested_outer
  /\ eid nested_outer <> eid nested_middle
  /\ eid nested_outer <> eid nested_inner.
Proof.
  cbv zeta.
  split; [vm_compute; right; left; reflexivity|].
  split; [vm_compute; right; right; left; reflexivity|].
  split; [vm_compute; reflexivity|].
  split; [split; vm_compute; discriminate|].
  split; [split; vm_compute; reflexivity|].
  split; [vm_compute; reflexivity|].
  split; [vm_compute; reflexivity|].
  split; vm_compute; discriminate.
Qed.

(** On that page the inner [div] is returned: it keeps 101 of the 113
    characters of the outer one. *)
Example news_item_selects_child :
  find_main_content_in_cleaned_html (UD := ascii_tables) item_page = Ok item_inner.
Proof. vm_compute. reflexivity. Qed.

(** When the inner [div] holds a third of the text only, the outer one is
    returned, although the pair qualifies. *)
Example small_child_selects_parent :
  let inner :=
    mkElement 3 (U "div") [(U "class", U "content"); (U "role", U "viewlist")]
      (U "2024-01-05 ") [] [paragraph 5 "Work begins in spring."] in
  let outer :=
    mkElement 2 (U "div") [(U "class", U "article"); (U "role", U "viewlist")] [] []
      [mkElement 6 (U "h1") [] (U "Council news") [] [];
       paragraph 4 "The council met on Monday and approved the plan for the new library.";
       inner] in
  let b := mkElement 1 (U "body") [] [] [] [outer] in
  let page := {| document := mkElement 0 (U "html") [] [] [] [b]; body := b |} in
  map (fun cs => (eid (fst cs), snd cs))
      (sort_desc snd (score_containers (UD := ascii_tables)
                        (xpath_desc is_content_container (body page))))
  = [(2%nat, 200); (3%nat, 180)]
  /\ under_60_percent (text_length inner) (text_length outer) = true
  /\ find_main_content_in_cleaned_html (UD := ascii_tables) page = Ok outer.
Proof. vm_compute. repeat split. Qed.

(** ** Top-level strong-signal removal *)

(** C6 — the code at the failing input.  No strong header or footer
    keyword occurs in the class or id of the block at a word boundary (the
    matcher of the scorer, [create_pattern], finds none), and its text holds
    no header or footer vocabulary; the block is marked all the same,
    because [top] is a substring of [laptop-reviews], and it is gone from
    the cleaned page. *)
Theorem substring_match_removes_block :
  existsb (fun keyword =>
             Re.search (UD := ascii_tables) true (create_pattern (UD := ascii_tables) keyword)
               (lower (UD := ascii_tables)
                  (strip (get reviews_block (U "class") [] ++ U " "
                          ++ get reviews_block (U "id") []))))
          (strong_header_indicators ++ strong_footer_indicators) = false
  /\ keyword_hits header_content_keywords
       (lower (UD := ascii_tables) (text_content reviews_block)) = 0
  /\ keyword_hits footer_content_keywords
       (lower (UD := ascii_tables) (text_content reviews_block)) = 0
  /\ str_in (U "top") (get reviews_block (U "class") []) = true
  /\ is_header_footer (UD := ascii_tables) reviews_block = true
  /\ map eid (descendants (document reviews_page)) = [1; 2; 3; 4; 5; 6]%nat
  /\ map eid (descendants
                (document (fst (remove_page_level_header_footer (UD := ascii_tables)
                                  reviews_page))))
     = [1; 5; 6]%nat
  /\ map eid (descendants
                (body (preprocess_html_remove_interference (UD := ascii_tables)
                         {| parsed_document := document reviews_page;
                            page_tree := document reviews_page |})))
     = [5; 6]%nat.
Proof. vm_compute. repeat split. Qed.

(* ===================================================================== *)
(** * Further properties of the code *)
(* ===================================================================== *)

(** ** The selection never faults *)

Lemma next_score_member (all : list (Element * Z)) (c : Element) :
  In c (map fst all) -> exists s, next_score all c = Ok s.
Proof.
  unfold next_score. induction all as [|[c0 s0] all IH]; [intros []|].
  cbn [map fst find]. destruct (same_element c0 c) eqn:E; [eauto|].
  intros [H | H]; [|now apply IH].
  subst c0. unfold same_element in E. now rewrite Nat.eqb_refl in E.
Qed.

Lemma select_deepest_in (doc : Element) (c0 : Element) (l : list Element) :
  exists c, select_deepest_container_from_similar doc (c0 :: l) = Some c
            /\ In c (c0 :: l).
Proof.
  destruct l as [|c1 l]; [exists c0; split; [reflexivity | now left]|].
  unfold select_deepest_container_from_similar.
  set (depths := map (fun c => (c, calculate_container_depth doc c)) (c0 :: c1 :: l)).
  destruct (sort_desc snd depths) as [|[deepest d] rest] eqn:Es.
  - exfalso. pose proof (sort_desc_perm snd depths) as P. rewrite Es in P.
    apply Permutation_nil in P. discriminate P.
  - assert (Hin : In (deepest, d) depths).
    { apply (Permutation_in _ (sort_desc_perm snd depths)). rewrite Es. now left. }
    subst depths. apply in_map_iff in Hin as [c [E Hc]]. injection E as -> <-.
    exists deepest. split; [reflexivity | exact Hc].
Qed.

Lemma select_best_member (doc : Element) (similar : list Element)
      (all : list (Element * Z)) :
  similar <> [] ->
  (forall c, In c similar -> exists s, next_score all c = Ok s) ->
  exists r, select_best_container_prefer_child doc similar all = Ok (Some r)
            /\ In r similar.
Proof.
  intros Hne Hscore.
  set (entry := fun pc : Element * Element =>
                  (fst pc, snd pc, score_in all (fst pc), score_in all (snd pc)) : pair_entry).
  assert (Hmembers : forall pc, In pc (nested_pairs doc similar) ->
                                In (fst pc) similar /\ In (snd pc) similar).
  { intros [x y] H. apply nested_pairs_members in H. tauto. }
  assert (Hlookup : forall c, In c similar -> next_score all c = Ok (score_in all c)).
  { intros c Hc. unfold score_in. destruct (Hscore c Hc) as [s ->]. reflexivity. }
  unfold select_best_container_prefer_child.
  rewrite (exc_map_total _ entry).
  2: { intros pc Hpc. destruct (Hmembers pc Hpc) as [H1 H2].
       rewrite (Hlookup _ H1). simpl. rewrite (Hlookup _ H2). reflexivity. }
  simpl exc_bind.
  set (pairs := map entry (nested_pairs doc similar)).
  set (key := fun v : valid_entry => (- snd (fst v), snd v)).
  destruct (sort_by key (valid_children_of pairs)) as [|[[best_child bs] bd] rest] eqn:Es.
  - destruct similar as [|c0 l]; [contradiction|].
    destruct (select_deepest_in doc c0 l) as [c [-> Hc]]. eauto.
  - assert (Hbest : In (best_child, bs, bd) (valid_children_of pairs)).
    { apply (Permutation_in _ (sort_by_perm key _)). rewrite Es. now left. }
    apply valid_children_of_in in Hbest as [e1 [He1 [_ [_ Ev]]]].
    subst pairs. apply in_map_iff in He1 as [[a1 d1] [<- Hp1]].
    unfold entry, pe_child in Ev. simpl in Ev. injection Ev as -> _ _.
    destruct (Hmembers _ Hp1) as [_ Hd1]. simpl in Hd1.
    set (pairs := map entry (nested_pairs doc similar)).
    destruct (filter (fun e => same_element (pe_child e) d1) pairs) as [|e0 others] eqn:Ef.
    + exists d1. split; [reflexivity | exact Hd1].
    + assert (H0 : In e0 (filter (fun e => same_element (pe_child e) d1) pairs))
        by (rewrite Ef; now left).
      apply filter_In in H0 as [H0 _].
      subst pairs. apply in_map_iff in H0 as [[a0 d0] [<- Hp0]].
      destruct (Hmembers _ Hp0) as [Ha0 _]. simpl in Ha0.
      cbn [map pe_parent entry fst].
      destruct (under_60_percent (text_length d1) (text_length a0)); eauto.
Qed.

Lemma find_main_content_candidate {UD : UnicodeData} (p : Page) :
  exists e,
    find_main_content_in_cleaned_html p = Ok e
    /\ match xpath_desc is_content_container (body p) with
       | [] => e = body p
       | candidates => In e candidates
       end.
Proof.
  unfold find_main_content_in_cleaned_html.
  remember (xpath_desc is_content_container (body p)) as containers eqn:Ec.
  destruct containers as [|first_container more];
    [exists (body p); split; reflexivity|].
  remember (sort_desc snd (score_containers (first_container :: more))) as scored eqn:Es.
  assert (Hperm : Permutation scored (score_containers (first_container :: more)))
    by (rewrite Es; apply sort_desc_perm).
  assert (Hsub : forall c, In c (map fst scored) -> In c (first_container :: more)).
  { intros c Hc. apply in_map_iff in Hc as [[c' s] [<- Hc]].
    apply (Permutation_in _ Hperm) in Hc. now apply score_containers_members in Hc. }
  clear Es.
  destruct scored as [|[top_container best_score] others].
  { exists first_container. split; [reflexivity | now left]. }
  set (scored := (top_container, best_score) :: others) in *.
  set (similar := similar_score_containers scored).
  assert (Hsim : forall c, In c (map fst similar) -> In c (map fst scored)).
  { intros c Hc. apply in_map_iff in Hc as [cs [<- Hc]].
    apply filter_In in Hc as [Hc _]. now apply in_map. }
  assert (Hfinal : forall best, In best (map fst scored) ->
             exists e, (_ <- next_score scored best ;; Ok best) = Ok e
                       /\ In e (first_container :: more)).
  { intros best Hb. destruct (next_score_member scored best Hb) as [s ->].
    exists best. split; [reflexivity | now apply Hsub]. }
  destruct (1 <? count_of similar) eqn:Ecount.
  - destruct (@select_best_member (document p) (map fst similar) scored) as [r [-> Hr]].
    + intros E. apply map_eq_nil in E. rewrite E in Ecount. discriminate Ecount.
    + intros c Hc. apply next_score_member. now apply Hsim.
    + cbn [exc_bind]. apply Hfinal. now apply Hsim.
  - cbn [exc_bind]. apply Hfinal. now left.
Qed.

(** X1 — [find_main_content_in_cleaned_html] always returns an element:
    the [next(...)] lookups never run out and no [None] reaches them.  The
    element is one of the [div], [section], [article] or [main] descendants
    of the cleaned body, or the body itself when it has none. *)
Theorem find_main_content_returns_candidate {UD : UnicodeData} (p : Page) :
  exists e,
    find_main_content_in_cleaned_html p = Ok e
    /\ ((xpath_desc is_content_container (body p) = [] /\ e = body p)
        \/ In e (xpath_desc is_content_container (body p))).
Proof.
  destruct (find_main_content_candidate p) as [e [He H]].
  exists e. split; [exact He|].
  destruct (xpath_desc is_content_container (body p)) as [|first_container more].
  - left. split; [reflexivity | exact H].
  - right. exact H.
Qed.

(** X2 — [find_list_container] always returns the container
    [find_article_container] found: the article search never yields [None],
    so the list search that follows it in the function is never reached. *)
Theorem find_list_container_is_article_container {UD : UnicodeData} (parsed : Parsed) :
  exists e,
    find_article_container parsed = Ok e
    /\ find_list_container parsed = Ok (Some e)
    /\ let cleaned := preprocess_html_remove_interference parsed in
       e = body cleaned \/ In e (descendants (body cleaned)).
Proof.
  unfold find_list_container, find_article_container.
  destruct (find_main_content_candidate
              (preprocess_html_remove_interference parsed)) as [e [-> He]].
  exists e. repeat split. cbv zeta.
  set (cleaned := preprocess_html_remove_interference parsed) in *.
  assert (Hsub : forall x, In x (xpath_desc is_content_container (body cleaned)) ->
                           In x (descendants (body cleaned))).
  { intros x Hx. unfold xpath_desc in Hx. apply filter_In in Hx. exact (proj1 Hx). }
  destruct (xpath_desc is_content_container (body cleaned)) as [|first_container more].
  - left. exact He.
  - right. apply Hsub. exact He.
Qed.

(** ** Bounds of the content score *)

Lemma count_of_filter {A : Type} (f : A -> bool) (l : list A) :
  0 <= count_of (filter f l) <= count_of l.
Proof. unfold count_of. pose proof (filter_length_le f l). lia. Qed.

Lemma keyword_penalty_bounds (count : Z) : 0 <= keyword_penalty count <= 300.
Proof.
  unfold keyword_penalty.
  destruct (3 <=? count); [lia|]. destruct (2 <=? count); lia.
Qed.

Lemma add_positive_signals_bounds {UD : UnicodeData} (container : Element) (score : Z) :
  score - 20 <= add_positive_signals container score <= score + 570.
Proof.
  unfold add_positive_signals. cbv zeta.
  repeat match goal with
         | |- context [if ?a <? ?b then _ else _] => destruct (Z.ltb_spec a b)
         | |- context [if ?b then _ else _] => destruct b
         end; lia.
Qed.

(** X3 — the content score of any element lies between -2600 and 570: at
    worst all thirteen strong interference keywords are matched, at best
    every positive signal is at its cap. *)
Theorem content_score_bounds {UD : UnicodeData} (container : Element) :
  -2600 <= calculate_content_container_score container <= 570.
Proof.
  unfold calculate_content_container_score. cbv zeta.
  destruct (str_mem (lower (tag container)) chrome_tags); [lia|].
  set (found := found_interference_keywords _ _).
  assert (Hfound : 0 <= count_of found <= 13).
  { pose proof (count_of_filter
                  (fun keyword =>
                     Re.search true (create_pattern keyword)
                       (lower (strip (lower (get container (U "class") []) ++ U " "
                                      ++ lower (get container (U "id") [])))))
                  strong_interference_keywords) as H.
    assert (E : count_of strong_interference_keywords = 13) by (vm_compute; reflexivity).
    rewrite E in H. exact H. }
  generalize dependent (count_of found). intros n Hn.
  destruct (0 <? n) eqn:E0; destruct (2 <=? n) eqn:E2; cbn [andb];
    try apply Z.ltb_lt in E0; try apply Z.ltb_ge in E0;
    try apply Z.leb_le in E2; try apply Z.leb_gt in E2; try lia.
  - set (s := apply_content_penalties container (0 - n * 200)).
    assert (Hs : 0 - n * 200 - 600 <= s <= 0 - n * 200).
    { subst s. unfold apply_content_penalties. cbv zeta.
      pose proof (keyword_penalty_bounds
                    (count_of (found_header_keywords (text_content container)))).
      pose proof (keyword_penalty_bounds
                    (count_of (found_footer_keywords (text_content container)))).
      lia. }
    destruct (s <? -200) eqn:Es; [lia|]. apply Z.ltb_ge in Es.
    pose proof (add_positive_signals_bounds container s). lia.
  - set (s := apply_content_penalties container 0).
    assert (Hs : - 600 <= s <= 0).
    { subst s. unfold apply_content_penalties. cbv zeta.
      pose proof (keyword_penalty_bounds
                    (count_of (found_header_keywords (text_content container)))).
      pose proof (keyword_penalty_bounds
                    (count_of (found_footer_keywords (text_content container)))).
      lia. }
    destruct (s <? -200) eqn:Es; [lia|]. apply Z.ltb_ge in Es.
    pose proof (add_positive_signals_bounds container s). lia.
Qed.

(** ** The ranking *)

(** A candidate enters the ranking of [find_main_content_in_cleaned_html]
    exactly when it is protected or scores above -50; a protected candidate
    is ranked by its score raised to at least 50, any other by its
    score. *)
Lemma ranked_candidates {UD : UnicodeData} (content_containers : list Element)
        (container : Element) (rank : Z) :
  In (container, rank) (score_containers content_containers)
  <-> In container content_containers
      /\ (if is_protected container
          then rank = Z.max (calculate_content_container_score container) 50
          else rank = calculate_content_container_score container /\ -50 < rank).
Proof.
  unfold score_containers. rewrite in_flat_map. cbv zeta. split.
  - intros [c [Hc H]].
    destruct (is_protected c) eqn:Ep.
    + destruct H as [H | []]. injection H as -> <-. rewrite Ep. now split.
    + destruct (calculate_content_container_score c <? -100) eqn:E1; [destruct H|].
      destruct (-50 <? calculate_content_container_score c) eqn:E2; [|destruct H].
      destruct H as [H | []]. injection H as -> <-. rewrite Ep.
      apply Z.ltb_lt in E2. now repeat split.
  - intros [Hc H]. exists container. split; [exact Hc|].
    destruct (is_protected container).
    + subst rank. now left.
    + destruct H as [-> H].
      destruct (calculate_content_container_score container <? -100) eqn:E1.
      { apply Z.ltb_lt in E1. lia. }
      destruct (-50 <? calculate_content_container_score container) eqn:E2.
      * now left.
      * apply Z.ltb_ge in E2. lia.
Qed.

(** X4 — when every other ranked candidate scores more than 20 points
    below the best one, [find_main_content_in_cleaned_html] returns the
    best-scoring candidate. *)
Theorem lone_top_scorer_is_selected {UD : UnicodeData} (p : Page)
        (top_container : Element) (best_score : Z) (others : list (Element * Z)) :
  sort_desc snd (score_containers (xpath_desc is_content_container (body p)))
  = (top_container, best_score) :: others ->
  (forall cs, In cs others -> snd cs < best_score - 20) ->
  find_main_content_in_cleaned_html p = Ok top_container.
Proof.
  intros Hsort Hothers. unfold find_main_content_in_cleaned_html. cbv zeta.
  destruct (xpath_desc is_content_container (body p)) as [|first_container more] eqn:Ec.
  { discriminate Hsort. }
  rewrite Hsort.
  assert (Hsim : similar_score_containers ((top_container, best_score) :: others)
                 = [(top_container, best_score)]).
  { unfold similar_score_containers. cbn [filter snd].
    replace (Z.abs (best_score - best_score) <=? score_threshold) with true
      by (symmetry; apply Z.leb_le; unfold score_threshold; lia).
    f_equal. clear Hsort.
    induction others as [|cs others IH]; [reflexivity|].
    cbn [filter].
    replace (Z.abs (snd cs - best_score) <=? score_threshold) with false.
    - apply IH. intros cs' H. apply Hothers. now right.
    - symmetry. apply Z.leb_gt. unfold score_threshold.
      specialize (Hothers cs (or_introl eq_refl)). lia. }
  rewrite Hsim. change (1 <? count_of [(top_container, best_score)]) with false.
  cbv iota. cbn [exc_bind].
  unfold next_score. cbn [find fst]. unfold same_element. rewrite Nat.eqb_refl.
  reflexivity.
Qed.

Lemma lone_top_scorer_is_selected_witness :
  @find_main_content_in_cleaned_html ascii_tables story_page = Ok item_inner.
Proof.
  apply (@lone_top_scorer_is_selected ascii_tables story_page item_inner 200
           [(related_block, -20)]).
  - vm_compute. reflexivity.
  - intros cs [<- | []]. vm_compute. reflexivity.
Defined.

(** X5 — among two or more similar candidates,
    [select_deepest_container_from_similar] returns one of them whose depth
    below [body] is the largest; a single candidate is returned as it is. *)
Theorem deepest_of_similar (doc : Element) (first_container : Element)
        (more : list Element) :
  exists deepest,
    select_deepest_container_from_similar doc (first_container :: more) = Some deepest
    /\ In deepest (first_container :: more)
    /\ forall c, In c (first_container :: more) ->
                 calculate_container_depth doc c
                 <= calculate_container_depth doc deepest.
Proof.
  destruct more as [|c1 l].
  - exists first_container. repeat split; [now left|]. intros c' [<- | []]. lia.
  - unfold select_deepest_container_from_similar.
    set (depths := map (fun c => (c, calculate_container_depth doc c))
                       (first_container :: c1 :: l)).
    destruct (sort_desc snd depths) as [|[deepest d] rest] eqn:Es.
    + exfalso. pose proof (sort_desc_perm snd depths) as P. rewrite Es in P.
      apply Permutation_nil in P. discriminate P.
    + assert (Hin : In (deepest, d) depths).
      { apply (Permutation_in _ (sort_desc_perm snd depths)). rewrite Es. now left. }
      subst depths. apply in_map_iff in Hin as [c [E Hc]]. injection E as -> <-.
      exists deepest. repeat split; [exact Hc|].
      intros c' Hc'.
      apply (sort_desc_head snd _ Es (c', calculate_container_depth doc c')).
      apply in_map_iff. now exists c'.
Qed.

(** X6 — when no nested candidate both scores 150 or more and stays within
    20 points of the candidate that contains it,
    [select_best_container_prefer_child] answers with the deepest
    candidate. *)
Theorem no_strong_child_selects_deepest (doc : Element) (similar : list Element)
        (all : list (Element * Z)) :
  (forall c, In c similar -> exists s, next_score all c = Ok s) ->
  (forall a d, In (a, d) (nested_pairs doc similar) ->
               score_in all d < 150 \/ 20 < score_in all a - score_in all d) ->
  select_best_container_prefer_child doc similar all
  = Ok (select_deepest_container_from_similar doc similar).
Proof.
  intros Hscore Hweak.
  set (entry := fun pc : Element * Element =>
                  (fst pc, snd pc, score_in all (fst pc), score_in all (snd pc)) : pair_entry).
  assert (Hlookup : forall c, In c similar -> next_score all c = Ok (score_in all c)).
  { intros c Hc. unfold score_in. destruct (Hscore c Hc) as [s ->]. reflexivity. }
  unfold select_best_container_prefer_child.
  rewrite (exc_map_total _ entry).
  2: { intros [a d] Hpc. destruct (nested_pairs_members _ _ _ _ Hpc) as [H1 [H2 _]].
       cbn [fst snd]. rewrite (Hlookup _ H1). cbn [exc_bind].
       rewrite (Hlookup _ H2). reflexivity. }
  cbn [exc_bind].
  assert (Hnone : valid_children_of (map entry (nested_pairs doc similar)) = []).
  { destruct (valid_children_of (map entry (nested_pairs doc similar))) as [|v vs] eqn:Ev;
      [reflexivity|].
    assert (Hv : In v (valid_children_of (map entry (nested_pairs doc similar))))
      by (rewrite Ev; now left).
    apply valid_children_of_in in Hv as [e [He [H1 [H2 _]]]].
    apply in_map_iff in He as [[a d] [<- Hp]].
    unfold entry, pe_parent_score, pe_child_score in H1, H2. cbn [fst snd] in H1, H2.
    destruct (Hweak a d Hp); lia. }
  rewrite Hnone. reflexivity.
Qed.

Lemma no_strong_child_selects_deepest_witness :
  select_best_container_prefer_child (document item_page)
    [item_outer; item_inner] [(item_outer, 100); (item_inner, 100)]
  = Ok (Some item_inner).
Proof.
  apply (@no_strong_child_selects_deepest (document item_page)
           [item_outer; item_inner] [(item_outer, 100); (item_inner, 100)]).
  - intros c [<- | [<- | []]]; eexists; vm_compute; reflexivity.
  - intros a d H. vm_compute in H. destruct H as [H | []].
    injection H as <- <-. left. vm_compute. reflexivity.
Defined.

(** ** The locator of an element with children *)

Lemma attribute_xpath_rooted (tag_name attr value : str) :
  exists r, attribute_xpath tag_name attr value = 47%N :: r.
Proof. unfold attribute_xpath. eexists. reflexivity. Qed.

Lemma generate_xpath_rec_rooted {UD : UnicodeData} (doc : Element) (fuel : nat) :
  forall element s,
    generate_xpath_rec fuel doc element = Some s -> exists r, s = 47%N :: r.
Proof.
  induction fuel as [|fuel IH]; intros element s; [discriminate|].
  cbn [generate_xpath_rec]. unfold generate_xpath_body.
  destruct (negb (truthy element)); [discriminate|].
  destruct (clean_value (get_opt element (U "id"))).
  { intros E. injection E as <-. apply attribute_xpath_rooted. }
  destruct (nonempty (get_opt element (U "class"))).
  { intros E. injection E as <-. apply attribute_xpath_rooted. }
  destruct (first_clean_attribute element _) as [[attr attr_value]|].
  { intros E. injection E as <-. apply attribute_xpath_rooted. }
  assert (Hpos : forall s, Some (absolute_path doc element) = Some s ->
                           exists r, s = 47%N :: r).
  { intros s0 E. injection E as <-. unfold absolute_path. eexists. reflexivity. }
  destruct (find_closest_clean_identifier doc element) as [ancestor|]; [|apply Hpos].
  destruct (generate_xpath_rec fuel doc ancestor) as [[|c rest]|] eqn:Ea;
    try apply Hpos.
  intros E. injection E as <-.
  apply IH in Ea. destruct Ea as [r Er]. injection Er as -> ->.
  eexists. reflexivity.
Qed.

Lemma generate_xpath_rec_some {UD : UnicodeData} (doc element : Element) (fuel : nat) :
  truthy element = true -> generate_xpath_rec (S fuel) doc element <> None.
Proof.
  intros Ht. cbn [generate_xpath_rec]. unfold generate_xpath_body.
  rewrite Ht. cbn [negb].
  destruct (clean_value (get_opt element (U "id"))); [discriminate|].
  destruct (nonempty (get_opt element (U "class"))); [discriminate|].
  destruct (first_clean_attribute element _) as [[attr attr_value]|]; [discriminate|].
  destruct (find_closest_clean_identifier doc element) as [ancestor|]; [|discriminate].
  destruct (generate_xpath_rec fuel doc ancestor) as [[|c rest]|]; discriminate.
Qed.

Lemma generate_xpath_rooted {UD : UnicodeData} (doc element : Element) :
  truthy element = true ->
  exists r, generate_xpath doc element = Some (47%N :: r).
Proof.
  intros Ht. unfold generate_xpath.
  destruct (generate_xpath_rec (S (List.length (ancestors doc element))) doc element)
    as [s|] eqn:E.
  - eapply generate_xpath_rec_rooted in E. destruct E as [r ->]. now exists r.
  - exfalso. eapply generate_xpath_rec_some; eassumption.
Qed.

(** X7 — for every element that has a child element, [generate_xpath]
    returns a locator, never [None], and the locator begins with [/]. *)
Theorem locator_exists {UD : UnicodeData} (doc element : Element) :
  truthy element = true ->
  exists r, generate_xpath doc element = Some (U "/" ++ r).
Proof.
  intros Ht. unfold generate_xpath.
  destruct (generate_xpath_rec (S (List.length (ancestors doc element))) doc element)
    as [s|] eqn:E.
  - eapply generate_xpath_rec_rooted in E. destruct E as [r ->]. now exists r.
  - exfalso. eapply generate_xpath_rec_some; eassumption.
Qed.

Lemma locator_exists_witness :
  exists r, @generate_xpath ascii_tables page_with_empty_id article_with_empty_id
            = Some (U "/" ++ r).
Proof.
  apply (@locator_exists ascii_tables page_with_empty_id article_with_empty_id).
  reflexivity.
Defined.

(** X8 — an element with children whose [id] is missing, empty or holds an
    interference keyword, and whose [class] attribute is not empty, is
    located by its whole [class] value, [//tag[@class='value']]: the class
    is not screened for interference keywords. *)
Theorem class_locator_unfiltered {UD : UnicodeData} (doc element : Element)
        (classes : str) :
  truthy element = true ->
  clean_value (get_opt element (U "id")) = false ->
  get_opt element (U "class") = Some classes ->
  classes <> [] ->
  generate_xpath doc element
  = Some (U "//" ++ tag element ++ U "[@class='" ++ classes ++ U "']").
Proof.
  intros Ht Hid Hclass Hne. unfold generate_xpath. cbn [generate_xpath_rec].
  unfold generate_xpath_body. rewrite Ht. cbn [negb]. rewrite Hid, Hclass.
  destruct classes as [|c classes]; [contradiction|].
  cbn [nonempty]. unfold get. rewrite Hclass. reflexivity.
Qed.

Lemma class_locator_unfiltered_witness :
  @generate_xpath ascii_tables (document story_page)
    (mkElement 1 (U "body") [(U "class", U "nav-header")] [] [] [item_inner; related_block])
  = Some (U "//body[@class='nav-header']").
Proof.
  apply (@class_locator_unfiltered ascii_tables (document story_page)
           (mkElement 1 (U "body") [(U "class", U "nav-header")] [] []
                      [item_inner; related_block])
           (U "nav-header")).
  - reflexivity.
  - reflexivity.
  - reflexivity.
  - discriminate.
Defined.

(** ** The outcome of an extraction *)

Lemma extract_cases {UD : UnicodeData} {CO : Collaborators}
      (html_content : str) (log : Log) :
  let result := fst (extract_content_to_markdown html_content log) in
  result = failed
  \/ exists tree main_container markdown,
       fromstring html_content = Ok tree
       /\ located html_content = Some main_container
       /\ truthy main_container = true
       /\ result
          = {| markdown_content := markdown;
               xpath := generate_xpath
                          (document (preprocess_html_remove_interference tree))
                          main_container;
               status := U "success" |}.
Proof.
  cbv zeta.
  unfold located, extract_content_to_markdown, extract_body, run_bind, run_lift,
    run_ret, logger.
  destruct (fromstring html_content) as [tree | e]; [|now left].
  destruct (find_article_container tree) as [main_container | e]; [|now left].
  destruct (truthy main_container) eqn:Ht; cbv beta iota delta [negb]; [|now left].
  destruct (tostring main_container) as [container_html | e]; [|now left].
  destruct (clean_container_html container_html) as [cleaned | e]; [|now left].
  destruct (markdownify cleaned) as [markdown | e]; [|now left].
  right. exists tree, main_container, (clean_markdown_content markdown).
  repeat split. exact Ht.
Qed.

(** X9 — [extract_content_to_markdown] answers either with the failed
    result (empty text, empty locator, status [failed]) or with status
    [success] and a locator that begins with [/]; a success is only
    reported for an input whose content subtree was located. *)
Theorem extraction_outcome {UD : UnicodeData} {CO : Collaborators}
        (html_content : str) (log : Log) :
  let result := fst (extract_content_to_markdown html_content log) in
  result = failed
  \/ exists main_container r,
       located html_content = Some main_container
       /\ status result = U "success"
       /\ xpath result = Some (U "/" ++ r).
Proof.
  cbv zeta.
  destruct (extract_cases html_content log)
    as [E | [tree [main_container [markdown [_ [Hl [Ht E]]]]]]]; [now left|].
  right. cbv zeta in E.
  destruct (@generate_xpath_rooted _
              (document (preprocess_html_remove_interference tree))
              main_container Ht) as [r Er].
  exists main_container, r. rewrite E. cbn [status xpath].
  split; [exact Hl|]. split; [reflexivity | exact Er].
Qed.

(** ** The upward walk of the list search *)

(** X10 — the walk that promotes a list container to one of its ancestors
    stays on the container or stops at an ancestor that is not [html], has
    no negative-ancestor signal and has a positive container score. *)
Theorem promote_result {UD : UnicodeData} (doc : Element) (parents : list Element) :
  forall (current_container : Element) (max_items : Z),
    let result := promote doc current_container max_items parents in
    result = current_container
    \/ (In result parents
        /\ tag_is (U "html") result = false
        /\ has_negative_ancestor doc result = false
        /\ 0 < calculate_container_score doc result).
Proof.
  induction parents as [|parent rest IH]; intros current_container max_items;
    [now left|].
  cbv zeta. cbn [promote].
  destruct (tag_is (U "html") parent) eqn:Ehtml; [now left|].
  destruct (has_negative_ancestor doc parent) eqn:Eneg; [now left|].
  cbv zeta.
  set (parent_score := calculate_container_score doc parent).
  set (current_score := calculate_container_score doc current_container).
  set (parent_items := count_list_items parent).
  assert (Hparent : 0 < parent_score ->
                    In parent (parent :: rest)
                    /\ tag_is (U "html") parent = false
                    /\ has_negative_ancestor doc parent = false
                    /\ 0 < parent_score).
  { intros H. repeat split; [now left | exact Ehtml | exact Eneg | exact H]. }
  assert (Hwalk : 0 < parent_score ->
            (if 50 <? parent_items then parent
             else promote doc parent parent_items rest) = current_container
            \/ (In (if 50 <? parent_items then parent
                    else promote doc parent parent_items rest) (parent :: rest)
                /\ tag_is (U "html") (if 50 <? parent_items then parent
                                      else promote doc parent parent_items rest) = false
                /\ has_negative_ancestor doc
                     (if 50 <? parent_items then parent
                      else promote doc parent parent_items rest) = false
                /\ 0 < calculate_container_score doc
                         (if 50 <? parent_items then parent
                          else promote doc parent parent_items rest))).
  { intros H. right. destruct (50 <? parent_items); [now apply Hparent|].
    destruct (IH parent parent_items) as [-> | [H1 H2]].
    - now apply Hparent.
    - split; [now right | exact H2]. }
  destruct (parent_score <? -50) eqn:E0; [now left|].
  destruct (Z.ltb_spec (current_score + 15) parent_score);
    destruct (Z.ltb_spec 10 parent_score); cbn [andb];
    try (apply Hwalk; lia).
  all: destruct (Z.leb_spec (current_score - 3) parent_score);
    destruct (Z.ltb_spec 5 parent_score);
    destruct (parent_items <=? max_items * 2);
    destruct (max_items <=? parent_items); cbn [andb];
    try (apply Hwalk; lia).
  all: destruct (max_items <? 4); destruct (parent_items <=? 15);
    destruct (Z.ltb_spec 0 parent_score); cbn [andb];
    try (apply Hwalk; lia); now left.
Qed.

(** ** Removals in a tree whose nodes are distinct *)

Lemma subseq_refl {A : Type} (l : list A) : subseq l l.
Proof. induction l; constructor; assumption. Qed.

Lemma subseq_nil_l {A : Type} (l : list A) : subseq [] l.
Proof. induction l; constructor; assumption. Qed.

Lemma subseq_trans {A : Type} (l1 l2 l3 : list A) :
  subseq l1 l2 -> subseq l2 l3 -> subseq l1 l3.
Proof.
  intros H12 H23. revert l1 H12.
  induction H23 as [|x l2 l3 H IH|x l2 l3 H IH]; intros l1 H12.
  - exact H12.
  - constructor. now apply IH.
  - inversion H12; subst; constructor; now apply IH.
Qed.

Lemma subseq_app {A : Type} (l1 l1' l2 l2' : list A) :
  subseq l1 l1' -> subseq l2 l2' -> subseq (l1 ++ l2) (l1' ++ l2').
Proof.
  intros H1 H2. induction H1; simpl; [exact H2 | |]; constructor; assumption.
Qed.

Lemma subseq_in {A : Type} (l1 l2 : list A) (x : A) :
  subseq l1 l2 -> In x l1 -> In x l2.
Proof.
  intros H. induction H as [|y l1 l2 H IH|y l1 l2 H IH]; simpl; [tauto| |].
  - intros Hx. right. now apply IH.
  - intros [Hx | Hx]; [now left | right; now apply IH].
Qed.

Lemma subseq_NoDup {A : Type} (l1 l2 : list A) :
  subseq l1 l2 -> NoDup l2 -> NoDup l1.
Proof.
  intros H. induction H as [|y l1 l2 H IH|y l1 l2 H IH]; intros Hnd.
  - constructor.
  - inversion Hnd; subst. now apply IH.
  - inversion Hnd as [|? ? Hy Hl]; subst. constructor; [|now apply IH].
    intros Hin. apply Hy. eapply subseq_in; eassumption.
Qed.

Lemma ids_remove_elem (x : nat) (e : Element) :
  subseq (map eid (descendants (remove_elem x e))) (map eid (descendants e)).
Proof.
  induction e as [i t a tx tl cs IH] using Element_ind.
  rewrite !descendants_children, children_remove_elem. simpl children.
  induction cs as [|c cs IHcs]; [constructor|].
  inversion IH as [|? ? Hc Hcs]; subst. specialize (IHcs Hcs).
  rewrite prune_cons. destruct (Nat.eqb (eid c) x).
  - cbn [flat_map]. rewrite map_app.
    apply (subseq_app (l1 := []) (l1' := map eid (c :: descendants c)));
      [apply subseq_nil_l | exact IHcs].
  - cbn [flat_map]. rewrite !map_app. apply subseq_app; [|exact IHcs].
    cbn [map]. destruct (remove_elem_shallow x c) as [-> _].
    apply subseq_cons. exact Hc.
Qed.

Lemma distinct_remove_elem (x : nat) (e : Element) :
  distinct_below e -> distinct_below (remove_elem x e).
Proof. unfold distinct_below. apply subseq_NoDup, ids_remove_elem. Qed.

Lemma remove_all_cons (x : nat) (xs : list nat) (e : Element) :
  remove_all (x :: xs) e = remove_all xs (remove_elem x e).
Proof. reflexivity. Qed.

Lemma remove_all_app (xs ys : list nat) (e : Element) :
  remove_all (xs ++ ys) e = remove_all ys (remove_all xs e).
Proof. unfold remove_all. apply fold_left_app. Qed.

Lemma ids_remove_all (xs : list nat) (e : Element) :
  subseq (map eid (descendants (remove_all xs e))) (map eid (descendants e)).
Proof.
  revert e. induction xs as [|x xs IH]; intros e; [apply subseq_refl|].
  rewrite remove_all_cons. eapply subseq_trans; [apply IH | apply ids_remove_elem].
Qed.

Lemma distinct_remove_all (xs : list nat) (e : Element) :
  distinct_below e -> distinct_below (remove_all xs e).
Proof. unfold distinct_below. apply subseq_NoDup, ids_remove_all. Qed.

Lemma remove_all_shallow (xs : list nat) (e : Element) :
  eid (remove_all xs e) = eid e /\ tag (remove_all xs e) = tag e.
Proof.
  revert e. induction xs as [|x xs IH]; intros e; [now split|].
  rewrite remove_all_cons. destruct (IH (remove_elem x e)) as [-> ->].
  destruct (remove_elem_shallow x e) as [-> [-> _]]. now split.
Qed.

(** Removing an identity that does not occur changes nothing. *)
Lemma remove_elem_absent (x : nat) (e : Element) :
  absent x e -> remove_elem x e = e.
Proof.
  induction e as [i t a tx tl cs IH] using Element_ind. intros Ha.
  assert (E : prune x cs = cs).
  { assert (Hcs : forall c, In c cs -> eid c <> x /\ absent x c).
    { intros c Hc. split.
      - apply Ha. apply child_in_descendants. exact Hc.
      - intros n Hn. apply Ha.
        apply (descendants_of_child (mkNode i t a tx tl cs) c Hc). exact Hn. }
    clear Ha. induction cs as [|c cs IHcs]; [reflexivity|].
    inversion IH as [|? ? Hc Hrest]; subst.
    rewrite prune_cons. destruct (Hcs c (or_introl eq_refl)) as [Hne Hab].
    apply Nat.eqb_neq in Hne. rewrite Hne. rewrite (Hc Hab). f_equal.
    apply IHcs; [exact Hrest|]. intros c' Hc'. apply Hcs. now right. }
  transitivity (mkNode i t a tx tl (prune x cs)); [reflexivity|].
  now rewrite E.
Qed.

Lemma remove_all_absent (xs : list nat) (e : Element) :
  (forall x, In x xs -> absent x e) -> remove_all xs e = e.
Proof.
  induction xs as [|x xs IH]; intros H; [reflexivity|].
  rewrite remove_all_cons, remove_elem_absent.
  - apply IH. intros y Hy. apply H. now right.
  - apply H. now left.
Qed.

Lemma children_remove_elem_inv (x : nat) (e d : Element) :
  In d (children (remove_elem x e)) ->
  exists d0, In d0 (children e) /\ eid d0 <> x /\ d = remove_elem x d0.
Proof.
  rewrite children_remove_elem.
  induction (children e) as [|c cs IH]; [intros []|].
  rewrite prune_cons. destruct (Nat.eqb (eid c) x) eqn:E.
  - intros H. destruct (IH H) as [d0 [H0 H1]]. exists d0. split; [now right | exact H1].
  - intros [H | H].
    + exists c. repeat split; [now left | now apply Nat.eqb_neq | now symmetry].
    + destruct (IH H) as [d0 [H0 H1]]. exists d0. split; [now right | exact H1].
Qed.

Lemma children_remove_all_inv (xs : list nat) (e d : Element) :
  In d (children (remove_all xs e)) ->
  exists d0, In d0 (children e) /\ ~ In (eid d0) xs /\ d = remove_all xs d0.
Proof.
  revert e. induction xs as [|x xs IH]; intros e.
  - intros H. exists d. repeat split; [exact H | intros []].
  - rewrite remove_all_cons. intros H.
    destruct (IH _ H) as [d1 [H1 [Hx1 ->]]].
    destruct (children_remove_elem_inv x e d1 H1) as [d0 [H0 [Hx0 ->]]].
    exists d0. repeat split; [exact H0|].
    destruct (remove_elem_shallow x d0) as [E _]. rewrite E in Hx1.
    intros [Hx | Hx]; [now apply Hx0 | now apply Hx1].
Qed.

Lemma child_survives_all (xs : list nat) (e c : Element) :
  In c (children e) -> ~ In (eid c) xs ->
  In (remove_all xs c) (children (remove_all xs e)).
Proof.
  revert e c. induction xs as [|x xs IH]; intros e c Hc Hx; [exact Hc|].
  rewrite !remove_all_cons. apply IH.
  - rewrite children_remove_elem. apply prune_in; [exact Hc|].
    intros E. apply Hx. now left.
  - destruct (remove_elem_shallow x c) as [-> _]. intros H. apply Hx. now right.
Qed.

(** In a tree with distinct nodes, a child of the root does not hold the
    identity of another child. *)
Lemma siblings_disjoint (e c m : Element) :
  distinct_below e -> In c (children e) -> In m (children e) ->
  eid m <> eid c -> absent (eid m) c.
Proof.
  unfold distinct_below. rewrite descendants_children.
  induction (children e) as [|c0 cs IH]; [intros _ []|].
  cbn [flat_map]. rewrite map_app. intros Hnd Hc Hm Hne n Hn E.
  assert (Hblock : forall k, In k cs -> In (eid k) (map eid (flat_map (fun c => c :: descendants c) cs))).
  { intros k Hk. apply in_map. apply in_flat_map. exists k. split; [exact Hk | now left]. }
  assert (Hbelow : forall k, In k cs -> In n (descendants k) ->
                             In (eid n) (map eid (flat_map (fun c => c :: descendants c) cs))).
  { intros k Hk Hnk. apply in_map. apply in_flat_map. exists k.
    split; [exact Hk | now right]. }
  pose proof (NoDup_app_remove_l _ _ Hnd) as Hright.
  assert (Hdisj : forall i, In i (map eid (c0 :: descendants c0)) ->
                            In i (map eid (flat_map (fun c => c :: descendants c) cs)) ->
                            False).
  { intros i H1 H2. revert H1 H2. clear -Hnd.
    induction (map eid (c0 :: descendants c0)) as [|j l IHl]; [intros []|].
    simpl in Hnd. inversion Hnd as [|? ? Hj Hl]; subst.
    intros [-> | H1] H2.
    - apply Hj. apply in_or_app. now right.
    - now apply IHl. }
  destruct Hc as [Ec | Hc]; destruct Hm as [Em | Hm].
  - apply Hne. congruence.
  - apply (Hdisj (eid n)).
    + rewrite Ec. apply in_map. now right.
    + rewrite E. now apply Hblock.
  - apply (Hdisj (eid m)).
    + rewrite Em. now left.
    + rewrite <- E. now apply (Hbelow c).
  - exact (IH Hright Hc Hm Hne n Hn E).
Qed.

(** In a tree with distinct nodes, removing children of the root leaves
    the other children as they were. *)
Lemma children_after_removals (marks : list Element) (e d : Element) :
  distinct_below e ->
  (forall m, In m marks -> In m (children e)) ->
  In d (children (remove_all (map eid marks) e)) <->
  In d (children e) /\ ~ In (eid d) (map eid marks).
Proof.
  intros Hnd Hmarks.
  assert (Hsame : forall d0, In d0 (children e) -> ~ In (eid d0) (map eid marks) ->
                             remove_all (map eid marks) d0 = d0).
  { intros d0 H0 Hx. apply remove_all_absent. intros x Hin.
    apply in_map_iff in Hin as [m [<- Hm]].
    apply (@siblings_disjoint e d0 m Hnd H0 (Hmarks m Hm)).
    intros E. apply Hx. rewrite <- E. now apply in_map. }
  split.
  - intros H. apply children_remove_all_inv in H. destruct H as [d0 [H0 [Hx ->]]].
    rewrite (Hsame d0 H0 Hx). now split.
  - intros [H0 Hx]. rewrite <- (Hsame d H0 Hx) at 1.
    now apply child_survives_all.
Qed.

(** The two views of the page after a removal loop. *)
Lemma remove_each_views (has_parent : Element -> bool) (elements : list Element)
      (st : Page * Z) :
  let xs := map eid (filter has_parent elements) in
  body (fst (remove_each has_parent elements st)) = remove_all xs (body (fst st))
  /\ document (fst (remove_each has_parent elements st))
     = remove_all xs (document (fst st)).
Proof.
  cbv zeta. unfold remove_each. revert st.
  induction elements as [|el elements IH]; intros st; [now split|].
  cbn [fold_left filter]. destruct (has_parent el).
  - destruct (IH (detach el (fst st), snd st + 1)) as [-> ->]. now split.
  - apply IH.
Qed.

Lemma remove_rounds_views (tests : list (Element -> bool)) (st : Page * Z) :
  exists xs,
    body (fst (fold_left remove_matching tests st)) = remove_all xs (body (fst st))
    /\ document (fst (fold_left remove_matching tests st))
       = remove_all xs (document (fst st)).
Proof.
  revert st. induction tests as [|test tests IH]; intros st.
  - exists []. now split.
  - cbn [fold_left]. destruct (IH (remove_matching st test)) as [ys [-> ->]].
    unfold remove_matching.
    destruct (remove_each_views (has_parent_in (document (fst st)))
                (xpath_abs test (document (fst st))) st) as [-> ->].
    exists (map eid (filter (has_parent_in (document (fst st)))
                            (xpath_abs test (document (fst st)))) ++ ys).
    rewrite !remove_all_app. now split.
Qed.

(** ** The page-level cleaner *)

Lemma parent_chain_absent (x : nat) (e : Element) :
  absent x e -> parent_chain x e = None.
Proof.
  induction e as [i t a tx tl cs IH] using Element_ind. intros Ha.
  rewrite parent_chain_scan. simpl children.
  assert (Hcs : forall c, In c cs -> eid c <> x /\ absent x c).
  { intros c Hc. split.
    - apply Ha. apply child_in_descendants. exact Hc.
    - intros n Hn. apply Ha.
      apply (descendants_of_child (mkNode i t a tx tl cs) c Hc). exact Hn. }
  clear Ha. generalize (mkNode i t a tx tl cs). intros parent.
  induction cs as [|c cs IHcs]; [reflexivity|].
  inversion IH as [|? ? Hc Hrest]; subst.
  rewrite scan_children_cons. destruct (Hcs c (or_introl eq_refl)) as [Hne Hab].
  apply Nat.eqb_neq in Hne. rewrite Hne. rewrite (Hc Hab).
  apply IHcs; [exact Hrest|]. intros c' Hc'. apply Hcs. now right.
Qed.

(** A round of removals finds nothing to do in a document that holds no
    matching element below its root. *)
Lemma remove_matching_nothing (q : Page) (k : Z) (test : Element -> bool) :
  free_of test (document q) ->
  absent (eid (document q)) (document q) ->
  remove_matching (q, k) test = (q, k).
Proof.
  intros Hfree Hroot. unfold remove_matching, xpath_abs, descendant_or_self.
  cbn [fst filter]. rewrite (filter_none test (descendants (document q)) Hfree).
  destruct (test (document q)); [|reflexivity].
  unfold remove_each. cbn [fold_left].
  unfold has_parent_in, getparent, ancestors.
  rewrite (parent_chain_absent Hroot). reflexivity.
Qed.

Lemma page_level_rounds {UD : UnicodeData} (p : Page) :
  let cleaned := fst (remove_page_level_header_footer p) in
  shrunk (document cleaned) (document p)
  /\ forall t, In t (words ["header"; "footer"; "nav"]%string) ->
               free_of (tag_is t) (document cleaned).
Proof.
  cbv zeta. unfold remove_page_level_header_footer.
  set (tests := [tag_is (U "header"); tag_is (U "footer"); tag_is (U "nav")]).
  set (st := fold_left remove_matching tests (p, 0)).
  set (marks := filter is_header_footer (xpath_child (tag_is (U "div")) (body (fst st)))).
  assert (Hsh : Forall shallow tests)
    by (repeat constructor; apply tag_is_shallow).
  destruct (remove_matching_rounds (p, 0) Hsh) as [H1 H2].
  destruct (remove_each_document (fun _ => true) marks st) as [H3 _].
  fold st in H1, H2. split.
  - eapply shrunk_trans; [exact H3 | exact H1].
  - intros t Ht. apply (free_of_shrunk (tag_is_shallow t) H3).
    apply H2. destruct Ht as [<- | [<- | [<- | []]]]; subst tests; cbn [In]; tauto.
Qed.

(** X11 — after [remove_page_level_header_footer], no [header], [footer]
    or [nav] element is left anywhere below the root of the document. *)
Theorem page_level_tags_removed {UD : UnicodeData} (p : Page) :
  Forall (fun n => tag_in (words ["header"; "footer"; "nav"]%string) n = false)
         (descendants (document (fst (remove_page_level_header_footer p)))).
Proof.
  apply Forall_forall. intros n Hn.
  destruct (page_level_rounds p) as [_ Hfree].
  unfold tag_in. cbn [words map existsb].
  rewrite (Hfree (U "header") (or_introl eq_refl) n Hn).
  rewrite (Hfree (U "footer") (or_intror (or_introl eq_refl)) n Hn).
  rewrite (Hfree (U "nav") (or_intror (or_intror (or_introl eq_refl))) n Hn).
  reflexivity.
Qed.

Lemma page_level_views {UD : UnicodeData} (p : Page) :
  exists xs,
    let st := fold_left remove_matching
                [tag_is (U "header"); tag_is (U "footer"); tag_is (U "nav")] (p, 0) in
    let marks := filter is_header_footer (xpath_child (tag_is (U "div")) (body (fst st))) in
    body (fst st) = remove_all xs (body p)
    /\ document (fst st) = remove_all xs (document p)
    /\ body (fst (remove_page_level_header_footer p))
       = remove_all (map eid marks) (body (fst st))
    /\ document (fst (remove_page_level_header_footer p))
       = remove_all (map eid marks) (document (fst st)).
Proof.
  destruct (remove_rounds_views
              [tag_is (U "header"); tag_is (U "footer"); tag_is (U "nav")] (p, 0))
    as [xs [Hb Hd]].
  exists xs. cbv zeta. split; [exact Hb|]. split; [exact Hd|].
  unfold remove_page_level_header_footer. cbv zeta.
  set (st := fold_left remove_matching _ (p, 0)).
  set (marks := filter is_header_footer (xpath_child (tag_is (U "div")) (body (fst st)))).
  destruct (remove_each_views (fun _ => true) marks st) as [E1 E2].
  rewrite filter_all in E1, E2. now split.
Qed.

Lemma marked_divs_removed {UD : UnicodeData} (p : Page) :
  distinct_below (body p) ->
  filter is_header_footer
         (xpath_child (tag_is (U "div")) (body (fst (remove_page_level_header_footer p))))
  = [].
Proof.
  intros Hnd. destruct (page_level_views p) as [xs [Hb [_ [Hb2 _]]]].
  cbv zeta in Hb, Hb2. rewrite Hb2.
  set (st := fold_left remove_matching _ (p, 0)) in *.
  set (marks := filter is_header_footer (xpath_child (tag_is (U "div")) (body (fst st)))).
  assert (Hnd1 : distinct_below (body (fst st)))
    by (rewrite Hb; now apply distinct_remove_all).
  assert (Hmarks : forall m, In m marks -> In m (children (body (fst st)))).
  { intros m Hm. subst marks. apply filter_In in Hm as [Hm _].
    unfold xpath_child in Hm. apply filter_In in Hm. exact (proj1 Hm). }
  apply filter_none. intros d Hd.
  unfold xpath_child in Hd. apply filter_In in Hd as [Hd Hdiv].
  destruct (proj1 (@children_after_removals marks (body (fst st)) d Hnd1 Hmarks) Hd)
    as [Hd0 Hout].
  destruct (is_header_footer d) eqn:E; [|reflexivity].
  exfalso. apply Hout. apply in_map. subst marks.
  apply filter_In. split; [|exact E].
  unfold xpath_child. apply filter_In. split; [exact Hd0 | exact Hdiv].
Qed.

(** X12 — in a page whose nodes are distinct, the second round of
    [remove_page_level_header_footer] takes away the direct [div] children
    of the body that [is_header_footer] marks, and nothing else at that
    level: the children of the body once the function has run are exactly
    the children it had after the first round, the one that removes
    [header], [footer] and [nav], that are not marked [div]s, each as it
    was. *)
Theorem no_marked_div_remains {UD : UnicodeData} (p : Page) :
  distinct_below (body p) ->
  let after_tags :=
    fst (fold_left remove_matching
                   [tag_is (U "header"); tag_is (U "footer"); tag_is (U "nav")] (p, 0)) in
  let cleaned := fst (remove_page_level_header_footer p) in
  forall d,
    In d (children (body cleaned))
    <-> In d (children (body after_tags))
        /\ tag_is (U "div") d && is_header_footer d = false.
Proof.
  intros Hnd. cbv zeta. intros d.
  destruct (page_level_views p) as [xs [Hb [_ [Hb2 _]]]].
  cbv zeta in Hb, Hb2. rewrite Hb2.
  set (st := fold_left remove_matching _ (p, 0)) in *.
  set (marks := filter is_header_footer (xpath_child (tag_is (U "div")) (body (fst st)))).
  assert (Hnd1 : distinct_below (body (fst st)))
    by (rewrite Hb; now apply distinct_remove_all).
  assert (Hmarks : forall m, In m marks ->
                             In m (children (body (fst st)))
                             /\ tag_is (U "div") m = true /\ is_header_footer m = true).
  { intros m Hm. subst marks. apply filter_In in Hm as [Hm Hf].
    unfold xpath_child in Hm. apply filter_In in Hm as [Hm Hdiv].
    split; [exact Hm | split; [exact Hdiv | exact Hf]]. }
  rewrite (@children_after_removals marks (body (fst st)) d Hnd1
             (fun m Hm => proj1 (Hmarks m Hm))).
  split; intros [Hd Hout]; (split; [exact Hd|]).
  - destruct (tag_is (U "div") d) eqn:Ediv; [|reflexivity]. cbn [andb].
    destruct (is_header_footer d) eqn:E; [|reflexivity].
    exfalso. apply Hout. apply in_map. subst marks.
    apply filter_In. split; [|exact E].
    unfold xpath_child. apply filter_In. split; [exact Hd | exact Ediv].
  - intros Hin. apply in_map_iff in Hin as [m [E Hm]].
    destruct (Hmarks m Hm) as [Hchild [Hdiv Hmark]].
    assert (m = d) as ->.
    { exact (@same_identity (descendants (body (fst st))) m d Hnd1
               (child_in_descendants _ _ Hchild) (child_in_descendants _ _ Hd) E). }
    rewrite Hdiv, Hmark in Hout. discriminate Hout.
Qed.

Lemma portal_page_distinct : distinct_nodes (document portal_page).
Proof.
  unfold distinct_nodes.
  change (NoDup [0; 1; 2; 3; 4; 5; 6; 7; 8; 9; 10]%nat).
  repeat (constructor; [cbn [In]; intros H; repeat destruct H as [H | H];
                        try discriminate H; exact H|]).
  constructor.
Defined.

Lemma portal_body_distinct : distinct_below (body portal_page).
Proof.
  unfold distinct_below.
  change (NoDup [2; 3; 4; 5; 6; 7; 8; 9; 10]%nat).
  repeat (constructor; [cbn [In]; intros H; repeat destruct H as [H | H];
                        try discriminate H; exact H|]).
  constructor.
Defined.

Lemma no_marked_div_remains_witness :
  In story_block
     (children (body (fst (@remove_page_level_header_footer ascii_tables portal_page))))
  <-> In story_block
         (children
            (body (fst (fold_left remove_matching
                          [tag_is (U "header"); tag_is (U "footer"); tag_is (U "nav")]
                          (portal_page, 0)))))
      /\ tag_is (U "div") story_block && @is_header_footer ascii_tables story_block = false.
Proof.
  exact (@no_marked_div_remains ascii_tables portal_page portal_body_distinct story_block).
Defined.

(** On [portal_page] the first round takes the [header] away, and the
    second the [div class="topbar"] and the [div class="footer-links"]; the
    story stays. *)
Example portal_page_cleaned :
  map eid (children (body (fst (@remove_page_level_header_footer ascii_tables portal_page))))
  = [6%nat]
  /\ In story_block
        (children (body (fst (@remove_page_level_header_footer ascii_tables portal_page)))).
Proof. vm_compute. split; [reflexivity | left; reflexivity]. Qed.

(** X13 — in a page whose nodes are distinct,
    [remove_page_level_header_footer] is idempotent: run on its own result
    it removes nothing and leaves the page as it is. *)
Theorem page_level_cleaner_idempotent {UD : UnicodeData} (p : Page) :
  distinct_nodes (document p) ->
  distinct_below (body p) ->
  let cleaned := fst (remove_page_level_header_footer p) in
  remove_page_level_header_footer cleaned = (cleaned, 0).
Proof.
  intros Hdoc Hbody. cbv zeta.
  set (cleaned := fst (remove_page_level_header_footer p)).
  destruct (page_level_rounds p) as [Hshrunk Hfree]. fold cleaned in Hshrunk, Hfree.
  assert (Hroot : absent (eid (document cleaned)) (document cleaned)).
  { destruct (page_level_views p) as [xs [_ [Hd [_ Hd2]]]]. cbv zeta in Hd, Hd2.
    fold cleaned in Hd2. rewrite Hd2, Hd.
    destruct (remove_all_shallow
                (map eid (filter is_header_footer
                            (xpath_child (tag_is (U "div"))
                               (body (fst (fold_left remove_matching
                                             [tag_is (U "header"); tag_is (U "footer");
                                              tag_is (U "nav")] (p, 0)))))))
                (remove_all xs (document p))) as [-> _].
    destruct (remove_all_shallow xs (document p)) as [-> _].
    rewrite <- remove_all_app.
    unfold distinct_nodes, descendant_or_self in Hdoc. cbn [map] in Hdoc.
    inversion Hdoc as [|? ? Hnot _]; subst.
    intros n Hn E. apply Hnot. rewrite <- E.
    eapply subseq_in; [apply ids_remove_all|]. apply in_map. exact Hn. }
  unfold remove_page_level_header_footer at 1. cbv zeta. cbn [fold_left].
  rewrite (@remove_matching_nothing cleaned 0 _
             (Hfree (U "header") (or_introl eq_refl)) Hroot).
  rewrite (@remove_matching_nothing cleaned 0 _
             (Hfree (U "footer") (or_intror (or_introl eq_refl))) Hroot).
  rewrite (@remove_matching_nothing cleaned 0 _
             (Hfree (U "nav") (or_intror (or_intror (or_introl eq_refl)))) Hroot).
  cbn [fst]. subst cleaned. rewrite (marked_divs_removed p Hbody). reflexivity.
Qed.

Lemma page_level_cleaner_idempotent_witness :
  let cleaned := fst (@remove_page_level_header_footer ascii_tables portal_page) in
  @remove_page_level_header_footer ascii_tables cleaned = (cleaned, 0).
Proof.
  apply (@page_level_cleaner_idempotent ascii_tables portal_page).
  - exact portal_page_distinct.
  - exact portal_body_distinct.
Defined.

(** ** Header and footer exclusion *)

Lemma sort_desc_first {A : Type} (score : A -> Z) (x : A) (l : list A) :
  exists best rest,
    sort_desc score (x :: l) = best :: rest
    /\ In best (x :: l)
    /\ forall y, In y (x :: l) -> score y <= score best.
Proof.
  destruct (sort_desc score (x :: l)) as [|best rest] eqn:Es.
  - exfalso. pose proof (sort_desc_perm score (x :: l)) as P. rewrite Es in P.
    apply Permutation_nil in P. discriminate P.
  - exists best, rest. split; [reflexivity|]. split.
    + apply (Permutation_in _ (sort_desc_perm score (x :: l))). rewrite Es. now left.
    + exact (sort_desc_head score _ Es).
Qed.

Lemma best_scored {A : Type} (score : A -> Z) (x : A) (l : list A) :
  exists best s rest,
    sort_desc snd (map (fun c => (c, score c)) (x :: l)) = (best, s) :: rest
    /\ In best (x :: l)
    /\ forall y, In y (x :: l) -> score y <= score best.
Proof.
  destruct (sort_desc_first snd (x, score x) (map (fun c => (c, score c)) l))
    as [[best s] [rest [Es [Hin Hmax]]]].
  change ((x, score x) :: map (fun c => (c, score c)) l)
    with (map (fun c => (c, score c)) (x :: l)) in Es, Hin, Hmax.
  exists best, s, rest. split; [exact Es|].
  apply in_map_iff in Hin as [c [E Hc]]. injection E as -> <-.
  split; [exact Hc|]. intros y Hy.
  apply (Hmax (y, score y)). apply in_map_iff. now exists y.
Qed.

Lemma find_middle_content_spec {UD : UnicodeData} (valid_children : list Element) :
  match find_middle_content valid_children with
  | None => valid_children = []
  | Some best =>
      In best valid_children
      /\ forall c, In c valid_children ->
                   calculate_content_richness c <= calculate_content_richness best
  end.
Proof.
  destruct valid_children as [|c1 [|c2 l]]; [reflexivity | |].
  - cbn [find_middle_content]. split; [now left|]. intros c [<- | []]. lia.
  - unfold find_middle_content.
    destruct (best_scored calculate_content_richness c1 (c2 :: l))
      as [best [s [rest [-> [Hin Hmax]]]]].
    cbn [hd fst]. now split.
Qed.

(** X14 — [exclude_page_header_footer] returns the body when the body has
    no [div], [main], [section] or [article] child; [None] when every such
    child is a page-level header or footer; and otherwise a child that is
    not one, with the greatest content richness among those that are
    not. *)
Theorem exclude_page_header_footer_result {UD : UnicodeData} (doc body : Element) :
  let children :=
    xpath_child (tag_in (words ["div"; "main"; "section"; "article"]%string)) body in
  match exclude_page_header_footer doc body with
  | None =>
      children <> []
      /\ Forall (fun c => is_page_level_header_footer doc c = true) children
  | Some best =>
      (children = [] /\ best = body)
      \/ (In best children
          /\ is_page_level_header_footer doc best = false
          /\ Forall (fun c => is_page_level_header_footer doc c = false ->
                              calculate_content_richness c
                              <= calculate_content_richness best) children)
  end.
Proof.
  cbv zeta. unfold exclude_page_header_footer.
  set (children := xpath_child _ body).
  destruct children as [|c0 cs] eqn:Ec; [now left|].
  set (valid := filter (fun child => negb (is_page_level_header_footer doc child))
                       (c0 :: cs)).
  pose proof (find_middle_content_spec valid) as H.
  destruct (find_middle_content valid) as [best|].
  - right. destruct H as [Hin Hmax]. subst valid.
    apply filter_In in Hin as [Hin Hb]. apply negb_true_iff in Hb.
    repeat split; [exact Hin | exact Hb|].
    apply Forall_forall. intros c Hc Hv. apply Hmax. apply filter_In.
    split; [exact Hc | now apply negb_true_iff].
  - split; [discriminate|]. apply Forall_forall. intros c Hc.
    destruct (is_page_level_header_footer doc c) eqn:E; [reflexivity|].
    exfalso. assert (Hv : In c valid).
    { subst valid. apply filter_In. split; [exact Hc | now apply negb_true_iff]. }
    rewrite H in Hv. destruct Hv.
Qed.

(** X15 — the content richness of a container is -5 exactly when its
    stripped text has at most 100 characters, and lies between 10 and 85
    otherwise. *)
Theorem content_richness_range {UD : UnicodeData} (container : Element) :
  (text_length container <= 100 /\ calculate_content_richness container = -5)
  \/ (100 < text_length container
      /\ 10 <= calculate_content_richness container <= 85).
Proof.
  unfold calculate_content_richness, text_length. cbv zeta.
  destruct (Z.leb_spec (len (strip (text_content container))) 100); [left; now split|].
  right. split; [assumption|].
  repeat match goal with
         | |- context [if ?a <? ?b then _ else _] => destruct (Z.ltb_spec a b)
         end; lia.
Qed.

Lemma keyword_bonus_bounds (test : str -> bool) (keywords : list str) (score : Z) :
  score
  <= fold_left (fun score keyword => if test keyword then score + 15 else score)
               keywords score
  <= score + 15 * count_of keywords.
Proof.
  revert score. induction keywords as [|k keywords IH]; intros score.
  - cbn [fold_left]. unfold count_of. cbn [List.length Z.of_nat]. lia.
  - cbn [fold_left].
    replace (count_of (k :: keywords)) with (count_of keywords + 1)
      by (unfold count_of; cbn [List.length]; lia).
    destruct (test k).
    + specialize (IH (score + 15)). lia.
    + specialize (IH score). lia.
Qed.

Lemma main_content_score_sign {UD : UnicodeData} (container : Element) :
  (text_length container <= 100 /\ calculate_main_content_score container = -5)
  \/ (100 < text_length container /\ 10 <= calculate_main_content_score container).
Proof.
  unfold calculate_main_content_score, text_length. cbv zeta.
  destruct (Z.leb_spec (len (strip (text_content container))) 100); [left; now split|].
  right. split; [assumption|].
  match goal with
  | |- _ <= fold_left ?f ?l ?s =>
      pose proof (keyword_bonus_bounds
                    (fun keyword =>
                       str_in keyword (lower (get container (U "class") []))
                       || str_in keyword (lower (get container (U "id") [])))
                    l s) as Hb
  end.
  cbv beta in Hb. destruct Hb as [Hb _].
  eapply Z.le_trans; [|exact Hb].
  repeat match goal with
         | |- context [if ?a <? ?b then _ else _] => destruct (Z.ltb_spec a b)
         end; lia.
Qed.

(** X16 — [find_main_content_area] answers [None] exactly when no
    container holds more than 100 characters of stripped text; otherwise it
    returns one of the containers that do, with the greatest main-content
    score of all the containers. *)
Theorem find_main_content_area_result {UD : UnicodeData} (containers : list Element) :
  match find_main_content_area containers with
  | None => Forall (fun c => text_length c <= 100) containers
  | Some main_area =>
      In main_area containers
      /\ 100 < text_length main_area
      /\ Forall (fun c => calculate_main_content_score c
                          <= calculate_main_content_score main_area) containers
  end.
Proof.
  unfold find_main_content_area. cbv zeta.
  set (candidates := flat_map _ containers).
  assert (Hcand : forall c s, In (c, s) candidates <->
                              In c containers /\ s = calculate_main_content_score c
                              /\ 0 < s).
  { intros c s. subst candidates. rewrite in_flat_map. split.
    - intros [c0 [H0 H]].
      destruct (Z.ltb_spec 0 (calculate_main_content_score c0)); [|destruct H].
      destruct H as [H | []]. injection H as -> <-. now repeat split.
    - intros [H0 [-> Hs]]. exists c. split; [exact H0|].
      apply Z.ltb_lt in Hs. rewrite Hs. now left. }
  destruct (sort_desc snd candidates) as [|[main_area s] rest] eqn:Es.
  - assert (E : candidates = []).
    { apply Permutation_nil. rewrite <- Es. apply sort_desc_perm. }
    apply Forall_forall. intros c Hc.
    destruct (main_content_score_sign c) as [[H _] | [_ H]]; [exact H|].
    exfalso. assert (Hin : In (c, calculate_main_content_score c) candidates).
    { apply Hcand. repeat split; [exact Hc | lia]. }
    rewrite E in Hin. destruct Hin.
  - assert (Hin : In (main_area, s) candidates).
    { apply (Permutation_in _ (sort_desc_perm snd candidates)). rewrite Es. now left. }
    apply Hcand in Hin as [Hin [-> Hpos]].
    split; [exact Hin|]. split.
    + destruct (main_content_score_sign main_area) as [[_ H] | [H _]]; [lia | exact H].
    + apply Forall_forall. intros c Hc.
      destruct (Z.ltb_spec 0 (calculate_main_content_score c)) as [Hc0 | Hc0]; [|lia].
      apply (sort_desc_head snd _ Es (c, calculate_main_content_score c)).
      apply Hcand. now repeat split.
Qed.

Lemma select_content_container_spec {UD : UnicodeData} (first_child : Element)
      (more : list Element) :
  exists best,
    select_content_container (first_child :: more) = Item best
    /\ In best (first_child :: more)
    /\ forall c, In c (first_child :: more) ->
                 calculate_final_score c <= calculate_final_score best.
Proof.
  destruct more as [|c2 l].
  - exists first_child. repeat split; [now left|]. intros c [<- | []]. lia.
  - unfold select_content_container.
    destruct (best_scored calculate_final_score first_child (c2 :: l))
      as [best [s [rest [-> [Hin Hmax]]]]].
    exists best. now repeat split.
Qed.

(** X17 — [exclude_local_header_footer] never fails on its index: it
    returns the container itself, or one of its [div], [section] or
    [article] children that is not a local header or footer, with the
    greatest final score among those. *)
Theorem exclude_local_header_footer_result {UD : UnicodeData} (container : Element) :
  let children :=
    xpath_child (tag_in (words ["div"; "section"; "article"]%string)) container in
  exists best,
    exclude_local_header_footer container = Item best
    /\ (best = container
        \/ (In best children
            /\ is_local_header_footer best = false
            /\ Forall (fun c => is_local_header_footer c = false ->
                                calculate_final_score c <= calculate_final_score best)
                      children)).
Proof.
  cbv zeta. unfold exclude_local_header_footer.
  set (children := xpath_child _ container).
  destruct children as [|c0 cs] eqn:Ec; [exists container; now split; [|left]|].
  destruct (filter (fun child => negb (is_local_header_footer child)) (c0 :: cs))
    as [|v vs] eqn:Ev; [exists container; now split; [|left]|].
  destruct (select_content_container_spec v vs) as [best [-> [Hin Hmax]]].
  exists best. split; [reflexivity|]. right.
  rewrite <- Ev in Hin, Hmax. apply filter_In in Hin as [Hin Hb].
  apply negb_true_iff in Hb. repeat split; [exact Hin | exact Hb|].
  apply Forall_forall. intros c Hc Hv. apply Hmax. apply filter_In.
  split; [exact Hc | now apply negb_true_iff].
Qed.

(** ** Density and positional cleaning *)

Lemma marked_child_identity (e c : Element) (marks : list Element) :
  distinct_below e ->
  In c (children e) ->
  (forall m, In m marks -> In m (children e)) ->
  In (eid c) (map eid marks) -> In c marks.
Proof.
  intros Hnd Hc Hmarks Hin. apply in_map_iff in Hin as [m [E Hm]].
  assert (m = c) as <-; [|exact Hm].
  apply (@same_identity (descendants e) m c Hnd); [| | exact E];
    apply child_in_descendants; [apply Hmarks; exact Hm | exact Hc].
Qed.

Lemma low_density_containers_children {UD : UnicodeData} (body m : Element) :
  In m (low_density_containers body) -> In m (children body).
Proof.
  unfold low_density_containers. cbv zeta. intros H.
  apply filter_In in H as [H _]. unfold xpath_child in H.
  apply filter_In in H. exact (proj1 H).
Qed.

(** X18 — in a page whose nodes are distinct, [remove_low_density_containers]
    keeps, unchanged, every child of the body that carries an
    important-content keyword in its class or id, or that shows article
    features (a heading, article metadata, or more than three
    paragraphs). *)
Theorem important_containers_are_kept {UD : UnicodeData} (p : Page) (c : Element) :
  distinct_below (body p) ->
  In c (children (body p)) ->
  has_important_content c || has_article_features c = true ->
  In c (children (body (remove_low_density_containers p))).
Proof.
  intros Hnd Hc Hkeep. unfold remove_low_density_containers.
  destruct (remove_each_views (fun _ => true) (low_density_containers (body p)) (p, 0))
    as [-> _].
  rewrite filter_all. cbn [fst].
  apply (@children_after_removals (low_density_containers (body p)) (body p) c Hnd
           (@low_density_containers_children _ (body p))).
  split; [exact Hc|]. intros Hin.
  apply (@marked_child_identity (body p) c _ Hnd Hc
           (@low_density_containers_children _ (body p))) in Hin.
  unfold low_density_containers in Hin. cbv zeta in Hin.
  apply filter_In in Hin as [_ Hin]. rewrite Hkeep in Hin. discriminate Hin.
Qed.

Lemma important_containers_are_kept_witness :
  In story_block
     (children (body (@remove_low_density_containers ascii_tables portal_page))).
Proof.
  apply (@important_containers_are_kept ascii_tables portal_page story_block).
  - exact portal_body_distinct.
  - right. right. left. reflexivity.
  - vm_compute. reflexivity.
Defined.

Lemma last_in {A : Type} (l : list A) (d : A) : In (last l d) (d :: l).
Proof.
  revert d. induction l as [|x l IH]; intros d; [now left|].
  destruct l as [|y l']; [right; now left|].
  change (last (x :: y :: l') d) with (last (y :: l') d).
  destruct (IH d) as [H | H]; [now left | right; now right].
Qed.

Lemma positional_containers_children {UD : UnicodeData} (body m : Element) :
  In m (positional_containers body) -> In m (children body).
Proof.
  unfold positional_containers. cbv zeta.
  set (direct := xpath_child _ body).
  assert (Hdirect : forall x, In x direct -> In x (children body)).
  { intros x Hx. subst direct. unfold xpath_child in Hx.
    apply filter_In in Hx. exact (proj1 Hx). }
  destruct (count_of direct <=? 2); [intros []|].
  destruct direct as [|first_container rest] eqn:Ed; [intros []|].
  intros H. apply in_app_or in H as [H | H].
  - destruct (is_positional_header first_container); [|destruct H].
    destruct H as [<- | []]. apply Hdirect. now left.
  - destruct (negb (same_element (last rest first_container) first_container)
              && is_positional_footer (last rest first_container)); [|destruct H].
    destruct H as [<- | []]. apply Hdirect. apply last_in.
Qed.

(** X19 — in a page whose nodes are distinct,
    [remove_positional_interference] keeps, unchanged, every child of the
    body, with two possible exceptions that arise only when the body has
    more than two [div], [section], [main] or [article] children: the first
    of them when it is a positional header, and the last of them when it is
    a positional footer. *)
Theorem positional_pass_spares_inner_containers {UD : UnicodeData} (p : Page)
        (c : Element) :
  distinct_below (body p) ->
  In c (children (body p)) ->
  In c (children (body (remove_positional_interference p)))
  \/ exists first_container rest,
       xpath_child (tag_in (words ["div"; "section"; "main"; "article"]%string)) (body p)
       = first_container :: rest
       /\ 2 < count_of (first_container :: rest)
       /\ ((c = first_container /\ is_positional_header c = true)
           \/ (c = last rest first_container /\ is_positional_footer c = true)).
Proof.
  intros Hnd Hc.
  destruct (in_dec Nat.eq_dec (eid c) (map eid (positional_containers (body p))))
    as [Hin | Hout].
  - right.
    apply (@marked_child_identity (body p) c _ Hnd Hc
             (@positional_containers_children _ (body p))) in Hin.
    unfold positional_containers in Hin. cbv zeta in Hin.
    destruct (Z.leb_spec
                (count_of (xpath_child
                             (tag_in (words ["div"; "section"; "main"; "article"]%string))
                             (body p))) 2) as [Hle | Hgt]; [destruct Hin|].
    destruct (xpath_child (tag_in (words ["div"; "section"; "main"; "article"]%string))
                          (body p)) as [|first_container rest]; [destruct Hin|].
    exists first_container, rest. split; [reflexivity|]. split; [exact Hgt|].
    apply in_app_or in Hin as [H | H].
    + destruct (is_positional_header first_container) eqn:E; [|destruct H].
      destruct H as [<- | []]. left. now split.
    + destruct (negb (same_element (last rest first_container) first_container));
        cbn [andb] in H; [|destruct H].
      destruct (is_positional_footer (last rest first_container)) eqn:E; [|destruct H].
      destruct H as [<- | []]. right. now split.
  - left. unfold remove_positional_interference.
    destruct (remove_each_views (fun _ => true) (positional_containers (body p)) (p, 0))
      as [-> _].
    rewrite filter_all. cbn [fst].
    apply (@children_after_removals (positional_containers (body p)) (body p) c Hnd
             (@positional_containers_children _ (body p))).
    now split.
Qed.

Lemma positional_pass_spares_inner_containers_witness :
  In story_block
     (children (body (@remove_positional_interference ascii_tables portal_page)))
  \/ exists first_container rest,
       xpath_child (tag_in (words ["div"; "section"; "main"; "article"]%string))
                   (body portal_page)
       = first_container :: rest
       /\ 2 < count_of (first_container :: rest)
       /\ ((story_block = first_container
            /\ @is_positional_header ascii_tables story_block = true)
           \/ (story_block = last rest first_container
               /\ @is_positional_footer ascii_tables story_block = true)).
Proof.
  apply (@positional_pass_spares_inner_containers ascii_tables portal_page story_block).
  - exact portal_body_distinct.
  - right. right. left. reflexivity.
Defined.

(** ** Container search by traceback *)

Lemma header_footer_traceback_in {UD : UnicodeData} (chain : list Element) (r : Element) :
  header_footer_traceback chain = Some r ->
  In r chain /\ tag_is (U "html") r = false.
Proof.
  induction chain as [|current rest IH]; [discriminate|].
  cbn [header_footer_traceback].
  destruct (tag_is (U "html") current) eqn:Ehtml; [discriminate|].
  cbv zeta.
  match goal with
  | |- (if ?b then _ else _) = _ -> _ => destruct b
  end.
  - intros E. injection E as <-. split; [now left | exact Ehtml].
  - destruct rest as [|parent rest']; [discriminate|].
    destruct (tag_in top_level_tags parent); [discriminate|].
    intros E. destruct (IH E) as [H1 H2]. split; [now right | exact H2].
Qed.

(** X20 — when [find_header_footer_container] returns a container, it is
    the element itself or one of its ancestors, and it is never the [html]
    element. *)
Theorem header_footer_container_is_ancestor {UD : UnicodeData}
        (doc element container : Element) :
  find_header_footer_container doc element = Some container ->
  In container (element :: ancestors doc element)
  /\ tag_is (U "html") container = false.
Proof.
  unfold find_header_footer_container. cbv zeta.
  destruct (header_footer_traceback (element :: ancestors doc element)) as [r|] eqn:Et.
  { intros E. injection E as <-. now apply header_footer_traceback_in. }
  destruct (ancestors doc element) as [|parent above] eqn:Ea; [discriminate|].
  assert (Hfallback :
            (if truthy parent && negb (tag_is (U "html") parent)
             then Some parent else None) = Some container ->
            In container (element :: parent :: above)
            /\ tag_is (U "html") container = false).
  { destruct (truthy parent); cbn [andb]; [|discriminate].
    destruct (tag_is (U "html") parent) eqn:Eh; cbn [negb]; [discriminate|].
    intros E. injection E as <-. split; [right; now left | exact Eh]. }
  destruct above as [|grandparent above']; [exact Hfallback|].
  destruct (truthy parent && tag_is (U "div") parent && truthy grandparent
            && tag_in (words ["body"; "html"]%string) grandparent) eqn:Ew;
    [|exact Hfallback].
  match goal with
  | |- match (if ?b then _ else _) with _ => _ end = _ -> _ => destruct b
  end; [|exact Hfallback].
  intros E. injection E as <-. split; [right; now left|].
  apply andb_true_iff in Ew as [Ew _]. apply andb_true_iff in Ew as [Ew _].
  apply andb_true_iff in Ew as [_ Ediv].
  apply tag_is_name in Ediv. unfold tag_is. rewrite Ediv. reflexivity.
Qed.

Lemma header_footer_container_is_ancestor_witness :
  In (mkElement 2 (U "header") [] [] [] [link 3 "Home"])
     (link 3 "Home" :: ancestors (document portal_page) (link 3 "Home"))
  /\ tag_is (U "html") (mkElement 2 (U "header") [] [] [] [link 3 "Home"]) = false.
Proof.
  apply (@header_footer_container_is_ancestor ascii_tables (document portal_page)
           (link 3 "Home")).
  vm_compute. reflexivity.
Defined.

(** X21 — when [find_footer_container_by_traceback] returns a container,
    it is the element itself or one of its ancestors, a [div], [section] or
    [footer], and its class or id holds one of the footer indicators. *)
Theorem footer_container_is_marked_ancestor {UD : UnicodeData}
        (doc element container : Element) :
  find_footer_container_by_traceback doc element = Some container ->
  In container (element :: ancestors doc element)
  /\ tag_in (words ["div"; "section"; "footer"]%string) container = true
  /\ existsb (fun indicator =>
                str_in indicator (lower (get container (U "class") []))
                || str_in indicator (lower (get container (U "id") [])))
             (words ["footer"; "foot"; "bottom"; "end"; "copyright"]%string) = true.
Proof.
  unfold find_footer_container_by_traceback.
  induction (element :: ancestors doc element) as [|current rest IH]; [discriminate|].
  cbn [footer_traceback]. cbv zeta.
  match goal with
  | |- (if ?a && ?b then _ else _) = _ -> _ => destruct a eqn:Etag; destruct b eqn:Eind
  end; cbn [andb].
  1: { intros E. injection E as <-. split; [now left | now split]. }
  all: destruct rest as [|parent rest']; [discriminate|];
    destruct (tag_in top_level_tags parent); [discriminate|];
    intros E; destruct (IH E) as [H1 H2]; split; [now right | exact H2].
Qed.

Lemma footer_container_is_marked_ancestor_witness :
  let container :=
    mkElement 9 (U "div") [(U "class", U "footer-links")] [] [] [paragraph 10 "Contact"] in
  In container (paragraph 10 "Contact"
                  :: ancestors (document portal_page) (paragraph 10 "Contact"))
  /\ tag_in (words ["div"; "section"; "footer"]%string) container = true
  /\ existsb (fun indicator =>
                str_in indicator (@lower ascii_tables (get container (U "class") []))
                || str_in indicator (@lower ascii_tables (get container (U "id") [])))
             (words ["footer"; "foot"; "bottom"; "end"; "copyright"]%string) = true.
Proof.
  apply (@footer_container_is_marked_ancestor ascii_tables (document portal_page)
           (paragraph 10 "Contact")).
  vm_compute. reflexivity.
Defined.

(** ** The [/extract] route *)

(** X22 — the route answers a blank input with status 400 without running
    the extraction, a failed extraction with status 422, and anything else
    with the extracted text, status [success] and a locator that begins
    with [/]; it never answers 500, because a successful extraction always
    carries a locator. *)
Theorem route_responses {UD : UnicodeData} {CO : Collaborators}
        (validation_error_text html_content : str) (log : Log) :
  let response := fst (extract_html_to_markdown validation_error_text html_content log) in
  let result :=
    fst (extract_content_to_markdown html_content
           (log ++ [(INFO, U "开始处理HTML内容提取")])) in
  ((strip html_content = []
    /\ extract_html_to_markdown validation_error_text html_content log
       = (HTTPException 400 (U "HTML内容不能为空"), log))
   \/ (strip html_content <> [] /\ result = failed
       /\ response = HTTPException 422 (U "无法从HTML中提取有效内容"))
   \/ (strip html_content <> []
       /\ exists main_container r,
            located html_content = Some main_container
            /\ response = Returned {| out_markdown_content := markdown_content result;
                                      out_xpath := U "/" ++ r;
                                      out_status := U "success" |}))
  /\ forall detail, response <> HTTPException 500 detail.
Proof.
  cbv zeta. unfold extract_html_to_markdown.
  destruct (strip html_content) as [|c rest] eqn:Es.
  { split; [left; now split | intros detail; discriminate]. }
  pose proof (extract_cases html_content (log ++ [(INFO, U "开始处理HTML内容提取")]))
    as H.
  cbv zeta in H.
  destruct (extract_content_to_markdown html_content
              (log ++ [(INFO, U "开始处理HTML内容提取")])) as [result log'].
  cbn [fst] in H |- *.
  destruct H as [-> | [tree [main_container [markdown [_ [Hl [Ht ->]]]]]]].
  - assert (E : str_eqb (status failed) (U "failed") = true) by (vm_compute; reflexivity).
    rewrite E. cbn [fst]. split.
    + right. left. repeat split. discriminate.
    + intros detail. discriminate.
  - destruct (@generate_xpath_rooted _
                (document (preprocess_html_remove_interference tree))
                main_container Ht) as [r Er].
    cbn [status]. 
    assert (E : str_eqb (U "success") (U "failed") = false) by (vm_compute; reflexivity).
    rewrite E. unfold validate_output. cbn [xpath markdown_content status].
    rewrite Er. cbn [fst]. split.
    + right. right. split; [discriminate|].
      exists main_container, r. split; [exact Hl | reflexivity].
    + intros detail. discriminate.
Qed.

(** ** The pool of browser sessions *)




Lemma drain_spec (Driver : Type) (quit : Driver -> exc unit) (queue : list Driver) :
  forall calls,
    drain quit queue calls = ([], calls ++ map (fun driver => (driver, quit driver)) queue).
Proof.
  induction queue as [|driver queue IH]; intros calls.
  - cbn [drain map]. now rewrite app_nil_r.
  - cbn [drain map]. rewrite IH, <- app_assoc. reflexivity.
Qed.

(** [close_all] leaves the queue empty and calls [quit] exactly once on
    every pooled session, oldest first, whether or not any of the calls
    raises. *)
Lemma close_all_empties_the_pool (Driver : Type) (quit : Driver -> exc unit)
        (pool : Pool Driver) :
  close_all quit pool
  = ({| pool_size := pool_size pool; drivers := [] |},
     map (fun driver => (driver, quit driver)) (drivers pool)).
Proof. unfold close_all. rewrite drain_spec. reflexivity. Qed.

(** ** The shape of the cleaned Markdown *)

Lemma lstrip_split (s : str) :
  exists sp, s = sp ++ lstrip s.
Proof.
  induction s as [|c s IH]; [now exists []|].
  cbn [lstrip]. destruct (isspace c).
  - destruct IH as [sp E]. exists (c :: sp). cbn [app]. now rewrite <- E.
  - now exists [].
Qed.

Lemma lstrip_clean_start (s : str) : clean_start (lstrip s).
Proof.
  induction s as [|c s IH]; [exact I|].
  cbn [lstrip]. destruct (isspace c) eqn:E; [exact IH | exact E].
Qed.

Lemma lstrip_fixed (s : str) : clean_start s -> lstrip s = s.
Proof. destruct s as [|c s]; [reflexivity|]. cbn [clean_start lstrip]. now intros ->. Qed.

Lemma lstrip_incl (s : str) (c : char) : In c (lstrip s) -> In c s.
Proof.
  destruct (lstrip_split s) as [sp E]. intros H. rewrite E. apply in_or_app. now right.
Qed.

Lemma strip_incl (s : str) (c : char) : In c (strip s) -> In c s.
Proof.
  unfold strip. intros H. apply in_rev in H. apply lstrip_incl in H.
  apply in_rev in H. now apply lstrip_incl.
Qed.

Lemma strip_clean (s : str) : clean_start (strip s) /\ clean_start (rev (strip s)).
Proof.
  unfold strip. split.
  - destruct (lstrip_split (rev (lstrip s))) as [sp E].
    pose proof (lstrip_clean_start s) as Hy.
    apply (f_equal (@rev char)) in E. rewrite rev_involutive, rev_app_distr in E.
    destruct (rev (lstrip (rev (lstrip s)))) as [|c m]; [exact I|].
    rewrite E in Hy. exact Hy.
  - rewrite rev_involutive. apply lstrip_clean_start.
Qed.

Lemma strip_fixed (s : str) : clean_start s -> clean_start (rev s) -> strip s = s.
Proof.
  intros H1 H2. unfold strip. rewrite (lstrip_fixed s H1), (lstrip_fixed (rev s) H2).
  apply rev_involutive.
Qed.

Lemma split_lines_aux_clean (s cur : str) :
  ~ In 10%N cur -> Forall (fun line => ~ In 10%N line) (split_lines_aux s cur).
Proof.
  revert cur. induction s as [|c s IH]; intros cur Hcur.
  - cbn [split_lines_aux]. constructor; [|constructor].
    intros H. apply Hcur. now apply in_rev.
  - cbn [split_lines_aux]. destruct (N.eqb_spec c 10).
    + constructor.
      * intros H. apply Hcur. now apply in_rev.
      * apply IH. intros [].
    + apply IH. intros [H | H]; [now apply n | now apply Hcur].
Qed.

Lemma stripped_lines_tidy (s : str) : Forall tidy_line (map strip (split_lines s)).
Proof.
  apply Forall_forall. intros line H. apply in_map_iff in H as [raw [<- Hraw]].
  pose proof (split_lines_aux_clean s [] (fun H => H)) as Hclean.
  rewrite Forall_forall in Hclean. destruct (strip_clean raw) as [H1 H2].
  repeat split; [|exact H1 | exact H2].
  intros H. apply strip_incl in H. exact (Hclean raw Hraw H).
Qed.

Lemma adjacent_blank_snoc (cleaned : list str) (line : str) :
  adjacent_blank (cleaned ++ [line]) ->
  adjacent_blank cleaned \/ (line = [] /\ exists init, cleaned = init ++ [[]]).
Proof.
  intros [l1 [l2 E]]. destruct l2 as [|y l2' _] using rev_ind.
  - right.
    change (l1 ++ [[]; []]) with (l1 ++ [[]] ++ [[]]) in E. rewrite app_assoc in E.
    apply app_inj_tail in E as [E1 E2]. split; [exact E2 | now exists l1].
  - left. exists l1, l2'.
    change (l1 ++ [] :: [] :: l2' ++ [y]) with (l1 ++ ([] :: [] :: l2') ++ [y]) in E.
    rewrite app_assoc in E. apply app_inj_tail in E as [E1 _]. exact E1.
Qed.

Lemma adjacent_blank_app_l (l pre : list str) :
  adjacent_blank l -> adjacent_blank (pre ++ l).
Proof. intros [l1 [l2 ->]]. exists (pre ++ l1), l2. now rewrite app_assoc. Qed.

Lemma adjacent_blank_app_r (l post : list str) :
  adjacent_blank l -> adjacent_blank (l ++ post).
Proof.
  intros [l1 [l2 ->]]. exists l1, (l2 ++ post). now rewrite <- app_assoc.
Qed.

(** What the loop keeps: tidy lines, never two empty ones in a row, and no
    empty line at the end unless [prev_empty] says so. *)
Lemma keep_line_invariant (lines : list str) :
  Forall tidy_line lines ->
  forall acc,
    Forall tidy_line (fst acc) ->
    ~ adjacent_blank (fst acc) ->
    (snd acc = false -> forall init, fst acc <> init ++ [[]]) ->
    Forall tidy_line (fst (fold_left keep_line lines acc))
    /\ ~ adjacent_blank (fst (fold_left keep_line lines acc)).
Proof.
  induction lines as [|line lines IH]; intros Hlines [cleaned prev_empty] Htidy Hadj Hlast.
  - now split.
  - inversion Hlines as [|? ? Hline Hrest]; subst.
    cbn [fold_left]. cbn [fst snd] in Htidy, Hadj, Hlast.
    assert (Hblank : tidy_line []) by (split; [intros [] | split; exact I]).
    destruct (keep_line (cleaned, prev_empty) line) as [cleaned' prev'] eqn:Ek.
    unfold keep_line in Ek.
    assert (Hacc : Forall tidy_line cleaned'
                   /\ ~ adjacent_blank cleaned'
                   /\ (prev' = false -> forall init, cleaned' <> init ++ [[]])).
    { destruct (strip line) as [|c r] eqn:Es.
      - destruct prev_empty; cbn [negb] in Ek; injection Ek as <- <-.
        + split; [exact Htidy|]. split; [exact Hadj | discriminate].
        + split; [|split; [|discriminate]].
          * apply Forall_app. split; [exact Htidy | now constructor].
          * intros H. apply adjacent_blank_snoc in H as [H | [_ [init E]]];
              [now apply Hadj | exact (Hlast eq_refl init E)].
      - assert (Hne : line <> []) by (intros ->; discriminate Es).
        injection Ek as <- <-. split; [|split].
        + apply Forall_app. split; [exact Htidy | now constructor].
        + intros H. apply adjacent_blank_snoc in H as [H | [E _]];
            [now apply Hadj | now apply Hne].
        + intros _ init E. apply app_inj_tail in E as [_ E]. now apply Hne. }
    destruct Hacc as [H1 [H2 H3]]. apply IH; assumption.
Qed.

Lemma drop_empty_front_split (l : list str) :
  exists pre,
    l = pre ++ drop_empty_front l
    /\ match drop_empty_front l with
       | [] => True
       | first_line :: _ => first_line <> []
       end.
Proof.
  induction l as [|x l IH]; [now exists []|].
  destruct x as [|c x].
  - cbn [drop_empty_front]. destruct IH as [pre [E H]].
    exists ([] :: pre). split; [cbn [app]; now rewrite <- E | exact H].
  - exists []. split; [reflexivity | discriminate].
Qed.

(** The lines [clean_markdown_content] joins. *)
Lemma trimmed_lines (cleaned : list str) :
  let kept := rev (drop_empty_front (rev (drop_empty_front cleaned))) in
  (exists pre post, cleaned = pre ++ kept ++ post)
  /\ match kept with
     | [] => True
     | first_line :: _ => first_line <> []
     end
  /\ match rev kept with
     | [] => True
     | last_line :: _ => last_line <> []
     end.
Proof.
  cbv zeta.
  destruct (drop_empty_front_split cleaned) as [pre [E1 H1]].
  destruct (drop_empty_front_split (rev (drop_empty_front cleaned))) as [post [E2 H2]].
  set (inner := drop_empty_front cleaned) in *.
  set (d := drop_empty_front (rev inner)) in *.
  assert (E3 : inner = rev d ++ rev post).
  { rewrite <- (rev_involutive inner), E2. apply rev_app_distr. }
  split; [exists pre, (rev post); now rewrite <- E3|]. split.
  - destruct (rev d) as [|first_line rest] eqn:Er; [exact I|].
    rewrite E3 in H1. exact H1.
  - rewrite rev_involutive. exact H2.
Qed.

Lemma join_two (sep p q : str) (rest : list str) :
  join sep (p :: q :: rest) = p ++ sep ++ join sep (q :: rest).
Proof. reflexivity. Qed.

Lemma join_first (sep : str) (c : char) (m : str) (rest : list str) :
  exists tail, join sep ((c :: m) :: rest) = c :: tail.
Proof. destruct rest as [|q rest]; [now exists m|]. rewrite join_two. now eexists. Qed.

Lemma join_last (sep : str) (init : list str) (last_line : str) :
  exists pre, join sep (init ++ [last_line]) = pre ++ last_line.
Proof.
  induction init as [|p init IH]; [now exists []|].
  destruct IH as [pre E]. cbn [app].
  destruct (init ++ [last_line]) as [|q rest] eqn:El.
  - destruct init; discriminate El.
  - rewrite join_two, E. exists (p ++ sep ++ pre). now rewrite <- !app_assoc.
Qed.

Lemma startswith_other (needle s : str) (c : char) :
  c <> 10%N -> startswith (10%N :: needle) (c :: s) = false.
Proof.
  intros H. cbn [startswith]. destruct (N.eqb_spec 10 c) as [E | E]; [|reflexivity].
  now contradiction H.
Qed.

Lemma str_in_past_line (needle line s : str) :
  ~ In 10%N line ->
  str_in (10%N :: needle) (line ++ s) = str_in (10%N :: needle) s.
Proof.
  induction line as [|c line IH]; intros H; [reflexivity|].
  cbn [app]. change (str_in (10%N :: needle) (c :: line ++ s))
    with (startswith (10%N :: needle) (c :: line ++ s)
          || str_in (10%N :: needle) (line ++ s)).
  rewrite startswith_other; [|intros ->; apply H; now left].
  cbn [orb]. apply IH. intros Hin. apply H. now right.
Qed.

Lemma str_in_nil (needle : str) : str_in (10%N :: needle) [] = false.
Proof. reflexivity. Qed.

Lemma joined_lines (lines : list str) :
  Forall tidy_line lines ->
  ~ adjacent_blank lines ->
  str_in [10; 10; 10]%N (join [10%N] lines) = false
  /\ startswith [10; 10]%N (join [10%N] lines) = false.
Proof.
  induction lines as [|p [|q rest] IH]; intros Htidy Hadj.
  - now split.
  - inversion Htidy as [|? ? [Hp _] _]; subst. cbn [join]. split.
    + rewrite <- (app_nil_r p), str_in_past_line; [reflexivity | exact Hp].
    + destruct p as [|c p]; [reflexivity|].
      apply startswith_other. intros ->. apply Hp. now left.
  - inversion Htidy as [|? ? [Hp _] Hrest]; subst.
    destruct IH as [IH1 IH2]; [exact Hrest | |].
    { intros H. apply Hadj. exact (@adjacent_blank_app_l (q :: rest) [p] H). }
    rewrite join_two. split.
    + rewrite str_in_past_line; [|exact Hp].
      change ([10%N] ++ join [10%N] (q :: rest)) with (10%N :: join [10%N] (q :: rest)).
      change (str_in [10; 10; 10]%N (10%N :: join [10%N] (q :: rest)))
        with (startswith [10; 10; 10]%N (10%N :: join [10%N] (q :: rest))
              || str_in [10; 10; 10]%N (join [10%N] (q :: rest))).
      rewrite IH1, orb_false_r.
      change (startswith [10; 10; 10]%N (10%N :: join [10%N] (q :: rest)))
        with (startswith [10; 10]%N (join [10%N] (q :: rest))).
      exact IH2.
    + destruct p as [|c p].
      * change (startswith [10; 10]%N ([] ++ [10%N] ++ join [10%N] (q :: rest)))
          with (startswith [10%N] (join [10%N] (q :: rest))).
        destruct q as [|c q].
        -- exfalso. apply Hadj. now exists [], rest.
        -- destruct (join_first [10%N] c q rest) as [tail E].
           refine (eq_ind_r (fun j => startswith [10%N] j = false) _ E).
           apply startswith_other. inversion Hrest as [|? ? [Hq _] _]; subst.
           intros ->. apply Hq. now left.
      * apply startswith_other. intros ->. apply Hp. now left.
Qed.

Lemma joined_shape (kept_all : list str) :
  Forall tidy_line kept_all ->
  ~ adjacent_blank kept_all ->
  let kept := rev (drop_empty_front (rev (drop_empty_front kept_all))) in
  str_in [10; 10; 10]%N (join [10%N] kept) = false
  /\ strip (join [10%N] kept) = join [10%N] kept.
Proof.
  intros Htidy Hadj.
  destruct (trimmed_lines kept_all) as [[pre [post E]] [Hfirst Hlast]].
  cbv zeta in E, Hfirst, Hlast |- *.
  generalize dependent (rev (drop_empty_front (rev (drop_empty_front kept_all)))).
  intros kept E Hfirst Hlast.
  assert (Htidy' : Forall tidy_line kept).
  { rewrite E in Htidy. apply Forall_app in Htidy as [_ Htidy].
    now apply Forall_app in Htidy as [Htidy _]. }
  assert (Hadj' : ~ adjacent_blank kept).
  { intros H. apply Hadj. rewrite E. apply adjacent_blank_app_l.
    now apply adjacent_blank_app_r. }
  split; [exact (proj1 (joined_lines Htidy' Hadj'))|].
  apply strip_fixed.
  - destruct kept as [|[|c m] rest]; [exact I | now contradiction Hfirst|].
    destruct (join_first [10%N] c m rest) as [tail E'].
    refine (eq_ind_r clean_start _ E').
    inversion Htidy' as [|? ? [_ [H _]] _]; subst. exact H.
  - destruct (rev kept) as [|last_line init] eqn:Er.
    + apply (f_equal (@rev str)) in Er. rewrite rev_involutive in Er. rewrite Er.
      exact I.
    + apply (f_equal (@rev str)) in Er. rewrite rev_involutive in Er.
      cbn [rev] in Er. rewrite Er in Htidy' |- *.
      destruct (join_last [10%N] (rev init) last_line) as [before E'].
      refine (eq_ind_r (fun j => clean_start (rev j)) _ E').
      rewrite rev_app_distr.
      apply Forall_app in Htidy' as [_ Hl].
      inversion Hl as [|? ? [_ [_ H]] _]; subst.
      destruct (rev last_line) as [|c m] eqn:Erl.
      * apply (f_equal (@rev char)) in Erl. rewrite rev_involutive in Erl.
        now contradiction Hlast.
      * exact H.
Qed.

(** X24 — the text [clean_markdown_content] returns never holds three line
    breaks in a row, and neither begins nor ends with white space: stripping
    it again changes nothing. *)
Theorem cleaned_markdown_shape {UD : UnicodeData} (markdown : str) :
  let cleaned := clean_markdown_content markdown in
  str_in [10; 10; 10]%N cleaned = false /\ strip cleaned = cleaned.
Proof.
  cbv zeta. unfold clean_markdown_content. cbv zeta.
  set (source := Re.sub _ _ _ markdown).
  destruct (keep_line_invariant (stripped_lines_tidy source) ([], false))
    as [Htidy Hadj].
  { constructor. }
  { intros [l1 [l2 E]]. destruct l1; discriminate E. }
  { intros _ init E. destruct init; discriminate E. }
  exact (joined_shape Htidy Hadj).
Qed.

(** ** What reaches the scorer *)

Lemma free_of_tags_false (tags : list str) (e n : Element) :
  (forall t, In t tags -> free_of (tag_is t) e) ->
  In n (descendants e) -> tag_in tags n = false.
Proof.
  intros Hfree Hn. unfold tag_in.
  induction tags as [|t tags IH]; [reflexivity|].
  cbn [existsb].
  rewrite (Hfree t (or_introl eq_refl) n Hn).
  apply IH. intros t' Ht'. apply Hfree. now right.
Qed.

(** X25 — when the body handed to the cleaner is the root of the document,
    or a child of the root that is not itself a [header], [footer] or
    [nav], the body [remove_page_level_header_footer] leaves holds no
    [header], [footer] or [nav] element: none of them reaches the
    scorer. *)
Theorem cleaned_body_has_no_page_chrome {UD : UnicodeData} (p : Page) :
  body p = document p
  \/ (body_is_child p /\ ~ In (tag (body p)) (words ["header"; "footer"; "nav"]%string)) ->
  Forall (fun n => tag_in (words ["header"; "footer"; "nav"]%string) n = false)
         (descendants (body (fst (remove_page_level_header_footer p)))).
Proof.
  intros H. pose proof (@cleaned_body_in_document _ p H) as Hbody.
  destruct (page_level_rounds p) as [_ Hfree]. cbv zeta in Hbody, Hfree.
  set (cleaned := fst (remove_page_level_header_footer p)) in *.
  apply Forall_forall. intros n Hn.
  apply (@free_of_tags_false _ (document cleaned) n Hfree).
  destruct Hbody as [E | Hchild].
  - exact (eq_ind _ (fun e => In n (descendants e)) Hn _ E).
  - exact (@descendants_of_child _ _ Hchild n Hn).
Qed.

Lemma cleaned_body_has_no_page_chrome_witness :
  Forall (fun n => tag_in (words ["header"; "footer"; "nav"]%string) n = false)
         (descendants (body (fst (@remove_page_level_header_footer ascii_tables
                                    portal_page)))).
Proof.
  apply (@cleaned_body_has_no_page_chrome ascii_tables portal_page).
  right. split; [split|].
  - left. reflexivity.
  - intros n Hn E.
    repeat (destruct Hn as [<- | Hn]; [try reflexivity; try discriminate E|]).
    destruct Hn.
  - intros Hin. repeat (destruct Hin as [Hin | Hin]; [discriminate Hin|]).
    destruct Hin.
Defined.

(** X26 — every candidate [find_main_content_in_cleaned_html] hands to the
    scorer is a [div], [section], [article] or [main], so the scorer's
    chrome-tag rule (-500 for [header], [footer], [nav], [aside]) never
    applies to a candidate of the selection. *)
Theorem candidates_are_never_chrome {UD : UnicodeData} (p : Page) (candidate : Element) :
  In candidate (xpath_desc is_content_container (body p)) ->
  str_mem (lower (tag candidate)) chrome_tags = false.
Proof.
  unfold xpath_desc, is_content_container, tag_in. intros H.
  apply filter_In in H. destruct H as [_ H].
  cbn [words map existsb] in H.
  repeat (apply orb_true_iff in H; destruct H as [H | H]);
    try discriminate H;
    apply tag_is_tag in H; rewrite H; reflexivity.
Qed.

Lemma candidates_are_never_chrome_witness :
  str_mem (@lower ascii_tables (tag item_inner)) (@chrome_tags) = false.
Proof.
  apply (@candidates_are_never_chrome ascii_tables story_page item_inner).
  left. reflexivity.
Defined.

(** ** Containers without text *)

(** X27 — [is_interference_container] judges every container that holds
    no text at all an interference container: its density is 0, which is
    below 3, and its text is shorter than 300 characters. *)
Theorem textless_container_is_interference {UD : UnicodeData} (container : Element) :
  text_content container = [] ->
  is_interference_container container = true.
Proof.
  intros Htext. unfold is_interference_container. cbv zeta.
  destruct (str_mem (lower (tag container)) _); [reflexivity|].
  match goal with
  | |- (if ?b then _ else _) = _ => destruct b; [reflexivity|]
  end.
  unfold calculate_text_density. cbv zeta. rewrite Htext. reflexivity.
Qed.

Lemma textless_container_is_interference_witness :
  @is_interference_container ascii_tables (mkElement 11 (U "div") [] [] [] []) = true.
Proof.
  apply (@textless_container_is_interference ascii_tables). reflexivity.
Defined.
